(** * Execution Session Manager of the problem page (ProblemDetailPage)

    A shallow embedding of the React component that owns the execution
    WebSocket, the debounced auto-save and the run / submit / language
    switch / unmount handlers, together with the axios response
    interceptor of [services/api.ts].

    Asynchronous handlers are cut at their [await]s: the synchronous
    segment up to an [await] is a state transformer on [World], and what
    follows the [await] is a first-order continuation ([Cont], [TimerCb])
    stored with the pending HTTP request or timer.  Variables that a
    handler reads from its closure are read from the [State] snapshot
    taken when the handler was invoked; refs, timers and sockets are read
    from the live [World]. *)

From Stdlib Require Import ZArith NArith PArith List String Ascii Bool Lia.
Import ListNotations.
Local Open Scope string_scope.

(** ** JavaScript helpers *)

Module Js.

(** Code units that [String.prototype.trim] strips, among the code
    units below 256 that [string] can hold. *)
Definition is_space (a : ascii) : bool :=
  let n := nat_of_ascii a in
  (Nat.eqb n 9 || Nat.eqb n 10 || Nat.eqb n 11 || Nat.eqb n 12
   || Nat.eqb n 13 || Nat.eqb n 32 || Nat.eqb n 160)%bool.

Fixpoint trim_start (s : string) : string :=
  match s with
  | String a t => if is_space a then trim_start t else s
  | EmptyString => EmptyString
  end.

Fixpoint rev_onto (s acc : string) : string :=
  match s with
  | String a t => rev_onto t (String a acc)
  | EmptyString => acc
  end.

Definition reverse (s : string) : string := rev_onto s EmptyString.

Definition trim (s : string) : string :=
  reverse (trim_start (reverse (trim_start s))).

(** Truthiness of a string: every string but the empty one. *)
Definition truthy (s : string) : bool :=
  match s with EmptyString => false | _ => true end.

(** Truthiness of a number (NaN does not arise on integers). *)
Definition truthy_num (z : Z) : bool := negb (Z.eqb z 0).

(** [x || undefined] on a possibly missing number. *)
Definition num_or_undefined (x : option Z) : option Z :=
  match x with
  | Some z => if truthy_num z then Some z else None
  | None => None
  end.

(** [x || null] on a possibly missing string. *)
Definition str_or_null (x : option string) : option string :=
  match x with
  | Some s => if truthy s then Some s else None
  | None => None
  end.

(** [x || ""] on a possibly missing string. *)
Definition str_or_empty (x : option string) : string :=
  match x with
  | Some s => s
  | None => EmptyString
  end.

Definition startsWith (s p : string) : bool := String.prefix p s.

Definition endsWith (s p : string) : bool :=
  String.prefix (reverse p) (reverse s).

(** [s.replace(/\/$/, "")] *)
Definition strip_trailing_slash (s : string) : string :=
  match reverse s with
  | String "/"%char t => reverse t
  | _ => s
  end.

Definition hex_digit (n : nat) : ascii :=
  if Nat.ltb n 10 then ascii_of_nat (48 + n) else ascii_of_nat (55 + n).

Definition percent (n : nat) : string :=
  String "%"%char (String (hex_digit (n / 16)) (String (hex_digit (n mod 16)) EmptyString)).

Definition unreserved (a : ascii) : bool :=
  let n := nat_of_ascii a in
  ((Nat.leb 65 n && Nat.leb n 90) || (Nat.leb 97 n && Nat.leb n 122)
   || (Nat.leb 48 n && Nat.leb n 57)
   || Nat.eqb n 45 || Nat.eqb n 95 || Nat.eqb n 46 || Nat.eqb n 33
   || Nat.eqb n 126 || Nat.eqb n 42 || Nat.eqb n 39 || Nat.eqb n 40
   || Nat.eqb n 41)%bool.

(** [encodeURIComponent] on code units below 256: unreserved characters
    are kept, the others are the percent-escaped bytes of their UTF-8
    encoding. *)
Fixpoint encodeURIComponent (s : string) : string :=
  match s with
  | EmptyString => EmptyString
  | String a t =>
      let n := nat_of_ascii a in
      (if unreserved a then String a EmptyString
       else if Nat.ltb n 128 then percent n
       else percent (192 + n / 64) ++ percent (128 + n mod 64))
      ++ encodeURIComponent t
  end.

End Js.

(** ** Data model (types.ts, the fields the session manager reads) *)

Record ProgrammingLanguage := {
  lang_id : Z;
  lang_name : string;
  lang_slug : string;
  lang_boilerplate : string
}.

Record Problem := {
  prob_id : Z;
  prob_slug : string;
  prob_language : option ProgrammingLanguage
}.

Record Phase := {
  ph_stdout : string;
  ph_stderr : string;
  ph_code : Z;
  ph_signal : option string;
  ph_output : string
}.

Record ExecutionResult := {
  er_language : string;
  er_version : string;
  er_run : option Phase;
  er_compile : option Phase
}.

Inductive Mode := ModeRun | ModeSubmit.

(** Outbound message of the execution channel. *)
Record ExecutionRequest := {
  rq_language : string;
  rq_version : string;
  rq_code : string;
  rq_problem_slug : string;
  rq_mode : Mode
}.

Record WsResult := {
  res_run : option Phase;
  res_compile : option Phase
}.

(** Inbound message of the execution channel, after [JSON.parse]. *)
Record Message := {
  msg_error : option string;
  msg_result : option WsResult;
  msg_mode : option string;
  msg_status : option string;
  msg_submission_id : option Z
}.

(** What [onmessage] gets out of [JSON.parse(event.data)]: the parse
    throws, or it returns [null] (reading [message.error] then throws
    inside the same [try]), or it returns a value whose fields can be
    read. *)
Inductive Payload :=
| PayloadInvalid
| PayloadNull
| PayloadValue (message : Message).

(** How a call that may throw completes. *)
Inductive Completion (A : Type) :=
| Returned (a : A)
| Threw.

Arguments Returned {A} a.
Arguments Threw {A}.

Definition ConnId := positive.
Definition TimerId := positive.
Definition ReqId := positive.

(** [WebSocket.readyState] *)
Inductive ReadyState := CONNECTING | OPEN | CLOSING | CLOSED.

Definition is_open (r : ReadyState) : bool :=
  match r with OPEN => true | _ => false end.

(** Calls of [services/api.ts] that the page makes. *)
Inductive HttpRequest :=
| ReqLanguagesList
| ReqProblemGet (problemSlug : string)
| ReqBoilerplate (problemSlug : string) (language : string)
| ReqAttemptGet (problemSlug : string) (languageId : Z)
| ReqAttemptUpdate (problemSlug : string) (code : option string) (language : option Z).

(** Settled promise of such a call: the response data, or a rejection. *)
Inductive Response :=
| RespLanguages (data : list ProgrammingLanguage)
| RespProblem (data : Problem)
| RespBoilerplate (boilerplate : string)
| RespAttempt (code : string) (language : option Z)
| RespUpdated
| RespError.

Definition resp_matches (rq : HttpRequest) (r : Response) : bool :=
  match rq, r with
  | _, RespError => true
  | ReqLanguagesList, RespLanguages _ => true
  | ReqProblemGet _, RespProblem _ => true
  | ReqBoilerplate _ _, RespBoilerplate _ => true
  | ReqAttemptGet _ _, RespAttempt _ _ => true
  | ReqAttemptUpdate _ _ _, RespUpdated => true
  | _, _ => false
  end.

(** ** Component state *)

(** The values one render of the component closes over: the hooks'
    results and every [useState] value.  [memo_wsConnection] is the
    [wsConnection] binding inside the [useCallback]-memoized
    [initializeWebSocket]: its dependency list is
    [isAuthenticated, problem, WS_URL, handleWebSocketMessage], so the
    callback, and the [wsConnection] it closed over, is replaced only by a
    render in which [problem] (or [isAuthenticated]) changed. *)
Record State := {
  isAuthenticated : bool;
  slug : string;
  problem : option Problem;
  languages : list ProgrammingLanguage;
  selectedLanguage : option ProgrammingLanguage;
  code : string;
  output : option ExecutionResult;
  loading : bool;
  executing : bool;
  submitting : bool;
  saving : bool;
  savedAt : option N;
  submissionStatus : option string;
  submissionId : option Z;
  wsConnection : option ConnId;
  isConnected : bool;
  memo_wsConnection : option ConnId
}.

(** The [useRef] cells. *)
Record Refs := {
  saveTimeoutRef : option TimerId;
  codeInitializedRef : bool;
  currentCodeRef : string;
  currentProblemRef : option Problem
}.

(** What a handler does after [await saveAttempt(...)]. *)
Inductive AfterSave :=
| ASDetached
| ASRun (cl : State)
| ASSubmit (cl : State).

(** The rest of an async function after an awaited HTTP call. *)
Inductive Cont :=
| KSaveAttempt (silent : bool) (k : AfterSave)
| KLangSave (cl : State) (newLanguage : ProgrammingLanguage)
| KLangAttempt (cl : State) (newLanguage : ProgrammingLanguage)
| KLangBoilerplateInTry (cl : State) (newLanguage : ProgrammingLanguage)
| KLangBoilerplateLast (newLanguage : ProgrammingLanguage)
| KUnmountSave
| KFetchLanguages (cl : State)
| KFetchProblem (cl : State) (langs : list ProgrammingLanguage)
| KFetchAttempt (cl : State) (problemData : Problem)
    (langs : list ProgrammingLanguage) (initialLanguage : ProgrammingLanguage)
| KFetchBoilerplate (initialLanguage : ProgrammingLanguage).

(** The callback of a [setTimeout]. *)
Inductive TimerCb :=
| CbDebounce (newCode : string) (cl : State)
| CbRunWait (cl : State) (ws : option ConnId)
| CbSubmitWait (cl : State) (ws : option ConnId).

Record Timer := {
  t_id : TimerId;
  t_due : N;
  t_cb : TimerCb
}.

Record PendingReq := {
  p_id : ReqId;
  p_req : HttpRequest;
  p_cont : Cont
}.

(** A socket created by [initializeWebSocket]; [conn_problem] is the
    [problem] closed over by the [handleWebSocketMessage] installed as
    its [onmessage]. *)
Record Conn := {
  conn_id : ConnId;
  conn_url : string;
  conn_state : ReadyState;
  conn_problem : option Problem
}.

Inductive ConsoleLevel := LLog | LWarn | LError.

(** Observable effects, in the order they happen. *)
Inductive Effect :=
| ESetTimeout (t : TimerId) (delay : N)
| EClearTimeout (t : TimerId)
| EHttp (rid : ReqId) (rq : HttpRequest)
| ENewWebSocket (c : ConnId) (url : string)
| EWsSend (c : ConnId) (rq : ExecutionRequest)
| EConsole (level : ConsoleLevel) (text : string)
| EAlert (text : string).

(** The page and its surroundings.  [accepts_url] is the browser's
    [WebSocket] constructor on an address: [false] where it throws a
    [SyntaxError] (an address its URL parser rejects). *)
Record World := {
  st : State;
  refs : Refs;
  mounted : bool;
  envUrl : option string;
  access_token : option string;
  timers : list Timer;
  pending : list PendingReq;
  conns : list Conn;
  log : list Effect;
  now : N;
  next_timer : TimerId;
  next_req : ReqId;
  next_conn : ConnId;
  accepts_url : string -> bool
}.

(** ** Field updates *)

Definition with_problem (v : option Problem) (s : State) : State :=
  {| isAuthenticated := isAuthenticated s; slug := slug s; problem := v;
     languages := languages s; selectedLanguage := selectedLanguage s;
     code := code s; output := output s; loading := loading s;
     executing := executing s; submitting := submitting s;
     saving := saving s; savedAt := savedAt s;
     submissionStatus := submissionStatus s; submissionId := submissionId s;
     wsConnection := wsConnection s; isConnected := isConnected s;
     memo_wsConnection := memo_wsConnection s |}.

Definition with_languages (v : list ProgrammingLanguage) (s : State) : State :=
  {| isAuthenticated := isAuthenticated s; slug := slug s;
     problem := problem s; languages := v;
     selectedLanguage := selectedLanguage s; code := code s;
     output := output s; loading := loading s; executing := executing s;
     submitting := submitting s; saving := saving s; savedAt := savedAt s;
     submissionStatus := submissionStatus s; submissionId := submissionId s;
     wsConnection := wsConnection s; isConnected := isConnected s;
     memo_wsConnection := memo_wsConnection s |}.

Definition with_selectedLanguage (v : option ProgrammingLanguage) (s : State) : State :=
  {| isAuthenticated := isAuthenticated s; slug := slug s;
     problem := problem s; languages := languages s; selectedLanguage := v;
     code := code s; output := output s; loading := loading s;
     executing := executing s; submitting := submitting s;
     saving := saving s; savedAt := savedAt s;
     submissionStatus := submissionStatus s; submissionId := submissionId s;
     wsConnection := wsConnection s; isConnected := isConnected s;
     memo_wsConnection := memo_wsConnection s |}.

Definition with_code (v : string) (s : State) : State :=
  {| isAuthenticated := isAuthenticated s; slug := slug s;
     problem := problem s; languages := languages s;
     selectedLanguage := selectedLanguage s; code := v; output := output s;
     loading := loading s; executing := executing s;
     submitting := submitting s; saving := saving s; savedAt := savedAt s;
     submissionStatus := submissionStatus s; submissionId := submissionId s;
     wsConnection := wsConnection s; isConnected := isConnected s;
     memo_wsConnection := memo_wsConnection s |}.

Definition with_output (v : option ExecutionResult) (s : State) : State :=
  {| isAuthenticated := isAuthenticated s; slug := slug s;
     problem := problem s; languages := languages s;
     selectedLanguage := selectedLanguage s; code := code s; output := v;
     loading := loading s; executing := executing s;
     submitting := submitting s; saving := saving s; savedAt := savedAt s;
     submissionStatus := submissionStatus s; submissionId := submissionId s;
     wsConnection := wsConnection s; isConnected := isConnected s;
     memo_wsConnection := memo_wsConnection s |}.

Definition with_loading (v : bool) (s : State) : State :=
  {| isAuthenticated := isAuthenticated s; slug := slug s;
     problem := problem s; languages := languages s;
     selectedLanguage := selectedLanguage s; code := code s;
     output := output s; loading := v; executing := executing s;
     submitting := submitting s; saving := saving s; savedAt := savedAt s;
     submissionStatus := submissionStatus s; submissionId := submissionId s;
     wsConnection := wsConnection s; isConnected := isConnected s;
     memo_wsConnection := memo_wsConnection s |}.

Definition with_executing (v : bool) (s : State) : State :=
  {| isAuthenticated := isAuthenticated s; slug := slug s;
     problem := problem s; languages := languages s;
     selectedLanguage := selectedLanguage s; code := code s;
     output := output s; loading := loading s; executing := v;
     submitting := submitting s; saving := saving s; savedAt := savedAt s;
     submissionStatus := submissionStatus s; submissionId := submissionId s;
     wsConnection := wsConnection s; isConnected := isConnected s;
     memo_wsConnection := memo_wsConnection s |}.

Definition with_submitting (v : bool) (s : State) : State :=
  {| isAuthenticated := isAuthenticated s; slug := slug s;
     problem := problem s; languages := languages s;
     selectedLanguage := selectedLanguage s; code := code s;
     output := output s; loading := loading s; executing := executing s;
     submitting := v; saving := saving s; savedAt := savedAt s;
     submissionStatus := submissionStatus s; submissionId := submissionId s;
     wsConnection := wsConnection s; isConnected := isConnected s;
     memo_wsConnection := memo_wsConnection s |}.

Definition with_saving (v : bool) (s : State) : State :=
  {| isAuthenticated := isAuthenticated s; slug := slug s;
     problem := problem s; languages := languages s;
     selectedLanguage := selectedLanguage s; code := code s;
     output := output s; loading := loading s; executing := executing s;
     submitting := submitting s; saving := v; savedAt := savedAt s;
     submissionStatus := submissionStatus s; submissionId := submissionId s;
     wsConnection := wsConnection s; isConnected := isConnected s;
     memo_wsConnection := memo_wsConnection s |}.

Definition with_savedAt (v : option N) (s : State) : State :=
  {| isAuthenticated := isAuthenticated s; slug := slug s;
     problem := problem s; languages := languages s;
     selectedLanguage := selectedLanguage s; code := code s;
     output := output s; loading := loading s; executing := executing s;
     submitting := submitting s; saving := saving s; savedAt := v;
     submissionStatus := submissionStatus s; submissionId := submissionId s;
     wsConnection := wsConnection s; isConnected := isConnected s;
     memo_wsConnection := memo_wsConnection s |}.

Definition with_submissionStatus (v : option string) (s : State) : State :=
  {| isAuthenticated := isAuthenticated s; slug := slug s;
     problem := problem s; languages := languages s;
     selectedLanguage := selectedLanguage s; code := code s;
     output := output s; loading := loading s; executing := executing s;
     submitting := submitting s; saving := saving s; savedAt := savedAt s;
     submissionStatus := v; submissionId := submissionId s;
     wsConnection := wsConnection s; isConnected := isConnected s;
     memo_wsConnection := memo_wsConnection s |}.

Definition with_submissionId (v : option Z) (s : State) : State :=
  {| isAuthenticated := isAuthenticated s; slug := slug s;
     problem := problem s; languages := languages s;
     selectedLanguage := selectedLanguage s; code := code s;
     output := output s; loading := loading s; executing := executing s;
     submitting := submitting s; saving := saving s; savedAt := savedAt s;
     submissionStatus := submissionStatus s; submissionId := v;
     wsConnection := wsConnection s; isConnected := isConnected s;
     memo_wsConnection := memo_wsConnection s |}.

Definition with_wsConnection (v : option ConnId) (s : State) : State :=
  {| isAuthenticated := isAuthenticated s; slug := slug s;
     problem := problem s; languages := languages s;
     selectedLanguage := selectedLanguage s; code := code s;
     output := output s; loading := loading s; executing := executing s;
     submitting := submitting s; saving := saving s; savedAt := savedAt s;
     submissionStatus := submissionStatus s; submissionId := submissionId s;
     wsConnection := v; isConnected := isConnected s;
     memo_wsConnection := memo_wsConnection s |}.

Definition with_isConnected (v : bool) (s : State) : State :=
  {| isAuthenticated := isAuthenticated s; slug := slug s;
     problem := problem s; languages := languages s;
     selectedLanguage := selectedLanguage s; code := code s;
     output := output s; loading := loading s; executing := executing s;
     submitting := submitting s; saving := saving s; savedAt := savedAt s;
     submissionStatus := submissionStatus s; submissionId := submissionId s;
     wsConnection := wsConnection s; isConnected := v;
     memo_wsConnection := memo_wsConnection s |}.

Definition with_memo_wsConnection (v : option ConnId) (s : State) : State :=
  {| isAuthenticated := isAuthenticated s; slug := slug s;
     problem := problem s; languages := languages s;
     selectedLanguage := selectedLanguage s; code := code s;
     output := output s; loading := loading s; executing := executing s;
     submitting := submitting s; saving := saving s; savedAt := savedAt s;
     submissionStatus := submissionStatus s; submissionId := submissionId s;
     wsConnection := wsConnection s; isConnected := isConnected s;
     memo_wsConnection := v |}.

Definition with_saveTimeoutRef (v : option TimerId) (r : Refs) : Refs :=
  {| saveTimeoutRef := v; codeInitializedRef := codeInitializedRef r;
     currentCodeRef := currentCodeRef r;
     currentProblemRef := currentProblemRef r |}.

Definition with_codeInitializedRef (v : bool) (r : Refs) : Refs :=
  {| saveTimeoutRef := saveTimeoutRef r; codeInitializedRef := v;
     currentCodeRef := currentCodeRef r;
     currentProblemRef := currentProblemRef r |}.

Definition with_currentCodeRef (v : string) (r : Refs) : Refs :=
  {| saveTimeoutRef := saveTimeoutRef r;
     codeInitializedRef := codeInitializedRef r; currentCodeRef := v;
     currentProblemRef := currentProblemRef r |}.

Definition with_currentProblemRef (v : option Problem) (r : Refs) : Refs :=
  {| saveTimeoutRef := saveTimeoutRef r;
     codeInitializedRef := codeInitializedRef r;
     currentCodeRef := currentCodeRef r; currentProblemRef := v |}.

Definition with_st (v : State) (w : World) : World :=
  {| st := v; refs := refs w; mounted := mounted w; envUrl := envUrl w;
     access_token := access_token w; timers := timers w;
     pending := pending w; conns := conns w; log := log w; now := now w;
     next_timer := next_timer w; next_req := next_req w;
     next_conn := next_conn w; accepts_url := accepts_url w |}.

Definition with_refs (v : Refs) (w : World) : World :=
  {| st := st w; refs := v; mounted := mounted w; envUrl := envUrl w;
     access_token := access_token w; timers := timers w;
     pending := pending w; conns := conns w; log := log w; now := now w;
     next_timer := next_timer w; next_req := next_req w;
     next_conn := next_conn w; accepts_url := accepts_url w |}.

Definition with_mounted (v : bool) (w : World) : World :=
  {| st := st w; refs := refs w; mounted := v; envUrl := envUrl w;
     access_token := access_token w; timers := timers w;
     pending := pending w; conns := conns w; log := log w; now := now w;
     next_timer := next_timer w; next_req := next_req w;
     next_conn := next_conn w; accepts_url := accepts_url w |}.

Definition with_timers (v : list Timer) (w : World) : World :=
  {| st := st w; refs := refs w; mounted := mounted w; envUrl := envUrl w;
     access_token := access_token w; timers := v; pending := pending w;
     conns := conns w; log := log w; now := now w;
     next_timer := next_timer w; next_req := next_req w;
     next_conn := next_conn w; accepts_url := accepts_url w |}.

Definition with_pending (v : list PendingReq) (w : World) : World :=
  {| st := st w; refs := refs w; mounted := mounted w; envUrl := envUrl w;
     access_token := access_token w; timers := timers w; pending := v;
     conns := conns w; log := log w; now := now w;
     next_timer := next_timer w; next_req := next_req w;
     next_conn := next_conn w; accepts_url := accepts_url w |}.

Definition with_conns (v : list Conn) (w : World) : World :=
  {| st := st w; refs := refs w; mounted := mounted w; envUrl := envUrl w;
     access_token := access_token w; timers := timers w;
     pending := pending w; conns := v; log := log w; now := now w;
     next_timer := next_timer w; next_req := next_req w;
     next_conn := next_conn w; accepts_url := accepts_url w |}.

Definition with_log (v : list Effect) (w : World) : World :=
  {| st := st w; refs := refs w; mounted := mounted w; envUrl := envUrl w;
     access_token := access_token w; timers := timers w;
     pending := pending w; conns := conns w; log := v; now := now w;
     next_timer := next_timer w; next_req := next_req w;
     next_conn := next_conn w; accepts_url := accepts_url w |}.

Definition with_now (v : N) (w : World) : World :=
  {| st := st w; refs := refs w; mounted := mounted w; envUrl := envUrl w;
     access_token := access_token w; timers := timers w;
     pending := pending w; conns := conns w; log := log w; now := v;
     next_timer := next_timer w; next_req := next_req w;
     next_conn := next_conn w; accepts_url := accepts_url w |}.

Definition with_next_timer (v : TimerId) (w : World) : World :=
  {| st := st w; refs := refs w; mounted := mounted w; envUrl := envUrl w;
     access_token := access_token w; timers := timers w;
     pending := pending w; conns := conns w; log := log w; now := now w;
     next_timer := v; next_req := next_req w; next_conn := next_conn w; accepts_url := accepts_url w |}.

Definition with_next_req (v : ReqId) (w : World) : World :=
  {| st := st w; refs := refs w; mounted := mounted w; envUrl := envUrl w;
     access_token := access_token w; timers := timers w;
     pending := pending w; conns := conns w; log := log w; now := now w;
     next_timer := next_timer w; next_req := v; next_conn := next_conn w; accepts_url := accepts_url w |}.

Definition with_next_conn (v : ConnId) (w : World) : World :=
  {| st := st w; refs := refs w; mounted := mounted w; envUrl := envUrl w;
     access_token := access_token w; timers := timers w;
     pending := pending w; conns := conns w; log := log w; now := now w;
     next_timer := next_timer w; next_req := next_req w; next_conn := v;
     accepts_url := accepts_url w |}.

(** ** A state monad over [World] for the synchronous segments *)

Definition M (A : Type) : Type := World -> A * World.

Definition ret {A : Type} (a : A) : M A := fun w => (a, w).

Definition bind {A B : Type} (m : M A) (f : A -> M B) : M B :=
  fun w => f (fst (m w)) (snd (m w)).

Declare Scope m_scope.
Delimit Scope m_scope with m.
Notation "x <- m ;; k" := (bind m (fun x => k))
  (at level 61, m at next level, right associativity) : m_scope.
Notation "m ;; k" := (bind m (fun _ => k))
  (at level 61, right associativity) : m_scope.
Local Open Scope m_scope.

Definition exec (m : M unit) (w : World) : World := snd (m w).

Definition gets {A : Type} (f : World -> A) : M A := fun w => (f w, w).

Definition modify (f : World -> World) : M unit := fun w => (tt, f w).

Definition skip : M unit := ret tt.

Definition when (b : bool) (m : M unit) : M unit := if b then m else skip.

(** *** React state setters: a [setState] on an unmounted component is
    dropped. *)

Definition setState (f : State -> State) : M unit :=
  modify (fun w => if mounted w then with_st (f (st w)) w else w).

Definition setLanguages v := setState (with_languages v).
Definition setSelectedLanguage v := setState (with_selectedLanguage v).
Definition setCode v := setState (with_code v).
Definition setOutput v := setState (with_output v).
Definition setLoading v := setState (with_loading v).
Definition setExecuting v := setState (with_executing v).
Definition setSubmitting v := setState (with_submitting v).
Definition setSaving v := setState (with_saving v).
Definition setSavedAt v := setState (with_savedAt v).
Definition setSubmissionStatus v := setState (with_submissionStatus v).
Definition setSubmissionId v := setState (with_submissionId v).
Definition setWsConnection v := setState (with_wsConnection v).
Definition setIsConnected v := setState (with_isConnected v).

(** [setProblem]: the render that follows changes [problem], a dependency
    of the memoized [initializeWebSocket], which is therefore re-created
    and closes over the [wsConnection] of that render. *)
Definition setProblem (p : Problem) : M unit :=
  setState (fun s => with_memo_wsConnection (wsConnection s) (with_problem (Some p) s)).

(** *** Refs *)

Definition setRefs (f : Refs -> Refs) : M unit :=
  modify (fun w => with_refs (f (refs w)) w).

(** *** Effects *)

Definition emit (e : Effect) : M unit :=
  modify (fun w => with_log (log w ++ [e]) w).

Definition console_log (text : string) := emit (EConsole LLog text).
Definition console_warn (text : string) := emit (EConsole LWarn text).
Definition console_error (text : string) := emit (EConsole LError text).

Definition setTimeout (cb : TimerCb) (delay : N) : M TimerId :=
  fun w =>
    let t := next_timer w in
    (t, with_log (log w ++ [ESetTimeout t delay])
          (with_next_timer (Pos.succ t)
             (with_timers
                (timers w ++ [{| t_id := t; t_due := now w + delay; t_cb := cb |}])
                w))).

Definition drop_timer (t : TimerId) (ts : list Timer) : list Timer :=
  filter (fun x => negb (Pos.eqb (t_id x) t)) ts.

Definition clearTimeout (t : TimerId) : M unit :=
  modify (fun w => with_timers (drop_timer t (timers w)) w) ;;
  emit (EClearTimeout t).

(** Calling one of the [api] wrappers: the request goes out and the rest
    of the caller waits for the promise. *)
Definition http (rq : HttpRequest) (k : Cont) : M unit :=
  fun w =>
    let rid := next_req w in
    (tt, with_log (log w ++ [EHttp rid rq])
           (with_next_req (Pos.succ rid)
              (with_pending
                 (pending w ++ [{| p_id := rid; p_req := rq; p_cont := k |}])
                 w))).

Definition find_conn (c : ConnId) (cs : list Conn) : option Conn :=
  find (fun x => Pos.eqb (conn_id x) c) cs.

(** [ws?.readyState] *)
Definition readyState (w : World) (ws : option ConnId) : option ReadyState :=
  match ws with
  | Some c => option_map conn_state (find_conn c (conns w))
  | None => None
  end.

(** [ws?.readyState === WebSocket.OPEN] *)
Definition ws_open (w : World) (ws : option ConnId) : bool :=
  match readyState w ws with
  | Some r => is_open r
  | None => false
  end.

(** [new WebSocket(url)]: the constructor throws on an address it
    rejects (no socket exists then); otherwise the socket exists and is
    connecting. *)
Definition newWebSocket (url : string) (p : option Problem) : M (Completion ConnId) :=
  fun w =>
    if accepts_url w url then
      let c := next_conn w in
      (Returned c,
       with_log (log w ++ [ENewWebSocket c url])
         (with_next_conn (Pos.succ c)
            (with_conns
               (conns w ++ [{| conn_id := c; conn_url := url;
                               conn_state := CONNECTING; conn_problem := p |}])
               w)))
    else (Threw, w).

(** [ws.send(data)]: throws on a socket that is still connecting (result
    [false]); on a closing or closed socket the data is dropped silently;
    on an open socket the message goes out. *)
Definition ws_send (c : ConnId) (rq : ExecutionRequest) : M bool :=
  fun w =>
    match readyState w (Some c) with
    | Some OPEN => (true, with_log (log w ++ [EWsSend c rq]) w)
    | Some CONNECTING => (false, w)
    | Some _ => (true, w)
    | None => (false, w)
    end.

(** ** The component's functions *)

Definition DEBOUNCE_MS : N := 2000.
Definition CONNECT_WAIT_MS : N := 500.

Definition defaultUrl : string := "ws://localhost:8080/ws".

(** [getWebSocketUrl], on the value of [import.meta.env.VITE_WS_URL]. *)
Definition getWebSocketUrl (env : option string) : string :=
  let url := match env with
             | Some u => if Js.truthy u then u else defaultUrl
             | None => defaultUrl
             end in
  if (negb (Js.truthy url) || negb (Js.truthy (Js.trim url))
      || (negb (Js.startsWith url "ws://") && negb (Js.startsWith url "wss://")))%bool
  then defaultUrl
  else if Js.endsWith url "/" then url else url ++ "/".

(** The synthesized result shown when a request fails locally. *)
Definition error_result (language stderr : string) : ExecutionResult :=
  {| er_language := language; er_version := "*";
     er_run := Some {| ph_stdout := ""; ph_stderr := stderr; ph_code := 1;
                       ph_signal := None; ph_output := "" |};
     er_compile := None |}.

Definition connect_failure : string :=
  "Failed to connect to execution service. Please try again.".

(** [problem?.language?.slug || ""] *)
Definition problem_language_slug (p : option Problem) : string :=
  match p with
  | Some p' => match prob_language p' with
               | Some l => lang_slug l
               | None => ""
               end
  | None => ""
  end.

(** [handleWebSocketMessage], memoized on [problem]. *)
Definition handleWebSocketMessage (p : option Problem) (message : Message) : M unit :=
  match Js.str_or_null (msg_error message) with
  | Some err =>
      console_error "WebSocket error:" ;;
      setOutput (Some (error_result (problem_language_slug p) err)) ;;
      setExecuting false ;;
      setSubmitting false
  | None =>
      match msg_result message with
      | Some result =>
          setOutput (Some {| er_language := problem_language_slug p;
                             er_version := "*";
                             er_run := res_run result;
                             er_compile := res_compile result |}) ;;
          when (match msg_mode message with
                | Some m => String.eqb m "submit"
                | None => false
                end)
            (setSubmissionStatus (Js.str_or_null (msg_status message)) ;;
             setSubmissionId (Js.num_or_undefined (msg_submission_id message)))
      | None => skip
      end ;;
      setExecuting false ;;
      setSubmitting false
  end.

(** The address [initializeWebSocket] hands to the constructor. *)
Definition socket_address (env token : option string) : string :=
  let cleanUrl := Js.strip_trailing_slash (getWebSocketUrl env) in
  match Js.str_or_null token with
  | Some t => cleanUrl ++ "/execute/?token=" ++ Js.encodeURIComponent t
  | None => cleanUrl
  end.

(** [initializeWebSocket], as the closure [cl] holds it: [wsConnection]
    is the binding of the memoized callback, [readyState] is read from
    the socket itself.  The constructor is called outside any [try], so
    its exception is the function's. *)
Definition initializeWebSocket (cl : State) : M (Completion (option ConnId)) :=
  reuse <- gets (fun w => ws_open w (memo_wsConnection cl)) ;;
  if reuse then
    console_log "Reusing existing WebSocket connection" ;;
    ret (Returned (memo_wsConnection cl))
  else if (negb (isAuthenticated cl) ||
           match problem cl with None => true | Some _ => false end)%bool then
    console_warn "Cannot initialize WebSocket: not authenticated or problem not loaded" ;;
    ret (Returned None)
  else
    WS_URL <- gets (fun w => getWebSocketUrl (envUrl w)) ;;
    if (negb (Js.truthy WS_URL) || negb (Js.truthy (Js.trim WS_URL)))%bool then
      console_error "WebSocket URL is empty or invalid:" ;;
      ret (Returned None)
    else
      token <- gets access_token ;;
      let cleanUrl := Js.strip_trailing_slash WS_URL in
      let wsUrl := match Js.str_or_null token with
                   | Some t => cleanUrl ++ "/execute/?token=" ++ Js.encodeURIComponent t
                   | None => cleanUrl
                   end in
      console_log "Initializing WebSocket connection to:" ;;
      console_log "Base WS_URL:" ;;
      console_log "Token present:" ;;
      if (negb (Js.truthy wsUrl) || String.eqb wsUrl "ws:///"
          || String.eqb wsUrl "wss:///")%bool then
        console_error "Invalid WebSocket URL constructed:" ;;
        ret (Returned None)
      else
        created <- newWebSocket wsUrl (problem cl) ;;
        match created with
        | Returned ws =>
            setWsConnection (Some ws) ;;
            ret (Returned (Some ws))
        | Threw => ret Threw
        end.

(** The socket's [onopen], [onerror] and [onclose] handlers. *)
Definition ws_onopen : M unit :=
  console_log "WebSocket connected" ;;
  setIsConnected true.

Definition ws_onerror : M unit :=
  console_error "WebSocket error:" ;;
  console_error "WebSocket URL was:" ;;
  setIsConnected false.

Definition ws_onclose : M unit :=
  console_log "WebSocket disconnected" ;;
  setIsConnected false ;;
  setWsConnection None.

(** The socket's [onmessage]: whatever the [try] block throws, be it
    [JSON.parse] or the read of [message.error] on [null], ends in the
    [catch], which only logs. *)
Definition ws_onmessage (p : option Problem) (data : Payload) : M unit :=
  match data with
  | PayloadValue message => handleWebSocketMessage p message
  | PayloadInvalid | PayloadNull => console_error "Failed to parse WebSocket message:"
  end.

(** The execution request that [handleRunCode] / [handleSubmitCode]
    serialize, from the closure of the handler. *)
Definition execution_request (cl : State) (l : ProgrammingLanguage) (p : Problem)
    (m : Mode) : ExecutionRequest :=
  {| rq_language := lang_slug l; rq_version := "*"; rq_code := code cl;
     rq_problem_slug := prob_slug p; rq_mode := m |}.

Definition setBusy (m : Mode) (b : bool) : M unit :=
  match m with
  | ModeRun => setExecuting b
  | ModeSubmit => setSubmitting b
  end.

Definition send_failure (m : Mode) : string :=
  match m with
  | ModeRun => "Failed to send execution request"
  | ModeSubmit => "Failed to send submission request"
  end.

(** [try { ws.send(JSON.stringify({...})) } catch { ... }], the tail of
    both handlers. *)
Definition send_request (m : Mode) (cl : State) (ws : ConnId) : M unit :=
  match selectedLanguage cl, problem cl with
  | Some l, Some p =>
      sent <- ws_send ws (execution_request cl l p m) ;;
      if sent then skip
      else
        console_error "Failed to send WebSocket message:" ;;
        setOutput (Some (error_result (lang_slug l) (send_failure m))) ;;
        setBusy m false
  | _, _ => skip
  end.

(** After the 500 ms wait: [if (ws?.readyState !== WebSocket.OPEN)]. *)
Definition after_wait (m : Mode) (cl : State) (ws : option ConnId) : M unit :=
  opened <- gets (fun w => ws_open w ws) ;;
  match ws, opened with
  | Some c, true => send_request m cl c
  | _, _ =>
      setOutput (Some (error_result
                         (match selectedLanguage cl with
                          | Some l => lang_slug l
                          | None => ""
                          end) connect_failure)) ;;
      setBusy m false
  end.

Definition wait_callback (m : Mode) (cl : State) (ws : option ConnId) : TimerCb :=
  match m with
  | ModeRun => CbRunWait cl ws
  | ModeSubmit => CbSubmitWait cl ws
  end.

(** Both handlers from [setExecuting(true)] / [setSubmitting(true)] on,
    that is, after the awaited save.  Nothing catches an exception of
    [initializeWebSocket]: the handler ends there, its promise rejected. *)
Definition after_save_request (m : Mode) (cl : State) : M unit :=
  setBusy m true ;;
  setOutput None ;;
  setSubmissionStatus None ;;
  setSubmissionId None ;;
  outcome <- initializeWebSocket cl ;;
  match outcome with
  | Returned ws =>
      opened <- gets (fun w => ws_open w ws) ;;
      match ws, opened with
      | Some c, true => send_request m cl c
      | _, _ =>
          console_error "WebSocket not connected, waiting for connection..." ;;
          _ <- setTimeout (wait_callback m cl ws) CONNECT_WAIT_MS ;;
          skip
      end
  | Threw => skip
  end.

Definition after_save (k : AfterSave) : M unit :=
  match k with
  | ASDetached => skip
  | ASRun cl => after_save_request ModeRun cl
  | ASSubmit cl => after_save_request ModeSubmit cl
  end.

(** [saveAttempt(codeToSave, silent)] up to its [await]; [k] is what the
    caller does once the returned promise settles. *)
Definition saveAttempt (cl : State) (codeToSave : string) (silent : bool)
    (k : AfterSave) : M unit :=
  match selectedLanguage cl with
  | Some l =>
      if (negb (isAuthenticated cl)
          || match problem cl with None => true | Some _ => false end
          || negb (Js.truthy (slug cl)))%bool
      then after_save k
      else
        when (negb silent) (setSaving true) ;;
        http (ReqAttemptUpdate (slug cl) (Some codeToSave) (Some (lang_id l)))
             (KSaveAttempt silent k)
  | None => after_save k
  end.

(** [saveAttempt] from the settled [attemptAPI.update] on. *)
Definition saveAttempt_settled (silent : bool) (k : AfterSave) (r : Response) : M unit :=
  match r with
  | RespError => console_error "Failed to save attempt:"
  | _ => t <- gets now ;; setSavedAt (Some t)
  end ;;
  when (negb silent) (setSaving false) ;;
  after_save k.

(** [handleCodeChange(value)] *)
Definition handleCodeChange (cl : State) (value : option string) : M unit :=
  let newCode := Js.str_or_empty value in
  setCode newCode ;;
  setRefs (with_currentCodeRef newCode) ;;
  t <- gets (fun w => saveTimeoutRef (refs w)) ;;
  match t with
  | Some id => clearTimeout id
  | None => skip
  end ;;
  initialized <- gets (fun w => codeInitializedRef (refs w)) ;;
  if (isAuthenticated cl && initialized)%bool then
    id <- setTimeout (CbDebounce newCode cl) DEBOUNCE_MS ;;
    setRefs (with_saveTimeoutRef (Some id))
  else skip.

(** [if (saveTimeoutRef.current) { clearTimeout(...); saveTimeoutRef.current = null }] *)
Definition cancel_debounce : M unit :=
  t <- gets (fun w => saveTimeoutRef (refs w)) ;;
  match t with
  | Some id => clearTimeout id ;; setRefs (with_saveTimeoutRef None)
  | None => skip
  end.

(** [handleRunCode] up to its first [await]. *)
Definition handleRunCode (cl : State) : M unit :=
  match selectedLanguage cl, problem cl with
  | Some _, Some _ =>
      cancel_debounce ;;
      initialized <- gets (fun w => codeInitializedRef (refs w)) ;;
      if (isAuthenticated cl && initialized)%bool
      then saveAttempt cl (code cl) true (ASRun cl)
      else after_save_request ModeRun cl
  | _, _ => console_error "Cannot run code: missing problem/language"
  end.

(** [handleSubmitCode] up to its first [await]. *)
Definition handleSubmitCode (cl : State) : M unit :=
  match selectedLanguage cl, problem cl with
  | Some _, Some _ =>
      if negb (isAuthenticated cl) then
        emit (EAlert "Please log in to submit your code")
      else
        cancel_debounce ;;
        initialized <- gets (fun w => codeInitializedRef (refs w)) ;;
        if initialized
        then saveAttempt cl (code cl) true (ASSubmit cl)
        else after_save_request ModeSubmit cl
  | _, _ => console_error "Cannot submit code: missing problem/language"
  end.

(** [code && code.trim()] as a condition. *)
Definition nonblank (s : string) : bool := Js.truthy (Js.trim s).

(** The three places that end a buffer resolution:
    [setCode(c); currentCodeRef.current = c]. *)
Definition load_code (c : string) : M unit :=
  setCode c ;;
  setRefs (with_currentCodeRef c).

(** [handleLanguageChange], steps 2 and 3 up to the next [await]. *)
Definition language_switch (cl : State) (newLanguage : ProgrammingLanguage) : M unit :=
  setSelectedLanguage (Some newLanguage) ;;
  if isAuthenticated cl
  then http (ReqAttemptGet (slug cl) (lang_id newLanguage))
            (KLangAttempt cl newLanguage)
  else http (ReqBoilerplate (slug cl) (lang_slug newLanguage))
            (KLangBoilerplateLast newLanguage).

(** [handleLanguageChange(languageId)] up to its first [await]. *)
Definition handleLanguageChange (cl : State) (languageId : Z) : M unit :=
  match find (fun l => Z.eqb (lang_id l) languageId) (languages cl) with
  | Some newLanguage =>
      if negb (Js.truthy (slug cl)) then skip
      else
        match selectedLanguage cl with
        | Some l =>
            if (isAuthenticated cl && nonblank (code cl))%bool
            then http (ReqAttemptUpdate (slug cl) (Some (code cl)) (Some (lang_id l)))
                      (KLangSave cl newLanguage)
            else language_switch cl newLanguage
        | None => language_switch cl newLanguage
        end
  | None => skip
  end.

(** The cleanup of the mount effect; [isAuthenticated] and [slug] are the
    effect's dependencies, the rest is read from the refs. *)
Definition unmount_cleanup (cl : State) : M unit :=
  cancel_debounce ;;
  codeToSave <- gets (fun w => currentCodeRef (refs w)) ;;
  currentProblem <- gets (fun w => currentProblemRef (refs w)) ;;
  initialized <- gets (fun w => codeInitializedRef (refs w)) ;;
  match currentProblem with
  | Some p =>
      if (isAuthenticated cl && initialized && Js.truthy codeToSave
          && Js.truthy (slug cl))%bool
      then http (ReqAttemptUpdate (slug cl) (Some codeToSave)
                   (Js.num_or_undefined (option_map lang_id (prob_language p))))
                KUnmountSave
      else skip
  | None => skip
  end.

(** [fetchData]: the end of every path through the inner [try]s. *)
Definition fetch_done : M unit :=
  setRefs (with_codeInitializedRef true) ;;
  setLoading false.

Definition fetch_boilerplate (cl : State) (initialLanguage : ProgrammingLanguage) : M unit :=
  http (ReqBoilerplate (slug cl) (lang_slug initialLanguage))
       (KFetchBoilerplate initialLanguage).

(** The mount effect up to the first [await] of [fetchData]. *)
Definition mount_effect (cl : State) : M unit :=
  setRefs (with_codeInitializedRef false) ;;
  setRefs (with_currentCodeRef "") ;;
  setRefs (with_currentProblemRef None) ;;
  http ReqLanguagesList (KFetchLanguages cl).

(** ** Resuming an async function when its awaited promise settles *)

Definition resume (k : Cont) (r : Response) : M unit :=
  match k with
  | KSaveAttempt silent k' => saveAttempt_settled silent k' r
  | KLangSave cl newLanguage =>
      match r with
      | RespError => console_error "Failed to save current code:"
      | _ => skip
      end ;;
      language_switch cl newLanguage
  | KLangAttempt cl newLanguage =>
      match r with
      | RespAttempt savedCode _ =>
          if nonblank savedCode then load_code savedCode
          else http (ReqBoilerplate (slug cl) (lang_slug newLanguage))
                    (KLangBoilerplateInTry cl newLanguage)
      | _ =>
          console_error "Failed to load saved code:" ;;
          http (ReqBoilerplate (slug cl) (lang_slug newLanguage))
               (KLangBoilerplateLast newLanguage)
      end
  | KLangBoilerplateInTry cl newLanguage =>
      match r with
      | RespBoilerplate newCode => load_code newCode
      | _ =>
          console_error "Failed to load saved code:" ;;
          http (ReqBoilerplate (slug cl) (lang_slug newLanguage))
               (KLangBoilerplateLast newLanguage)
      end
  | KLangBoilerplateLast newLanguage =>
      match r with
      | RespBoilerplate newCode => load_code newCode
      | _ =>
          console_error "Failed to fetch boilerplate:" ;;
          load_code (lang_boilerplate newLanguage)
      end
  | KUnmountSave =>
      match r with
      | RespError => console_error "attemptAPI.update rejected"
      | _ => skip
      end
  | KFetchLanguages cl =>
      match r with
      | RespLanguages data =>
          setLanguages data ;;
          http (ReqProblemGet (slug cl)) (KFetchProblem cl data)
      | _ =>
          console_error "Failed to fetch data:" ;;
          setLoading false
      end
  | KFetchProblem cl langs =>
      match r with
      | RespProblem problemData =>
          setProblem problemData ;;
          setRefs (with_currentProblemRef (Some problemData)) ;;
          let initialLanguage :=
            match prob_language problemData with
            | Some l => Some l
            | None => hd_error langs
            end in
          setSelectedLanguage initialLanguage ;;
          match initialLanguage with
          | Some il =>
              if isAuthenticated cl
              then http (ReqAttemptGet (slug cl) (lang_id il))
                        (KFetchAttempt cl problemData langs il)
              else fetch_boilerplate cl il
          | None =>
              when (isAuthenticated cl) (console_error "Failed to load attempt:") ;;
              fetch_done
          end
      | _ =>
          console_error "Failed to fetch data:" ;;
          setLoading false
      end
  | KFetchAttempt cl problemData langs initialLanguage =>
      match r with
      | RespAttempt attemptCode attemptLanguage =>
          let savedLang :=
            match prob_language problemData, Js.num_or_undefined attemptLanguage with
            | None, Some a => find (fun l => Z.eqb (lang_id l) a) langs
            | _, _ => None
            end in
          match savedLang with
          | Some l => setSelectedLanguage (Some l)
          | None => skip
          end ;;
          if nonblank attemptCode then
            load_code attemptCode ;;
            fetch_done
          else
            fetch_boilerplate cl
              (match savedLang with Some l => l | None => initialLanguage end)
      | _ =>
          console_error "Failed to load attempt:" ;;
          fetch_boilerplate cl initialLanguage
      end
  | KFetchBoilerplate initialLanguage =>
      match r with
      | RespBoilerplate initialCode => load_code initialCode
      | _ =>
          console_error "Failed to fetch boilerplate:" ;;
          load_code (lang_boilerplate initialLanguage)
      end ;;
      fetch_done
  end.

(** The callback of a timer that fires. *)
Definition run_callback (cb : TimerCb) : M unit :=
  match cb with
  | CbDebounce newCode cl => saveAttempt cl newCode false ASDetached
  | CbRunWait cl ws => after_wait ModeRun cl ws
  | CbSubmitWait cl ws => after_wait ModeSubmit cl ws
  end.

(** ** Timers and the passage of time *)

(** The timer that fires next: the least due time, and among equal due
    times the one registered first. *)
Fixpoint earliest (ts : list Timer) : option Timer :=
  match ts with
  | [] => None
  | t :: rest =>
      match earliest rest with
      | Some u => if (t_due u <? t_due t)%N then Some u else Some t
      | None => Some t
      end
  end.

Definition fire (tm : Timer) : M unit :=
  modify (fun w => with_now (N.max (now w) (t_due tm))
                     (with_timers (drop_timer (t_id tm) (timers w)) w)) ;;
  run_callback (t_cb tm).

(** Fire, in order, the timers due up to [target].  No callback of this
    component sets a timer, so the number of pending timers bounds the
    number of firings (lemma [fire_due_complete]). *)
Fixpoint fire_due (fuel : nat) (target : N) (w : World) : World :=
  match fuel with
  | O => w
  | S fuel' =>
      match earliest (timers w) with
      | Some tm =>
          if (t_due tm <=? target)%N
          then fire_due fuel' target (exec (fire tm) w)
          else w
      | None => w
      end
  end.

Definition advance (ms : N) (w : World) : World :=
  let target := (now w + ms)%N in
  with_now target (fire_due (List.length (timers w)) target w).

(** ** Events *)

Inductive Event :=
| EvCodeChange (value : option string)
| EvClickRun
| EvClickSubmit
| EvSelectLanguage (languageId : Z)
| EvUnmount
| EvHttp (rid : ReqId) (r : Response)
| EvAdvance (ms : N)
| EvWsOpen (c : ConnId)
| EvWsMessage (c : ConnId) (data : Payload)
| EvWsError (c : ConnId)
| EvWsClose (c : ConnId).

Definition is_some {A : Type} (o : option A) : bool :=
  match o with Some _ => true | None => false end.

(** What the component renders: the page proper only once [loading] is
    off and a problem is there. *)
Definition page_shown (w : World) : bool :=
  (mounted w && negb (loading (st w)) && is_some (problem (st w)))%bool.

(** The [disabled] attributes of the two buttons. *)
Definition run_disabled (s : State) : bool :=
  (executing s || submitting s || negb (is_some (selectedLanguage s)))%bool.

Definition submit_disabled (s : State) : bool :=
  (executing s || submitting s || negb (is_some (selectedLanguage s))
   || negb (isAuthenticated s))%bool.

(** The language [select] is rendered for problems without a locked
    language only. *)
Definition selector_shown (w : World) : bool :=
  (page_shown w &&
   match problem (st w) with
   | Some p => negb (is_some (prob_language p))
   | None => false
   end)%bool.

Definition find_pending (rid : ReqId) (ps : list PendingReq) : option PendingReq :=
  find (fun p => Pos.eqb (p_id p) rid) ps.

Definition drop_pending (rid : ReqId) (ps : list PendingReq) : list PendingReq :=
  filter (fun p => negb (Pos.eqb (p_id p) rid)) ps.

Definition set_conn_state (c : ConnId) (r : ReadyState) (cs : list Conn) : list Conn :=
  map (fun x => if Pos.eqb (conn_id x) c
                then {| conn_id := conn_id x; conn_url := conn_url x;
                        conn_state := r; conn_problem := conn_problem x |}
                else x) cs.

(** One event of the page's event loop.  A user event on a control that
    is disabled or not rendered does nothing; an environment event that
    refers to no pending request or to a socket in the wrong state cannot
    happen ([None]). *)
Definition step (ev : Event) (w : World) : option World :=
  match ev with
  | EvCodeChange value =>
      Some (if page_shown w then exec (handleCodeChange (st w) value) w else w)
  | EvClickRun =>
      Some (if (page_shown w && negb (run_disabled (st w)))%bool
            then exec (handleRunCode (st w)) w else w)
  | EvClickSubmit =>
      Some (if (page_shown w && negb (submit_disabled (st w)))%bool
            then exec (handleSubmitCode (st w)) w else w)
  | EvSelectLanguage languageId =>
      Some (if selector_shown w
            then exec (handleLanguageChange (st w) languageId) w else w)
  | EvUnmount =>
      if mounted w
      then Some (with_mounted false (exec (unmount_cleanup (st w)) w))
      else None
  | EvHttp rid r =>
      match find_pending rid (pending w) with
      | Some p =>
          if resp_matches (p_req p) r
          then Some (exec (resume (p_cont p) r)
                       (with_pending (drop_pending rid (pending w)) w))
          else None
      | None => None
      end
  | EvAdvance ms => Some (advance ms w)
  | EvWsOpen c =>
      match find_conn c (conns w) with
      | Some x =>
          match conn_state x with
          | CONNECTING =>
              Some (exec ws_onopen (with_conns (set_conn_state c OPEN (conns w)) w))
          | _ => None
          end
      | None => None
      end
  | EvWsMessage c data =>
      match find_conn c (conns w) with
      | Some x =>
          match conn_state x with
          | OPEN => Some (exec (ws_onmessage (conn_problem x) data) w)
          | _ => None
          end
      | None => None
      end
  | EvWsError c =>
      match find_conn c (conns w) with
      | Some x =>
          match conn_state x with
          | CLOSED => None
          | _ => Some (exec ws_onerror w)
          end
      | None => None
      end
  | EvWsClose c =>
      match find_conn c (conns w) with
      | Some x =>
          match conn_state x with
          | CLOSED => None
          | _ => Some (exec ws_onclose (with_conns (set_conn_state c CLOSED (conns w)) w))
          end
      | None => None
      end
  end.

Fixpoint run (evs : list Event) (w : World) : option World :=
  match evs with
  | [] => Some w
  | ev :: rest =>
      match step ev w with
      | Some w' => run rest w'
      | None => None
      end
  end.

(** ** Mounting *)

Definition initial_state (auth : bool) (sl : string) : State :=
  {| isAuthenticated := auth; slug := sl; problem := None; languages := [];
     selectedLanguage := None; code := ""; output := None; loading := true;
     executing := false; submitting := false; saving := false;
     savedAt := None; submissionStatus := None; submissionId := None;
     wsConnection := None; isConnected := false; memo_wsConnection := None |}.

Definition initial_refs : Refs :=
  {| saveTimeoutRef := None; codeInitializedRef := false;
     currentCodeRef := ""; currentProblemRef := None |}.

(** The world right after the first render and its effect. *)
Definition mount (auth : bool) (sl : string) (env token : option string)
    (accepts : string -> bool) : World :=
  exec (mount_effect (initial_state auth sl))
    {| st := initial_state auth sl; refs := initial_refs; mounted := true;
       envUrl := env; access_token := token; timers := []; pending := [];
       conns := []; log := []; now := 0%N;
       next_timer := 1%positive; next_req := 1%positive;
       next_conn := 1%positive; accepts_url := accepts |}.

(** ** Observations on a world *)

(** Session mode of the spec. *)
Inductive SessionMode := Idle | Running | Submitting.

Definition mode (s : State) : SessionMode :=
  if executing s then Running else if submitting s then Submitting else Idle.

(** Persistence calls ([attemptAPI.update]) issued so far, in order. *)
Fixpoint saves_of (l : list Effect) : list HttpRequest :=
  match l with
  | [] => []
  | EHttp _ (ReqAttemptUpdate s c g) :: rest => ReqAttemptUpdate s c g :: saves_of rest
  | _ :: rest => saves_of rest
  end.

Definition saves (w : World) : list HttpRequest := saves_of (log w).

(** Execution requests sent so far, in order. *)
Fixpoint sent_of (l : list Effect) : list (ConnId * ExecutionRequest) :=
  match l with
  | [] => []
  | EWsSend c rq :: rest => (c, rq) :: sent_of rest
  | _ :: rest => sent_of rest
  end.

Definition sent (w : World) : list (ConnId * ExecutionRequest) := sent_of (log w).

(** All HTTP calls issued so far, in order. *)
Fixpoint calls_of (l : list Effect) : list HttpRequest :=
  match l with
  | [] => []
  | EHttp _ rq :: rest => rq :: calls_of rest
  | _ :: rest => calls_of rest
  end.

Definition calls (w : World) : list HttpRequest := calls_of (log w).

(** Sockets that are connecting or open. *)
Definition live (c : Conn) : bool :=
  match conn_state c with CONNECTING | OPEN => true | _ => false end.

Definition live_conns (w : World) : list ConnId :=
  map conn_id (filter live (conns w)).

Definition is_debounce (t : Timer) : bool :=
  match t_cb t with CbDebounce _ _ => true | _ => false end.

(** Debounce timers that have not fired and were not cleared. *)
Definition pending_debounce (w : World) : list Timer :=
  filter is_debounce (timers w).

(** Worlds the page can be in: a mount followed by any events. *)
Inductive reachable : World -> Prop :=
| reach_mount : forall auth sl env token accepts,
    reachable (mount auth sl env token accepts)
| reach_step : forall w ev w', reachable w -> step ev w = Some w' -> reachable w'.

(** What the timer bookkeeping maintains: timer ids are fresh and
    distinct, and a pending debounce timer is the one [saveTimeoutRef]
    holds. *)
Record timers_ok (w : World) : Prop := {
  ids_fresh : forall t, In t (timers w) -> (t_id t < next_timer w)%positive;
  ids_nodup : NoDup (map t_id (timers w));
  debounce_ref : forall t, In t (timers w) -> is_debounce t = true ->
                           saveTimeoutRef (refs w) = Some (t_id t)
}.

(** ** The axios instance of services/api.ts *)

Module Api.

(** [localStorage] *)
Record Storage := {
  access_token : option string;
  refresh_token : option string
}.

(** What goes over the wire: a request of the [api] instance, with its
    [_retry] mark and the [Authorization] header the request
    interceptor put on it, or the token refresh posted with plain
    [axios]. *)
Inductive Wire :=
| WApi (rq : HttpRequest) (_retry : bool) (authorization : option string)
| WRefresh (refresh : string).

(** What the interceptor reads of the refresh response:
    [const { access } = response.data] throws when the data is [null];
    otherwise [access] is the field as [setItem] and the template
    literal render it (the text [undefined] when it is missing). *)
Inductive Data :=
| DataNull
| DataAccess (access : string).

(** The server's answer to one wire request: a response, or none. *)
Inductive Reply :=
| RResponse (status : Z) (data : Data)
| RNetworkError.

(** axios' default [validateStatus]: the promise is fulfilled for a
    status from 200 to 299 and rejected otherwise. *)
Definition validateStatus (status : Z) : bool :=
  ((200 <=? status) && (status <? 300))%Z.

Record Outcome := {
  fulfilled : bool;
  wire : list Wire;
  storage : Storage;
  redirected_to_login : bool
}.

(** The request interceptor: [Bearer] token from [localStorage]. *)
Definition authorization (s : Storage) : option string :=
  match Js.str_or_null (access_token s) with
  | Some t => Some ("Bearer " ++ t)
  | None => None
  end.

Definition next_reply (replies : list Reply) : Reply * list Reply :=
  match replies with
  | r :: rest => (r, rest)
  | [] => (RNetworkError, [])
  end.

(** [api(originalRequest)] for a request already marked [_retry], with
    the header the interceptor wrote itself, [Bearer ${access}] (the
    request interceptor writes the same text again when the stored token
    is not empty).  An error falls through to [Promise.reject(error)]. *)
Definition call_retried (rq : HttpRequest) (access : string) (s : Storage)
    (sent : list Wire) (replies : list Reply) : Outcome :=
  let header := Some ("Bearer " ++ access) in
  let sent' := (sent ++ [WApi rq true header])%list in
  match fst (next_reply replies) with
  | RResponse status _ =>
      {| fulfilled := validateStatus status; wire := sent'; storage := s;
         redirected_to_login := false |}
  | RNetworkError =>
      {| fulfilled := false; wire := sent'; storage := s;
         redirected_to_login := false |}
  end.

(** The [catch] of the refresh: both tokens removed, the browser sent to
    the login page, the promise rejected. *)
Definition refresh_failed (sent : list Wire) : Outcome :=
  {| fulfilled := false; wire := sent;
     storage := {| access_token := None; refresh_token := None |};
     redirected_to_login := true |}.

(** A call through the [api] instance and its response interceptor. *)
Definition call (rq : HttpRequest) (s : Storage) (replies : list Reply) : Outcome :=
  let sent := [WApi rq false (authorization s)] in
  let rejected := {| fulfilled := false; wire := sent; storage := s;
                     redirected_to_login := false |} in
  match next_reply replies with
  | (RResponse status _, rest) =>
      if validateStatus status then
        {| fulfilled := true; wire := sent; storage := s;
           redirected_to_login := false |}
      else if Z.eqb status 401 then
        match Js.str_or_null (refresh_token s) with
        | Some refreshToken =>
            let sent' := (sent ++ [WRefresh refreshToken])%list in
            match next_reply rest with
            | (RResponse status' data, rest') =>
                if validateStatus status' then
                  match data with
                  | DataAccess access =>
                      call_retried rq access
                        {| access_token := Some access;
                           refresh_token := refresh_token s |}
                        sent' rest'
                  | DataNull => refresh_failed sent'
                  end
                else refresh_failed sent'
            | (RNetworkError, _) => refresh_failed sent'
            end
        | None => rejected
        end
      else rejected
  | (RNetworkError, _) => rejected
  end.

(** How many times a request went over the wire. *)
Definition times_sent (rq_is : HttpRequest -> bool) (ws : list Wire) : nat :=
  List.length (filter (fun x => match x with
                                | WApi rq _ _ => rq_is rq
                                | WRefresh _ => false
                                end) ws).

End Api.

(** ** Predicates on segments *)

(** [m] keeps [P]. *)
Definition preserves (P : World -> Prop) {A : Type} (m : M A) : Prop :=
  forall w, P w -> P (snd (m w)).

(** [m] leaves the observation [v] as it is. *)
Definition frames {V A : Type} (v : World -> V) (m : M A) : Prop :=
  forall w, v (snd (m w)) = v w.

(** [m] raises the measure [phi] by at most [n]. *)
Definition bumps {A : Type} (phi : World -> nat) (n : nat) (m : M A) : Prop :=
  forall w, (phi (snd (m w)) <= phi w + n)%nat.

(** The timer bookkeeping. *)
Definition tview (w : World) : list Timer * TimerId * option TimerId :=
  (timers w, next_timer w, saveTimeoutRef (refs w)).

(** What the editor and the debounced save depend on. *)
Definition editing_view (w : World) :=
  (mounted w, loading (st w), isAuthenticated (st w), slug (st w),
   problem (st w), selectedLanguage (st w), codeInitializedRef (refs w)).

(** What the two budgets below depend on. *)
Definition budget_view (w : World) :=
  (saves w, sent w, timers w, pending w).

(** The four resets at the head of [after_save_request]. *)
Definition request_resets (m : Mode) : M unit :=
  setBusy m true ;; setOutput None ;; setSubmissionStatus None ;; setSubmissionId None.

(** ** Debounce: bursts of edits *)

(** A burst of [handleCodeChange] calls: each call of [calls] comes with
    the time that passes before the next call; [last] is the final call. *)
Fixpoint burst (calls : list (option string * N)) (last : option string) : list Event :=
  match calls with
  | [] => [EvCodeChange last]
  | (value, gap) :: rest => EvCodeChange value :: EvAdvance gap :: burst rest last
  end.

(** The page is shown to a logged-in user with initialized code, slug
    [s], problem [p] and selected language [l]. *)
Definition editing (s : string) (p : Problem) (l : ProgrammingLanguage) (w : World) : Prop :=
  editing_view w = (true, false, true, s, Some p, Some l, true).

(** One debounce timer is pending: it is due at [due] and will save [c]
    under [l]; the saves issued so far are [sv]. *)
Definition armed (s : string) (p : Problem) (l : ProgrammingLanguage)
    (c : string) (due : N) (sv : list HttpRequest) (w : World) : Prop :=
  editing s p l w /\ timers_ok w /\ saves w = sv /\
  exists T cl,
    pending_debounce w = [T] /\ t_due T = due /\ t_cb T = CbDebounce c cl /\
    isAuthenticated cl = true /\ problem cl = Some p /\ slug cl = s /\
    selectedLanguage cl = Some l.

(** No debounce timer is pending. *)
Definition disarmed (sv : list HttpRequest) (w : World) : Prop :=
  timers_ok w /\ saves w = sv /\ pending_debounce w = [].

Definition debounced_save (s c : string) (l : ProgrammingLanguage) : HttpRequest :=
  ReqAttemptUpdate s (Some c) (Some (lang_id l)).

(** ** Unmount *)

(** [shouldSave] of the cleanup, but for [slug]. *)
Definition unmount_should_save (w : World) : bool :=
  (isAuthenticated (st w) && codeInitializedRef (refs w)
   && Js.truthy (currentCodeRef (refs w))
   && is_some (currentProblemRef (refs w)))%bool.

(** The [language] field of the cleanup's call. *)
Definition unmount_language (p : Problem) : option Z :=
  Js.num_or_undefined (option_map lang_id (prob_language p)).

(** ** Budgets: what a user action may cause *)

(** User events that may lead to a persistence call. *)
Definition may_save (ev : Event) : bool :=
  match ev with
  | EvCodeChange _ | EvClickRun | EvClickSubmit | EvSelectLanguage _ | EvUnmount => true
  | _ => false
  end.

(** User events that ask for an execution. *)
Definition is_request_click (ev : Event) : bool :=
  match ev with
  | EvClickRun | EvClickSubmit => true
  | _ => false
  end.

Definition count_events (f : Event -> bool) (evs : list Event) : nat :=
  List.length (filter f evs).

Definition cost (f : Event -> bool) (ev : Event) : nat := if f ev then 1 else 0.

(** Continuations that go on to send an execution request. *)
Definition is_sender (k : Cont) : bool :=
  match k with
  | KSaveAttempt _ (ASRun _) | KSaveAttempt _ (ASSubmit _) => true
  | _ => false
  end.

Definition is_wait (t : Timer) : bool := negb (is_debounce t).

(** Persistence calls issued, plus those a pending debounce timer will
    issue. *)
Definition save_budget (w : World) : nat :=
  List.length (saves w) + List.length (pending_debounce w).

(** Execution requests sent, plus those that a pending run / submit may
    still send. *)
Definition send_budget (w : World) : nat :=
  List.length (sent w)
  + List.length (filter (fun p => is_sender (p_cont p)) (pending w))
  + List.length (filter is_wait (timers w)).

(** ** Sessions to run the page on *)

Definition python : ProgrammingLanguage :=
  {| lang_id := 1; lang_name := "Python"; lang_slug := "python";
     lang_boilerplate := "pass" |}.

Definition java : ProgrammingLanguage :=
  {| lang_id := 2; lang_name := "Java"; lang_slug := "java";
     lang_boilerplate := "class Solution {}" |}.

(** A problem open to every language. *)
Definition two_sum : Problem :=
  {| prob_id := 7; prob_slug := "two-sum"; prob_language := None |}.

(** The state [evs] lead to ([w] itself when they cannot happen). *)
Definition after (evs : list Event) (w : World) : World :=
  match run evs w with
  | Some w' => w'
  | None => w
  end.

(** A logged-in user opens two-sum: the languages, the problem and an
    empty attempt arrive, then the boilerplate of Python. *)
(** A browser that accepts the addresses of these sessions. *)
Definition lenient : string -> bool := fun _ => true.

Definition session_start : World := mount true "two-sum" None (Some "tok") lenient.

Definition load_events : list Event :=
  [EvHttp 1%positive (RespLanguages [python; java]);
   EvHttp 2%positive (RespProblem two_sum);
   EvHttp 3%positive (RespAttempt EmptyString None);
   EvHttp 4%positive (RespBoilerplate "def solve(): pass")].

Definition loaded : World := Eval vm_compute in after load_events session_start.

(** The user has clicked Run, the silent save has settled, and the new
    socket is still connecting. *)
Definition waiting : World :=
  Eval vm_compute in after [EvClickRun; EvHttp 5%positive RespUpdated] loaded.

(** A problem locked to Python, with a saved attempt. *)
Definition fizz : Problem :=
  {| prob_id := 9; prob_slug := "fizz"; prob_language := Some python |}.

Definition fizz_session : World :=
  Eval vm_compute in
    after [EvHttp 1%positive (RespLanguages [python; java]);
           EvHttp 2%positive (RespProblem fizz);
           EvHttp 3%positive (RespAttempt "print(1)" (Some 1%Z))]
      (mount true "fizz" None (Some "tok") lenient).

(** A problem locked to a language whose id is 0. *)
Definition plain : ProgrammingLanguage :=
  {| lang_id := 0; lang_name := "Plain"; lang_slug := "plain";
     lang_boilerplate := EmptyString |}.

Definition echo : Problem :=
  {| prob_id := 3; prob_slug := "echo"; prob_language := Some plain |}.

Definition echo_session : World :=
  Eval vm_compute in
    after [EvHttp 1%positive (RespLanguages [plain; python]);
           EvHttp 2%positive (RespProblem echo);
           EvHttp 3%positive (RespAttempt "print" (Some 0%Z))]
      (mount true "echo" None (Some "tok") lenient).

(** The requests of the loaded session. *)
Definition run_request : ExecutionRequest :=
  {| rq_language := "python"; rq_version := "*"; rq_code := "def solve(): pass";
     rq_problem_slug := "two-sum"; rq_mode := ModeRun |}.

Definition submit_request : ExecutionRequest :=
  {| rq_language := "python"; rq_version := "*"; rq_code := "def solve(): pass";
     rq_problem_slug := "two-sum"; rq_mode := ModeSubmit |}.

(** The language list arrives empty for a problem open to every
    language: [initialLanguage] is null, reading its [id] throws inside
    the inner [try], and the load ends with no language selected. *)
Definition no_language : World :=
  Eval vm_compute in
    after [EvHttp 1%positive (RespLanguages []); EvHttp 2%positive (RespProblem two_sum)]
      session_start.

(** Continuations of a language switch: its save, and the calls that
    resolve the buffer of the new language. *)
Definition is_switch (k : Cont) : bool :=
  match k with
  | KLangSave _ _ | KLangAttempt _ _ | KLangBoilerplateInTry _ _
  | KLangBoilerplateLast _ => true
  | _ => false
  end.

(** The language switches that are under way. *)
Definition switching (w : World) : list PendingReq :=
  filter (fun q => is_switch (p_cont q)) (pending w).

(** ** Invariants and further observations *)

Local Open Scope list_scope.

(** The closures that are still to run: the render's own, and the
    snapshots held by awaited calls and by timers. *)
Definition after_save_closures (k : AfterSave) : list State :=
  match k with
  | ASDetached => []
  | ASRun cl | ASSubmit cl => [cl]
  end.

(** The snapshot an awaited call resumes with. *)
Definition cont_closures (k : Cont) : list State :=
  match k with
  | KSaveAttempt _ k' => after_save_closures k'
  | KLangSave cl _ | KLangAttempt cl _ | KLangBoilerplateInTry cl _ => [cl]
  | KFetchLanguages cl | KFetchProblem cl _ | KFetchAttempt cl _ _ _ => [cl]
  | KLangBoilerplateLast _ | KUnmountSave | KFetchBoilerplate _ => []
  end.

(** The snapshot a timer callback runs with. *)
Definition timer_closures (cb : TimerCb) : list State :=
  match cb with
  | CbDebounce _ cl | CbRunWait cl _ | CbSubmitWait cl _ => [cl]
  end.

(** All of them, the current render first. *)
Definition closures (w : World) : list State :=
  st w :: flat_map (fun p => cont_closures (p_cont p)) (pending w)
       ++ flat_map (fun t => timer_closures (t_cb t)) (timers w).

(** The problem a call of the page addresses. *)
Definition request_slug (rq : HttpRequest) : option string :=
  match rq with
  | ReqLanguagesList => None
  | ReqProblemGet s | ReqBoilerplate s _ | ReqAttemptGet s _ | ReqAttemptUpdate s _ _ => Some s
  end.

(** Calls that need no login. *)
Definition is_public (rq : HttpRequest) : bool :=
  match rq with
  | ReqLanguagesList | ReqProblemGet _ | ReqBoilerplate _ _ => true
  | _ => false
  end.

(** The page of user [a] (logged in or not) on the route of [sl]. *)
Record session_of (a : bool) (sl : string) (w : World) : Prop := {
  closures_same : Forall (fun cl => isAuthenticated cl = a /\ slug cl = sl) (closures w);
  calls_same : Forall (fun rq => request_slug rq = None \/ request_slug rq = Some sl) (calls w);
  visitor_calls : a = false -> Forall (fun rq => is_public rq = true) (calls w);
  visitor_sockets : a = false -> conns w = [] /\ sent w = []
}.

(** A visitor who is not logged in opens two-sum, clicks Run and waits
    for the connection. *)
Definition visitor : World :=
  Eval vm_compute in
    after [EvHttp 1%positive (RespLanguages [python; java]);
           EvHttp 2%positive (RespProblem two_sum);
           EvHttp 3%positive (RespBoilerplate "def solve(): pass");
           EvCodeChange (Some "print(1)");
           EvClickRun;
           EvAdvance 500]
      (mount false "two-sum" None None lenient).

(** [I] is kept by everything that can happen to the page: by each
    handler where its control is enabled, by the continuation of each
    awaited call, by each timer that fires, by the clock and by the
    socket's events. *)
Record event_closed (I : World -> Prop) : Prop := {
  closed_edit : forall w value,
    I w -> page_shown w = true -> I (exec (handleCodeChange (st w) value) w);
  closed_run : forall w,
    I w -> page_shown w = true -> run_disabled (st w) = false ->
    I (exec (handleRunCode (st w)) w);
  closed_submit : forall w,
    I w -> page_shown w = true -> submit_disabled (st w) = false ->
    I (exec (handleSubmitCode (st w)) w);
  closed_select : forall w languageId,
    I w -> selector_shown w = true -> I (exec (handleLanguageChange (st w) languageId) w);
  closed_unmount : forall w,
    I w -> mounted w = true -> I (with_mounted false (exec (unmount_cleanup (st w)) w));
  closed_http : forall w rid p r,
    I w -> find_pending rid (pending w) = Some p -> resp_matches (p_req p) r = true ->
    I (exec (resume (p_cont p) r) (with_pending (drop_pending rid (pending w)) w));
  closed_fire : forall w tm, I w -> In tm (timers w) -> I (exec (fire tm) w);
  closed_clock : forall w n, I w -> I (with_now n w);
  closed_open : forall w c x,
    I w -> find_conn c (conns w) = Some x -> conn_state x = CONNECTING ->
    I (exec ws_onopen (with_conns (set_conn_state c OPEN (conns w)) w));
  closed_message : forall w c x data,
    I w -> find_conn c (conns w) = Some x -> conn_state x = OPEN ->
    I (exec (ws_onmessage (conn_problem x) data) w);
  closed_error : forall w c x,
    I w -> find_conn c (conns w) = Some x -> conn_state x <> CLOSED ->
    I (exec ws_onerror w);
  closed_close : forall w c x,
    I w -> find_conn c (conns w) = Some x -> conn_state x <> CLOSED ->
    I (exec ws_onclose (with_conns (set_conn_state c CLOSED (conns w)) w))
}.

(** What [session_of] reads of a world. *)
Definition sview (w : World) :=
  (isAuthenticated (st w), slug (st w), pending w, timers w, calls w, conns w, sent w).

(** A closure of user [a] on the route of [sl]. *)
Definition same_as (a : bool) (sl : string) (cl : State) : Prop :=
  isAuthenticated cl = a /\ slug cl = sl.

(** Continuations of [fetchData], the initial load. *)
Definition is_fetch (k : Cont) : bool :=
  match k with
  | KFetchLanguages _ | KFetchProblem _ _ | KFetchAttempt _ _ _ _ | KFetchBoilerplate _ => true
  | _ => false
  end.

(** Those that run before [setProblem]. *)
Definition is_early (k : Cont) : bool :=
  match k with
  | KFetchLanguages _ | KFetchProblem _ _ => true
  | _ => false
  end.

(** The awaited calls of the initial load. *)
Definition fetching (w : World) : list PendingReq :=
  filter (fun p => is_fetch (p_cont p)) (pending w).

(** The initial load runs once, hides the page while it runs, and ends
    with initialized code. *)
Record load_ok (w : World) : Prop := {
  one_fetch : (List.length (fetching w) <= 1)%nat;
  fetch_hides : fetching w <> [] -> loading (st w) = true;
  early_unloaded :
    forall p, In p (fetching w) -> is_early (p_cont p) = true -> problem (st w) = None;
  shown_initialized :
    loading (st w) = false -> problem (st w) <> None -> codeInitializedRef (refs w) = true
}.

(** While the component is mounted, the refs that the unmount cleanup
    reads agree with the state that is rendered. *)
Definition refs_fresh (w : World) : Prop :=
  mounted w = true ->
  currentCodeRef (refs w) = code (st w) /\
  currentProblemRef (refs w) = problem (st w).

(** Awaited saves whose continuation goes on to the socket. *)
Definition senders (w : World) : list PendingReq :=
  filter (fun p => is_sender (p_cont p)) (pending w).

(** The [wsConnection] that the memoized [initializeWebSocket] closed
    over is the one of the render that followed [setProblem], and no
    socket exists by then. *)
Record memo_ok (w : World) : Prop := {
  memo_null : memo_wsConnection (st w) = None;
  no_socket_before_problem : problem (st w) = None -> wsConnection (st w) = None;
  senders_loaded : senders w <> [] -> problem (st w) <> None
}.

(** Socket ids are handed out in increasing order. *)
Definition conns_fresh (w : World) : Prop :=
  forall x, In x (conns w) -> (conn_id x < next_conn w)%positive.

(** What [load_ok] reads of a world. *)
Definition lview (w : World) :=
  (loading (st w), problem (st w), codeInitializedRef (refs w), fetching w).

(** What [refs_fresh] reads of a world. *)
Definition rview (w : World) :=
  (mounted w, code (st w), currentCodeRef (refs w), problem (st w),
   currentProblemRef (refs w)).

(** What [memo_ok] reads of a world. *)
Definition mview (w : World) :=
  (memo_wsConnection (st w), problem (st w), wsConnection (st w), senders w).

(** The page with its problem loaded. *)
Definition memo_loaded (w : World) : Prop := memo_ok w /\ problem (st w) <> None.

(** What [conns_fresh] reads of a world. *)
Definition cview (w : World) := (conns w, next_conn w).

(** Strings of white space only. *)
Fixpoint all_space (s : string) : bool :=
  match s with
  | EmptyString => true
  | String a t => (Js.is_space a && all_space t)%bool
  end.

(** Continuations that go on to set the selected language. *)
Definition is_watched (k : Cont) : bool :=
  match k with
  | KFetchAttempt _ _ _ _ | KLangSave _ _ => true
  | _ => false
  end.

(** The awaited calls that go on to set the selected language. *)
Definition watched (w : World) : list PendingReq :=
  filter (fun p => is_watched (p_cont p)) (pending w).

(** What such a continuation relies on, given the problem on screen:
    the attempt fetched by the initial load is the one of that problem,
    and a language switch is under way only for a problem open to every
    language. *)
Definition watch_ok (pb : option Problem) (k : Cont) : Prop :=
  match k with
  | KFetchAttempt _ pd _ _ => forall p, pb = Some p -> p = pd
  | KLangSave _ _ => exists p, pb = Some p /\ prob_language p = None
  | _ => True
  end.

(** A locked language is the selected one, and stays so. *)
Record lock_ok (w : World) : Prop := {
  locked_selected :
    forall p l, problem (st w) = Some p -> prob_language p = Some l ->
                selectedLanguage (st w) = Some l;
  watched_ok : Forall (fun q => watch_ok (problem (st w)) (p_cont q)) (watched w)
}.

(** The last guard of [initializeWebSocket], on the address it built. *)
Definition address_usable (url : string) : bool :=
  negb (negb (Js.truthy url) || String.eqb url "ws:///" || String.eqb url "wss:///").

(** What the tail of run / submit (of mode [m], in the render [cl]) has
    done to sockets and timers between [v] and [v'], for a callback that
    holds no socket.  A logged-in user with a problem and a usable
    address gets a new socket, still connecting, and the wait of
    [CONNECT_WAIT_MS] for it, unless the constructor throws on the
    address: then there is no socket and no wait.  Without login, problem
    or usable address there is no socket, and the wait is armed for none. *)
Definition connects (m : Mode) (cl : State) (v v' : World) : Prop :=
  let url := socket_address (envUrl v) (access_token v) in
  let wait ws := {| t_id := next_timer v; t_due := (now v + CONNECT_WAIT_MS)%N;
                    t_cb := wait_callback m cl ws |} in
  if (isAuthenticated cl && is_some (problem cl) && address_usable url)%bool
  then
    if accepts_url v url
    then conns v' = conns v ++ [{| conn_id := next_conn v; conn_url := url;
                                   conn_state := CONNECTING;
                                   conn_problem := problem cl |}] /\
         timers v' = timers v ++ [wait (Some (next_conn v))]
    else conns v' = conns v /\ timers v' = timers v
  else conns v' = conns v /\ timers v' = timers v ++ [wait None].

(** The busy flags and the output. *)
Definition flags (w : World) := (executing (st w), submitting (st w), output (st w)).

(** What [lock_ok] reads of a world. *)
Definition kview (w : World) :=
  (problem (st w), selectedLanguage (st w), watched w).

(** The sockets of [w], and possibly more after them. *)
Definition extends (cs : list Conn) (w : World) : Prop :=
  exists more, conns w = cs ++ more.

(** The [alert]s shown so far. *)
Fixpoint alerts_of (l : list Effect) : list string :=
  match l with
  | [] => []
  | EAlert text :: rest => text :: alerts_of rest
  | _ :: rest => alerts_of rest
  end.

Definition alerts (w : World) : list string := alerts_of (log w).

(** What a message leaves alone. *)
Definition quiet_view (w : World) :=
  (refs w, timers w, pending w, conns w, calls w, sent w,
   code (st w), selectedLanguage (st w), problem (st w)).

(** Pending connection waits. *)
Definition waits (w : World) : list Timer := filter is_wait (timers w).

(** A request is outstanding (the flags are [e] and [b], one of them
    set), but nothing is left that could complete it: no socket is
    connecting or open, no connection wait is pending and no awaited save
    will go on to the socket. *)
Record stranded (e b : bool) (w : World) : Prop := {
  stranded_flags : executing (st w) = e /\ submitting (st w) = b;
  stranded_busy : (e || b)%bool = true;
  stranded_sockets : live_conns w = [];
  stranded_waits : waits w = [];
  stranded_senders : senders w = []
}.

(** The run request of the loaded session has been sent on socket 1. *)
Definition running : World :=
  Eval vm_compute in after [EvWsOpen 1%positive; EvAdvance 500] waiting.

(** The socket has closed before a result arrived. *)
Definition cut_off : World :=
  Eval vm_compute in after [EvWsClose 1%positive] running.

(** An error message of the execution service. *)
Definition failure_message : Message :=
  {| msg_error := Some "Execution timed out"; msg_result := None; msg_mode := None;
     msg_status := None; msg_submission_id := None |}.

(** What [stranded] reads of a world. *)
Definition strand_view (w : World) :=
  (executing (st w), submitting (st w), conns w, waits w, senders w).

(** A browser's constructor on the address of a deployment whose
    [VITE_WS_URL] is [ws://a b]: the URL parser rejects the host, which
    has a space, so the constructor throws; the other addresses are
    taken as accepted. *)
Definition strict (url : string) : bool :=
  negb (String.eqb url "ws://a b/execute/?token=tok").

(** The loaded session of that deployment. *)
Definition misconfigured : World :=
  Eval vm_compute in
    after load_events (mount true "two-sum" (Some "ws://a b") (Some "tok") strict).

(** Run and Submit clicked one after the other, before either save has
    settled; the run's save settles 100 ms before the submit's, and no
    socket opens. *)
Definition overlap_events : list Event :=
  [EvClickRun; EvClickSubmit; EvHttp 5%positive RespUpdated; EvAdvance 100;
   EvHttp 6%positive RespUpdated; EvAdvance 400].

(** The save indicator, and the clock it is stamped with. *)
Definition indicator (w : World) := (saving (st w), savedAt (st w), now w).

(** The initial load has ended without a problem. *)
Definition not_found (w : World) : Prop :=
  problem (st w) = None /\ fetching w = [].

(** The parts of a world that the initial load works on. *)
Definition load_parts (w : World) :=
  (mounted w, st w, refs w, pending w, calls w, next_req w).

(** The language the initial load settles on. *)
Definition chosen_language (p : Problem) (langs : list ProgrammingLanguage)
    (il : ProgrammingLanguage) (a : option Z) : ProgrammingLanguage :=
  match prob_language p, Js.num_or_undefined a with
  | None, Some x =>
      match find (fun l => Z.eqb (lang_id l) x) langs with
      | Some l => l
      | None => il
      end
  | _, _ => il
  end.

(** The user of the loaded session has typed one change and the
    auto-save is still waiting. *)
Definition typing : World :=
  Eval vm_compute in after [EvCodeChange (Some "def solve(): return 1")] loaded.

(** * Properties *)

Local Open Scope list_scope.

(** * Reasoning about the synchronous segments *)

(** Unfold the monad and its primitive operations. *)
Ltac unfold_prims :=
  cbv [exec bind ret gets modify skip when setState setRefs emit
       console_log console_warn console_error setTimeout clearTimeout http
       newWebSocket ws_send
       setLanguages setSelectedLanguage setCode setOutput setLoading
       setExecuting setSubmitting setSaving setSavedAt setSubmissionStatus
       setSubmissionId setWsConnection setIsConnected setProblem setBusy
       load_code fetch_done fetch_boilerplate].

(** Case analysis on the innermost scrutinee, reusing what is known. *)
Ltac break_match :=
  repeat match goal with
         | H : ?x = _ |- context [match ?x with _ => _ end] => rewrite H; cbn
         | |- context [match ?x with _ => _ end] =>
             lazymatch x with
             | context [match _ with _ => _ end] => fail
             | _ => destruct x eqn:?; cbn
             end
         end.

Lemma exec_bind {A : Type} (m : M A) (f : A -> M unit) (w : World) :
  exec (bind m f) w = exec (f (fst (m w))) (snd (m w)).
Proof. reflexivity. Qed.

Section Preserves.

Variable P : World -> Prop.

Lemma preserves_ret {A : Type} (a : A) : preserves P (ret a).
Proof. intros w H; exact H. Qed.

Lemma preserves_gets {A : Type} (f : World -> A) : preserves P (gets f).
Proof. intros w H; exact H. Qed.

Lemma preserves_bind {A B : Type} (m : M A) (f : A -> M B) :
  preserves P m -> (forall a, preserves P (f a)) -> preserves P (bind m f).
Proof. intros Hm Hf w H. unfold bind. apply Hf, Hm, H. Qed.

Lemma preserves_when (b : bool) (m : M unit) :
  preserves P m -> preserves P (when b m).
Proof. intros Hm. destruct b; [exact Hm | apply preserves_ret]. Qed.

End Preserves.

Lemma frames_preserves {V A : Type} (v : World -> V) (m : M A) :
  frames v m <-> forall x, preserves (fun w => v w = x) m.
Proof.
  split.
  - intros H x w Hw. now rewrite H.
  - intros H w. now apply H.
Qed.

Lemma frames_ret {V A : Type} (v : World -> V) (a : A) : frames v (ret a).
Proof. intros w; reflexivity. Qed.

Lemma frames_gets {V A : Type} (v : World -> V) (f : World -> A) : frames v (gets f).
Proof. intros w; reflexivity. Qed.

Lemma frames_bind {V A B : Type} (v : World -> V) (m : M A) (f : A -> M B) :
  frames v m -> (forall a, frames v (f a)) -> frames v (bind m f).
Proof. intros Hm Hf w. unfold bind. now rewrite Hf, Hm. Qed.

Lemma frames_exec {V : Type} (v : World -> V) (m : M unit) (w : World) :
  frames v m -> v (exec m w) = v w.
Proof. intros H; apply H. Qed.

Create HintDb frames.

(** Split a segment along its binds and case distinctions and close the
    pieces with [leaf]. *)
Ltac split_segment leaf :=
  repeat lazymatch goal with
    | |- frames _ (bind _ _) => apply frames_bind; [ | intros ? ]
    | |- frames _ (ret _) => apply frames_ret
    | |- frames _ skip => apply frames_ret
    | |- frames _ (gets _) => apply frames_gets
    | |- frames _ (when ?b _) => destruct b; cbv [when]
    | |- frames _ (match ?x with _ => _ end) => destruct x
    | |- preserves _ (bind _ _) => apply preserves_bind; [ | intros ? ]
    | |- preserves _ (ret _) => apply preserves_ret
    | |- preserves _ skip => apply preserves_ret
    | |- preserves _ (gets _) => apply preserves_gets
    | |- preserves _ (when ?b _) => destruct b; cbv [when]
    | |- preserves _ (match ?x with _ => _ end) => destruct x
    | |- _ => leaf
    end.

(** A primitive operation frames an observation it does not touch. *)
Lemma saves_of_app a b : saves_of (a ++ b) = saves_of a ++ saves_of b.
Proof.
  induction a as [|e a IH]; [reflexivity|].
  destruct e as [| | rid rq | | | |]; cbn; try exact IH.
  destruct rq; cbn; try exact IH. now rewrite IH.
Qed.

Lemma sent_of_app a b : sent_of (a ++ b) = sent_of a ++ sent_of b.
Proof.
  induction a as [|e a IH]; [reflexivity|].
  destruct e; cbn; try exact IH. now rewrite IH.
Qed.

Lemma calls_of_app a b : calls_of (a ++ b) = calls_of a ++ calls_of b.
Proof.
  induction a as [|e a IH]; [reflexivity|].
  destruct e; cbn; try exact IH. now rewrite IH.
Qed.

Ltac simpl_log :=
  rewrite ?saves_of_app, ?sent_of_app, ?calls_of_app; cbn;
  rewrite ?app_nil_r.

Ltac frame_prim :=
  solve [ auto with frames
        | let w := fresh "w" in
          intros w; unfold_prims; cbv [budget_view saves sent calls]; cbn; break_match;
          first [ reflexivity | simpl_log; reflexivity ] ].

Ltac frames_tac := split_segment frame_prim.

(** ** Observations *)

Lemma send_request_tview m cl c : frames tview (send_request m cl c).
Proof. unfold send_request. frames_tac. Qed.
#[local] Hint Resolve send_request_tview : frames.

Lemma after_wait_tview m cl ws : frames tview (after_wait m cl ws).
Proof. unfold after_wait. frames_tac. Qed.
#[local] Hint Resolve after_wait_tview : frames.

Lemma send_request_saves m cl c : frames saves (send_request m cl c).
Proof. unfold send_request, saves. frames_tac. Qed.
#[local] Hint Resolve send_request_saves : frames.

Lemma after_wait_saves m cl ws : frames saves (after_wait m cl ws).
Proof. unfold after_wait. frames_tac. Qed.
#[local] Hint Resolve after_wait_saves : frames.

Lemma send_request_editing m cl c : frames editing_view (send_request m cl c).
Proof. unfold send_request. frames_tac. Qed.
#[local] Hint Resolve send_request_editing : frames.

Lemma after_wait_editing m cl ws : frames editing_view (after_wait m cl ws).
Proof. unfold after_wait. frames_tac. Qed.
#[local] Hint Resolve after_wait_editing : frames.

Lemma initializeWebSocket_tview cl : frames tview (initializeWebSocket cl).
Proof. unfold initializeWebSocket. frames_tac. Qed.
#[local] Hint Resolve initializeWebSocket_tview : frames.

Lemma initializeWebSocket_saves cl : frames saves (initializeWebSocket cl).
Proof. unfold initializeWebSocket. frames_tac. Qed.
#[local] Hint Resolve initializeWebSocket_saves : frames.

Lemma after_save_request_saves m cl : frames saves (after_save_request m cl).
Proof. unfold after_save_request. frames_tac. Qed.
#[local] Hint Resolve after_save_request_saves : frames.

Lemma after_save_saves k : frames saves (after_save k).
Proof. unfold after_save. frames_tac. Qed.
#[local] Hint Resolve after_save_saves : frames.

Lemma handleWebSocketMessage_saves p msg : frames saves (handleWebSocketMessage p msg).
Proof. unfold handleWebSocketMessage. frames_tac. Qed.

(** No continuation of an awaited HTTP call issues a persistence call. *)
Lemma resume_saves k r : frames saves (resume k r).
Proof. unfold resume, saveAttempt_settled, language_switch. frames_tac. Qed.

(** ** The timer bookkeeping is maintained *)

Lemma timers_ok_tview w w' : tview w' = tview w -> timers_ok w -> timers_ok w'.
Proof.
  unfold tview. intros E [H1 H2 H3].
  injection E as Et En Er.
  split; rewrite ?Et, ?En, ?Er; assumption.
Qed.

Lemma frames_timers_ok {A : Type} (m : M A) :
  frames tview m -> preserves timers_ok m.
Proof. intros F w H. eapply timers_ok_tview; [apply F | exact H]. Qed.

Lemma In_drop_timer t x ts : In x (drop_timer t ts) -> In x ts /\ t_id x <> t.
Proof.
  unfold drop_timer. rewrite filter_In. intros [H1 H2]. split; [exact H1|].
  intros E. rewrite E, Pos.eqb_refl in H2. discriminate H2.
Qed.

Lemma NoDup_drop_timer t ts :
  NoDup (map t_id ts) -> NoDup (map t_id (drop_timer t ts)).
Proof.
  induction ts as [|x ts IH]; cbn; [auto|].
  intros H. inversion H as [|? ? Hx Hts]; subst.
  destruct (Pos.eqb (t_id x) t); cbn; [auto|].
  constructor; [|auto].
  rewrite in_map_iff. intros [y [Ey Hy]].
  apply In_drop_timer in Hy. apply Hx. rewrite in_map_iff. exists y. tauto.
Qed.

Lemma clearTimeout_ok t : preserves timers_ok (clearTimeout t).
Proof.
  intros w [H1 H2 H3]. unfold_prims. cbn. split; cbn.
  - intros x Hx. apply In_drop_timer in Hx. apply H1, Hx.
  - now apply NoDup_drop_timer.
  - intros x Hx. apply In_drop_timer in Hx. apply H3, Hx.
Qed.

Lemma NoDup_fresh_timer ts n cb due :
  (forall t, In t ts -> (t_id t < n)%positive) ->
  NoDup (map t_id ts) ->
  NoDup (map t_id (ts ++ [{| t_id := n; t_due := due; t_cb := cb |}])).
Proof.
  intros Hf Hn. rewrite map_app. cbn.
  apply NoDup_app; [exact Hn | repeat constructor; intros [] | ].
  intros i Hi [<-|[]]. rewrite in_map_iff in Hi. destruct Hi as [t [Et Ht]].
  apply Hf in Ht. rewrite Et in Ht. lia.
Qed.

(** Arming a wait: a timer that is not a debounce timer. *)
Lemma setTimeout_wait_ok m cl ws d :
  preserves timers_ok (setTimeout (wait_callback m cl ws) d).
Proof.
  intros w [H1 H2 H3]. unfold_prims. cbn. split; cbn.
  - intros x Hx. rewrite in_app_iff in Hx. destruct Hx as [Hx|[<-|[]]].
    + apply H1 in Hx. lia.
    + cbn. lia.
  - now apply NoDup_fresh_timer.
  - intros x Hx Hd. rewrite in_app_iff in Hx. destruct Hx as [Hx|[<-|[]]].
    + now apply H3.
    + destruct m; discriminate Hd.
Qed.

Lemma cancel_debounce_ok : preserves timers_ok cancel_debounce.
Proof.
  intros w [H1 H2 H3]. unfold cancel_debounce. unfold_prims. cbn.
  destruct (saveTimeoutRef (refs w)) as [id|] eqn:E; cbn.
  - split; cbn.
    + intros x Hx. apply In_drop_timer in Hx. apply H1, Hx.
    + now apply NoDup_drop_timer.
    + intros x Hx Hd. apply In_drop_timer in Hx. destruct Hx as [Hx Hne].
      specialize (H3 x Hx Hd). congruence.
  - split; cbn; auto. rewrite E. exact H3.
Qed.

(** What [handleCodeChange] does to the timers. *)
Lemma handleCodeChange_tview cl value w :
  tview (exec (handleCodeChange cl value) w) =
  let ts := match saveTimeoutRef (refs w) with
            | Some id => drop_timer id (timers w)
            | None => timers w
            end in
  if (isAuthenticated cl && codeInitializedRef (refs w))%bool
  then (ts ++ [{| t_id := next_timer w; t_due := (now w + DEBOUNCE_MS)%N;
                  t_cb := CbDebounce (Js.str_or_empty value) cl |}],
        Pos.succ (next_timer w), Some (next_timer w))
  else (ts, next_timer w, saveTimeoutRef (refs w)).
Proof.
  unfold handleCodeChange, tview, drop_timer. unfold_prims. cbn.
  destruct (mounted w); cbn;
    destruct (saveTimeoutRef (refs w)) eqn:E; cbn;
    destruct (isAuthenticated cl && codeInitializedRef (refs w))%bool; cbn;
    rewrite ?E; reflexivity.
Qed.

Lemma handleCodeChange_ok cl value : preserves timers_ok (handleCodeChange cl value).
Proof.
  intros w [H1 H2 H3].
  pose proof (handleCodeChange_tview cl value w) as E.
  set (w' := exec (handleCodeChange cl value) w) in *. change (timers_ok w').
  unfold tview in E. cbv zeta in E.
  set (ts := match saveTimeoutRef (refs w) with
             | Some id => drop_timer id (timers w)
             | None => timers w
             end) in *.
  assert (Hts : forall x, In x ts -> In x (timers w) /\ is_debounce x = false).
  { intros x Hx. subst ts. destruct (saveTimeoutRef (refs w)) as [id|] eqn:Er.
    - apply In_drop_timer in Hx. destruct Hx as [Hx Hne]. split; [exact Hx|].
      destruct (is_debounce x) eqn:Hd; [|reflexivity].
      specialize (H3 x Hx Hd). congruence.
    - split; [exact Hx|]. destruct (is_debounce x) eqn:Hd; [|reflexivity].
      specialize (H3 x Hx Hd). discriminate. }
  assert (Hnd : NoDup (map t_id ts)).
  { subst ts. destruct (saveTimeoutRef (refs w)); [now apply NoDup_drop_timer|exact H2]. }
  destruct (isAuthenticated cl && codeInitializedRef (refs w))%bool;
    injection E as Et En Er; split; rewrite ?Et, ?En, ?Er.
  - intros x Hx. rewrite in_app_iff in Hx. destruct Hx as [Hx|[<-|[]]].
    + apply Hts in Hx. destruct Hx as [Hx _]. apply H1 in Hx. lia.
    + cbn. lia.
  - apply NoDup_fresh_timer; [|exact Hnd].
    intros x Hx. apply Hts in Hx. apply H1, Hx.
  - intros x Hx Hd. rewrite in_app_iff in Hx. destruct Hx as [Hx|[<-|[]]].
    + apply Hts in Hx. destruct Hx as [_ Hx]. congruence.
    + reflexivity.
  - intros x Hx. apply Hts in Hx. apply H1, Hx.
  - exact Hnd.
  - intros x Hx Hd. apply Hts in Hx. destruct Hx as [_ Hx]. congruence.
Qed.

Create HintDb tok.
#[local] Hint Resolve clearTimeout_ok setTimeout_wait_ok cancel_debounce_ok
  handleCodeChange_ok : tok.

(** Pieces that do not touch the timers keep the bookkeeping. *)
Ltac tok_prim :=
  solve [ auto with tok
        | apply frames_timers_ok; frame_prim ].

Ltac tok_tac := split_segment tok_prim.

Lemma after_save_request_ok m cl : preserves timers_ok (after_save_request m cl).
Proof. unfold after_save_request. tok_tac. Qed.
#[local] Hint Resolve after_save_request_ok : tok.

Lemma after_save_ok k : preserves timers_ok (after_save k).
Proof. unfold after_save. tok_tac. Qed.
#[local] Hint Resolve after_save_ok : tok.

Lemma saveAttempt_ok cl c silent k : preserves timers_ok (saveAttempt cl c silent k).
Proof. unfold saveAttempt. tok_tac. Qed.
#[local] Hint Resolve saveAttempt_ok : tok.

Lemma handleRunCode_ok cl : preserves timers_ok (handleRunCode cl).
Proof. unfold handleRunCode. tok_tac. Qed.

Lemma handleSubmitCode_ok cl : preserves timers_ok (handleSubmitCode cl).
Proof. unfold handleSubmitCode. tok_tac. Qed.

Lemma handleLanguageChange_tview cl languageId :
  frames tview (handleLanguageChange cl languageId).
Proof. unfold handleLanguageChange, language_switch. frames_tac. Qed.

Lemma unmount_cleanup_ok cl : preserves timers_ok (unmount_cleanup cl).
Proof. unfold unmount_cleanup. tok_tac. Qed.

Lemma resume_ok k r : preserves timers_ok (resume k r).
Proof. unfold resume, saveAttempt_settled, language_switch. tok_tac. Qed.

Lemma run_callback_ok cb : preserves timers_ok (run_callback cb).
Proof. unfold run_callback. tok_tac. Qed.

Lemma fire_ok tm : preserves timers_ok (fire tm).
Proof.
  unfold fire. apply preserves_bind; [|intros ?; apply run_callback_ok].
  intros w [H1 H2 H3]. unfold_prims. cbn. split; cbn.
  - intros x Hx. apply In_drop_timer in Hx. apply H1, Hx.
  - now apply NoDup_drop_timer.
  - intros x Hx. apply In_drop_timer in Hx. apply H3, Hx.
Qed.

(** ** The timer that fires next *)

Lemma earliest_In {ts t} : earliest ts = Some t -> In t ts.
Proof.
  revert t. induction ts as [|x ts IH]; cbn; [discriminate|].
  intros t. destruct (earliest ts) as [u|].
  - destruct (t_due u <? t_due x)%N; intros E; injection E as <-; auto.
  - intros E; injection E as <-; auto.
Qed.

Lemma earliest_None ts : earliest ts = None -> ts = [].
Proof.
  destruct ts as [|x ts]; [reflexivity|]. cbn.
  destruct (earliest ts) as [u|]; [|discriminate].
  destruct (t_due u <? t_due x)%N; discriminate.
Qed.

Lemma earliest_min {ts t} :
  earliest ts = Some t -> forall x, In x ts -> (t_due t <= t_due x)%N.
Proof.
  revert t. induction ts as [|y ts IH]; cbn; [discriminate|].
  intros t E x Hx. destruct (earliest ts) as [u|] eqn:Eu.
  - specialize (IH u eq_refl).
    destruct (t_due u <? t_due y)%N eqn:Hlt; injection E as <-.
    + apply N.ltb_lt in Hlt. destruct Hx as [<-|Hx]; [lia | now apply IH].
    + apply N.ltb_ge in Hlt. destruct Hx as [<-|Hx]; [lia|].
      specialize (IH x Hx). lia.
  - injection E as <-. apply earliest_None in Eu. subst ts.
    destruct Hx as [<-|[]]. lia.
Qed.

(** A property kept by every firing is kept by [fire_due]. *)
Lemma fire_due_ind (Q : World -> Prop) (target : N) :
  (forall w tm, Q w -> In tm (timers w) -> (t_due tm <= target)%N ->
                Q (exec (fire tm) w)) ->
  forall fuel w, Q w -> Q (fire_due fuel target w).
Proof.
  intros Hstep fuel. induction fuel as [|fuel IH]; intros w Hw; cbn; [exact Hw|].
  destruct (earliest (timers w)) as [tm|] eqn:E; [|exact Hw].
  destruct (t_due tm <=? target)%N eqn:Hd; [|exact Hw].
  apply IH, Hstep; [exact Hw | now apply earliest_In | now apply N.leb_le].
Qed.

Lemma advance_ok ms w : timers_ok w -> timers_ok (advance ms w).
Proof.
  intros H. unfold advance.
  match goal with
  | |- timers_ok (with_now _ ?v) => apply (@timers_ok_tview v); [reflexivity|]
  end.
  apply fire_due_ind; [|exact H].
  intros w' tm Hw' _ _. now apply fire_ok.
Qed.

Lemma step_ok ev w w' : step ev w = Some w' -> timers_ok w -> timers_ok w'.
Proof.
  intros Hs H. destruct ev; unfold step in Hs.
  - injection Hs as <-. destruct (page_shown w); [|exact H].
    now apply handleCodeChange_ok.
  - injection Hs as <-.
    destruct (page_shown w && negb (run_disabled (st w)))%bool; [|exact H].
    now apply handleRunCode_ok.
  - injection Hs as <-.
    destruct (page_shown w && negb (submit_disabled (st w)))%bool; [|exact H].
    now apply handleSubmitCode_ok.
  - injection Hs as <-. destruct (selector_shown w); [|exact H].
    apply frames_timers_ok; [apply handleLanguageChange_tview | exact H].
  - destruct (mounted w); [|discriminate]. injection Hs as <-.
    match goal with
    | |- timers_ok (with_mounted _ ?v) => apply (@timers_ok_tview v); [reflexivity|]
    end.
    now apply unmount_cleanup_ok.
  - destruct (find_pending rid (pending w)) as [p|]; [|discriminate].
    destruct (resp_matches (p_req p) r); [|discriminate]. injection Hs as <-.
    apply resume_ok. apply (@timers_ok_tview w); [reflexivity | exact H].
  - injection Hs as <-. now apply advance_ok.
  - destruct (find_conn c (conns w)) as [x|]; [|discriminate].
    destruct (conn_state x); try discriminate. injection Hs as <-.
    apply frames_timers_ok; [unfold ws_onopen; frames_tac|].
    apply (@timers_ok_tview w); [reflexivity | exact H].
  - destruct (find_conn c (conns w)) as [x|]; [|discriminate].
    destruct (conn_state x); try discriminate. injection Hs as <-.
    apply frames_timers_ok; [|exact H].
    unfold ws_onmessage, handleWebSocketMessage; frames_tac.
  - destruct (find_conn c (conns w)) as [x|]; [|discriminate].
    destruct (conn_state x); try discriminate; injection Hs as <-;
      (apply frames_timers_ok; [unfold ws_onerror; frames_tac | exact H]).
  - destruct (find_conn c (conns w)) as [x|]; [|discriminate].
    destruct (conn_state x); try discriminate; injection Hs as <-;
      (apply frames_timers_ok; [unfold ws_onclose; frames_tac|];
       apply (@timers_ok_tview w); [reflexivity | exact H]).
Qed.

Lemma mount_ok auth sl env token accepts : timers_ok (mount auth sl env token accepts).
Proof.
  split; cbn.
  - intros t [].
  - constructor.
  - intros t [].
Qed.

(** Every world the page can be in keeps the timer bookkeeping. *)
Lemma reachable_timers_ok w : reachable w -> timers_ok w.
Proof.
  induction 1 as [auth sl env token | w ev w' _ IH Hs].
  - apply mount_ok.
  - eapply step_ok; eassumption.
Qed.

Lemma run_reachable evs : forall w w', reachable w -> run evs w = Some w' -> reachable w'.
Proof.
  induction evs as [|ev evs IH]; cbn; intros w w' Hw Hr.
  - injection Hr as <-. exact Hw.
  - destruct (step ev w) as [w1|] eqn:E; [|discriminate].
    eapply IH; [|exact Hr]. eapply reach_step; eassumption.
Qed.

(** ** Debounce coalescing *)

Lemma editing_fields {s p l w} :
  editing s p l w ->
  mounted w = true /\ loading (st w) = false /\ isAuthenticated (st w) = true /\
  slug (st w) = s /\ problem (st w) = Some p /\ selectedLanguage (st w) = Some l /\
  codeInitializedRef (refs w) = true.
Proof. unfold editing, editing_view. intros E. injection E. intros. tauto. Qed.

Lemma editing_page_shown {s p l w} : editing s p l w -> page_shown w = true.
Proof.
  intros E. apply editing_fields in E. unfold page_shown.
  destruct E as (-> & -> & _ & _ & -> & _). reflexivity.
Qed.

Lemma handleCodeChange_editing cl value : frames editing_view (handleCodeChange cl value).
Proof. unfold handleCodeChange. frames_tac. Qed.

Lemma handleCodeChange_saves cl value : frames saves (handleCodeChange cl value).
Proof. unfold handleCodeChange. frames_tac. Qed.

Lemma handleCodeChange_now cl value : frames now (handleCodeChange cl value).
Proof. unfold handleCodeChange. frames_tac. Qed.

Lemma ref_dropped_no_debounce w :
  timers_ok w ->
  filter is_debounce
    (match saveTimeoutRef (refs w) with
     | Some id => drop_timer id (timers w)
     | None => timers w
     end) = [].
Proof.
  intros [_ _ H3].
  match goal with |- filter _ ?ts = [] => set (l := ts) end.
  assert (Hl : forall x, In x l -> is_debounce x = false).
  { intros x Hx. destruct (is_debounce x) eqn:Hd; [|reflexivity]. exfalso.
    subst l. destruct (saveTimeoutRef (refs w)) as [id|] eqn:Er.
    - apply In_drop_timer in Hx. destruct Hx as [Hx Hne].
      specialize (H3 x Hx Hd). congruence.
    - specialize (H3 x Hx Hd). discriminate. }
  clearbody l. induction l as [|x l IH]; [reflexivity|]. cbn.
  rewrite (Hl x (or_introl eq_refl)). apply IH. intros y Hy. apply Hl. now right.
Qed.

Lemma edit_arms {s p l w} value :
  editing s p l w -> timers_ok w ->
  armed s p l (Js.str_or_empty value) (now w + DEBOUNCE_MS) (saves w)
    (exec (handleCodeChange (st w) value) w) /\
  now (exec (handleCodeChange (st w) value) w) = now w.
Proof.
  intros He Hok. split; [|apply handleCodeChange_now].
  pose proof (editing_fields He) as (_ & _ & Ha & Hs & Hp & Hl & Hi).
  split; [|split; [|split]].
  - unfold editing. unfold exec. now rewrite handleCodeChange_editing.
  - now apply handleCodeChange_ok.
  - apply handleCodeChange_saves.
  - pose proof (handleCodeChange_tview (st w) value w) as E.
    rewrite Ha, Hi in E. cbn in E. unfold tview in E. injection E as Et _ _.
    eexists. exists (st w). unfold pending_debounce. rewrite Et.
    rewrite filter_app, ref_dropped_no_debounce by exact Hok. cbn.
    repeat split; assumption.
Qed.

Lemma same_id_same_timer ts a b :
  NoDup (map t_id ts) -> In a ts -> In b ts -> t_id a = t_id b -> a = b.
Proof.
  induction ts as [|x ts IH]; cbn; [intros _ []|].
  intros H Ha Hb E. inversion H as [|? ? Hx Hts]; subst.
  destruct Ha as [<-|Ha], Hb as [<-|Hb]; auto.
  - exfalso. apply Hx. rewrite E. now apply in_map.
  - exfalso. apply Hx. rewrite <- E. now apply in_map.
Qed.

Lemma filter_drop_other (f : Timer -> bool) id ts :
  (forall x, In x ts -> f x = true -> t_id x <> id) ->
  filter f (drop_timer id ts) = filter f ts.
Proof.
  induction ts as [|x ts IH]; intros H; [reflexivity|]. cbn.
  destruct (Pos.eqb (t_id x) id) eqn:E; cbn.
  - apply Pos.eqb_eq in E. destruct (f x) eqn:Hf.
    + exfalso. eapply H; [left; reflexivity | exact Hf | exact E].
    + apply IH. intros y Hy. apply H. now right.
  - destruct (f x); [f_equal|]; apply IH; intros y Hy; apply H; now right.
Qed.

Lemma length_drop_timer tm ts :
  In tm ts -> (List.length (drop_timer (t_id tm) ts) < List.length ts)%nat.
Proof.
  induction ts as [|x ts IH]; [intros []|]. intros [->|H]; cbn.
  - rewrite Pos.eqb_refl. cbn.
    pose proof (filter_length_le (fun y => negb (Pos.eqb (t_id y) (t_id tm))) ts).
    unfold drop_timer. lia.
  - specialize (IH H). unfold drop_timer in IH.
    destruct (Pos.eqb (t_id x) (t_id tm)); cbn; lia.
Qed.

Lemma In_pending_debounce w t :
  In t (timers w) -> is_debounce t = true -> In t (pending_debounce w).
Proof. intros H1 H2. unfold pending_debounce. now apply filter_In. Qed.

Lemma after_wait_now m cl ws : frames now (after_wait m cl ws).
Proof. unfold after_wait, send_request. frames_tac. Qed.

(** Firing a timer that is not a debounce timer. *)
Lemma fire_wait {tm} w :
  is_debounce tm = false ->
  tview (exec (fire tm) w) = (drop_timer (t_id tm) (timers w), next_timer w,
                              saveTimeoutRef (refs w)) /\
  saves (exec (fire tm) w) = saves w /\
  editing_view (exec (fire tm) w) = editing_view w.
Proof.
  intros Hd. unfold fire. rewrite exec_bind. unfold is_debounce in Hd.
  destruct (t_cb tm) as [c cl|cl ws|cl ws]; [discriminate| |]; unfold run_callback;
    rewrite (frames_exec _ _ _ (after_wait_tview _ _ _)),
            (frames_exec _ _ _ (after_wait_saves _ _ _)),
            (frames_exec _ _ _ (after_wait_editing _ _ _));
    repeat split.
Qed.

Lemma fire_wait_armed s p l c due sv tm w :
  armed s p l c due sv w -> In tm (timers w) -> is_debounce tm = false ->
  armed s p l c due sv (exec (fire tm) w).
Proof.
  intros (He & Hok & Hs & T & cl & HT & Hrest) Hin Hd.
  destruct (fire_wait w Hd) as (Et & Es & Ee).
  split; [|split; [|split]].
  - unfold editing. now rewrite Ee.
  - now apply fire_ok.
  - now rewrite Es.
  - exists T, cl. split; [|exact Hrest].
    unfold pending_debounce in *. unfold tview in Et. injection Et as Et _ _.
    rewrite Et, filter_drop_other; [exact HT|].
    intros x Hx Hxd E.
    assert (x = tm) by (eapply same_id_same_timer; [apply (ids_nodup _ Hok) | exact Hx | exact Hin | exact E]).
    subst x. congruence.
Qed.

Lemma fire_wait_disarmed sv tm w :
  disarmed sv w -> In tm (timers w) -> disarmed sv (exec (fire tm) w).
Proof.
  intros (Hok & Hs & Hp) Hin.
  assert (Hd : is_debounce tm = false).
  { destruct (is_debounce tm) eqn:Hd; [|reflexivity].
    pose proof (In_pending_debounce w tm Hin Hd) as H. rewrite Hp in H. destruct H. }
  destruct (fire_wait w Hd) as (Et & Es & _).
  split; [now apply fire_ok | split; [now rewrite Es|]].
  unfold pending_debounce in *. unfold tview in Et. injection Et as Et _ _.
  rewrite Et. unfold drop_timer.
  assert (H : forall x, In x (filter (fun x => negb (t_id x =? t_id tm)%positive) (timers w)) ->
                        is_debounce x = false).
  { intros x Hx. apply filter_In in Hx. destruct Hx as [Hx _].
    destruct (is_debounce x) eqn:Hxd; [|reflexivity].
    pose proof (In_pending_debounce w x Hx Hxd) as H. unfold pending_debounce in H.
    rewrite Hp in H. destruct H. }
  revert H. generalize (filter (fun x => negb (t_id x =? t_id tm)%positive) (timers w)).
  induction l as [|x l IH]; intros H; [reflexivity|]. cbn.
  rewrite (H x (or_introl eq_refl)). apply IH. intros y Hy. apply H. now right.
Qed.

Lemma truthy_nonempty {s} : s <> "" -> Js.truthy s = true.
Proof. destruct s; [congruence | reflexivity]. Qed.

Lemma filter_none {A : Type} (f : A -> bool) (xs : list A) :
  (forall x, In x xs -> f x = false) -> filter f xs = [].
Proof.
  induction xs as [|x xs IH]; intros H; [reflexivity|]. cbn.
  rewrite (H x (or_introl eq_refl)). apply IH. intros y Hy. apply H. now right.
Qed.

(** The debounce timer fires: one save, with the code of the edit that
    armed it. *)
Lemma fire_debounce s p l c due sv T w :
  s <> "" -> armed s p l c due sv w -> In T (pending_debounce w) ->
  disarmed (sv ++ [debounced_save s c l]) (exec (fire T) w).
Proof.
  intros Hs (He & Hok & Hsv & T' & cl & HT & _ & Hcb & Ha & Hp & Hsl & Hl) Hin.
  rewrite HT in Hin. destruct Hin as [<-|[]].
  assert (HTin : In T' (timers w)).
  { assert (H : In T' (pending_debounce w)) by (rewrite HT; now left).
    unfold pending_debounce in H. now apply filter_In in H. }
  split; [now apply fire_ok|].
  unfold fire. rewrite exec_bind. rewrite Hcb. unfold run_callback, saveAttempt.
  rewrite Hl, Ha, Hp, Hsl, (truthy_nonempty Hs). cbn [negb orb].
  unfold_prims. cbn. split.
  - unfold saves in *. cbn. destruct (mounted w); cbn; simpl_log; now rewrite Hsv.
  - unfold pending_debounce in *.
    assert (E : timers (if mounted w
                        then with_st (with_saving true (st w))
                               (with_now (N.max (now w) (t_due T'))
                                  (with_timers (drop_timer (t_id T') (timers w)) w))
                        else with_now (N.max (now w) (t_due T'))
                               (with_timers (drop_timer (t_id T') (timers w)) w))
                = drop_timer (t_id T') (timers w)) by (destruct (mounted w); reflexivity).
    unfold drop_timer in E |- *. rewrite E. apply filter_none.
    intros x Hx. apply (In_drop_timer (t_id T')) in Hx. destruct Hx as [Hx Hne].
    destruct (is_debounce x) eqn:Hd; [|reflexivity]. exfalso.
    assert (H : In x (filter is_debounce (timers w))) by now apply filter_In.
    rewrite HT in H. destruct H as [<-|[]]. now apply Hne.
Qed.

Lemma armed_not_due s p l c due sv w tm :
  armed s p l c due sv w -> In tm (timers w) -> t_due tm <> due ->
  is_debounce tm = false.
Proof.
  intros (_ & _ & _ & T & cl & HT & Hdue & _) Hin Hne.
  destruct (is_debounce tm) eqn:Hd; [|reflexivity]. exfalso.
  pose proof (In_pending_debounce w tm Hin Hd) as H. rewrite HT in H.
  destruct H as [<-|[]]. now apply Hne.
Qed.

(** Less than the debounce delay passes: the timer stays armed. *)
Lemma advance_short {s p l c due sv w} gap :
  armed s p l c due sv w -> (now w + gap < due)%N ->
  armed s p l c due sv (advance gap w).
Proof.
  intros Ha Hlt. unfold advance.
  assert (H : armed s p l c due sv (fire_due (List.length (timers w)) (now w + gap) w)).
  { apply fire_due_ind; [|exact Ha].
    intros w' tm Hw' Hin Hdue. apply fire_wait_armed; [exact Hw' | exact Hin |].
    eapply armed_not_due; [exact Hw' | exact Hin | lia]. }
  destruct H as (He & Hok & Hsv & Hex).
  split; [exact He | split; [|split; [exact Hsv | exact Hex]]].
  match goal with
  | |- timers_ok (with_now _ ?v) => apply (@timers_ok_tview v); [reflexivity | exact Hok]
  end.
Qed.

Lemma fire_due_disarmed sv target fuel w :
  disarmed sv w -> disarmed sv (fire_due fuel target w).
Proof.
  intros H. apply fire_due_ind; [|exact H].
  intros w' tm Hw' Hin _. now apply fire_wait_disarmed.
Qed.

Lemma fire_due_armed s p l c due sv target :
  s <> "" -> (due <= target)%N ->
  forall fuel w, armed s p l c due sv w -> (List.length (timers w) <= fuel)%nat ->
                 disarmed (sv ++ [debounced_save s c l]) (fire_due fuel target w).
Proof.
  intros Hs Hdue fuel. induction fuel as [|fuel IH]; intros w Ha Hlen.
  - exfalso. destruct Ha as (_ & _ & _ & T & cl & HT & _).
    assert (H : In T (pending_debounce w)) by (rewrite HT; now left).
    unfold pending_debounce in H. apply filter_In in H. destruct H as [H _].
    destruct (timers w); [destruct H | cbn in Hlen; lia].
  - cbn. pose proof Ha as (_ & _ & _ & T & cl & HT & HTdue & _).
    assert (HTp : In T (pending_debounce w)) by (rewrite HT; now left).
    assert (HTin : In T (timers w)).
    { unfold pending_debounce in HTp. now apply filter_In in HTp. }
    destruct (earliest (timers w)) as [tm|] eqn:E.
    2:{ apply earliest_None in E. rewrite E in HTin. destruct HTin. }
    pose proof (earliest_In E) as Hin.
    pose proof (earliest_min E T HTin) as Hmin.
    assert (Hle : (t_due tm <=? target)%N = true) by (apply N.leb_le; lia).
    rewrite Hle.
    destruct (is_debounce tm) eqn:Hd.
    + apply fire_due_disarmed. eapply fire_debounce; [exact Hs | exact Ha |].
      now apply In_pending_debounce.
    + apply IH; [now apply fire_wait_armed|].
      destruct (fire_wait w Hd) as (Et & _). unfold tview in Et.
      injection Et as Et _ _. rewrite Et.
      pose proof (length_drop_timer tm (timers w) Hin). lia.
Qed.

(** The debounce delay has passed: exactly the armed save went out. *)
Lemma advance_long s p l c due sv w wait :
  s <> "" -> armed s p l c due sv w -> (due <= now w + wait)%N ->
  saves (advance wait w) = sv ++ [debounced_save s c l].
Proof.
  intros Hs Ha Hdue. unfold advance.
  pose proof (@fire_due_armed s p l c due sv (now w + wait)%N Hs Hdue
                (List.length (timers w)) w Ha (le_n _)) as (_ & H & _).
  exact H.
Qed.

Lemma burst_coalesces s p l last wait :
  s <> "" -> (DEBOUNCE_MS <= wait)%N ->
  forall calls, Forall (fun c => (snd c < DEBOUNCE_MS)%N) calls ->
  forall w, editing s p l w -> timers_ok w ->
  exists w', run (burst calls last ++ [EvAdvance wait]) w = Some w' /\
             saves w' = saves w ++ [debounced_save s (Js.str_or_empty last) l].
Proof.
  intros Hs Hwait calls. induction calls as [|[value gap] calls IH]; intros Hgaps w He Hok.
  - cbn. rewrite (editing_page_shown He).
    destruct (edit_arms last He Hok) as (Ha & Hnow).
    eexists. split; [reflexivity|].
    eapply advance_long; [exact Hs | exact Ha | lia].
  - inversion Hgaps as [|? ? Hgap Hrest]; subst. cbn in Hgap.
    cbn. rewrite (editing_page_shown He).
    destruct (edit_arms value He Hok) as (Ha & Hnow).
    assert (Ha' := advance_short gap Ha ltac:(lia)).
    destruct Ha' as (He' & Hok' & Hsv' & _).
    destruct (IH Hrest _ He' Hok') as (w' & Hrun & Hsaves).
    exists w'. split; [exact Hrun|]. now rewrite Hsaves, Hsv'.
Qed.

(** ** Run and submit *)

Lemma exec_seq (m k : M unit) (w : World) : exec (m ;; k) w = exec k (exec m w).
Proof. reflexivity. Qed.

Lemma ws_open_readyState w c : ws_open w (Some c) = true -> readyState w (Some c) = Some OPEN.
Proof.
  unfold ws_open. destruct (readyState w (Some c)) as [[]|]; cbn; congruence.
Qed.

Lemma initializeWebSocket_sent cl : frames sent (initializeWebSocket cl).
Proof. unfold initializeWebSocket. frames_tac. Qed.

Lemma initializeWebSocket_now cl : frames now (initializeWebSocket cl).
Proof. unfold initializeWebSocket. frames_tac. Qed.

Lemma initializeWebSocket_calls cl : frames calls (initializeWebSocket cl).
Proof. unfold initializeWebSocket. frames_tac. Qed.

Lemma request_resets_world m w :
  let w' := exec (request_resets m) w in
  timers w' = timers w /\ next_timer w' = next_timer w /\ now w' = now w /\
  log w' = log w /\ conns w' = conns w /\ refs w' = refs w /\ pending w' = pending w.
Proof.
  unfold request_resets. unfold_prims.
  destruct w as [? ? mtd ? ? ? ? ? ? ? ? ? ? ?]; destruct m, mtd; cbn; repeat split.
Qed.

(** What the end of the bounded wait does: it sends on a socket that is
    open by then; otherwise it reports the failure, clears the busy flag
    of its handler and sends nothing. *)
Lemma after_wait_sends m cl l p ws v :
  selectedLanguage cl = Some l -> problem cl = Some p ->
  let v' := exec (after_wait m cl ws) v in
  (exists c, ws = Some c /\ ws_open v ws = true /\
             sent v' = sent v ++ [(c, execution_request cl l p m)])
  \/
  (ws_open v ws = false /\ sent v' = sent v).
Proof.
  intros Hl Hp v'. subst v'. unfold after_wait. rewrite exec_bind. cbn [gets fst snd].
  destruct ws as [c|]; [destruct (ws_open v (Some c)) eqn:Hopen|].
  - left. exists c. repeat split. unfold send_request. rewrite Hl, Hp.
    unfold_prims. rewrite (ws_open_readyState _ _ Hopen). cbn.
    unfold sent. cbn. now simpl_log.
  - right. split; [reflexivity|]. cbv beta iota.
    apply (frames_exec sent). frames_tac.
  - right. split; [reflexivity|]. cbv beta iota.
    apply (frames_exec sent). frames_tac.
Qed.

Lemma after_wait_failure m cl l ws v :
  selectedLanguage cl = Some l -> mounted v = true -> ws_open v ws = false ->
  let v' := exec (after_wait m cl ws) v in
  output (st v') = Some (error_result (lang_slug l) connect_failure) /\
  match m with
  | ModeRun => executing (st v') = false /\ submitting (st v') = submitting (st v)
  | ModeSubmit => submitting (st v') = false /\ executing (st v') = executing (st v)
  end /\
  log v' = log v /\ pending v' = pending v /\ timers v' = timers v /\
  conns v' = conns v.
Proof.
  intros Hl Hm Hopen v'. subst v'. unfold after_wait. rewrite exec_bind. cbn [gets fst snd].
  rewrite Hopen, Hl.
  destruct v as [? ? mtd ? ? ? ? ? ? ? ? ? ? ?]. cbn in Hm. subst mtd.
  destruct ws, m; cbn; repeat split.
Qed.

Lemma cancel_debounce_world w :
  let w' := exec cancel_debounce w in
  st w' = st w /\ mounted w' = mounted w /\ pending w' = pending w /\
  conns w' = conns w /\ now w' = now w /\ next_req w' = next_req w /\
  calls w' = calls w /\ sent w' = sent w /\
  saveTimeoutRef (refs w') = None /\
  codeInitializedRef (refs w') = codeInitializedRef (refs w) /\
  currentCodeRef (refs w') = currentCodeRef (refs w) /\
  currentProblemRef (refs w') = currentProblemRef (refs w) /\
  timers w' = match saveTimeoutRef (refs w) with
              | Some id => drop_timer id (timers w)
              | None => timers w
              end.
Proof.
  unfold cancel_debounce, calls, sent. unfold_prims.
  destruct w as [? r ? ? ? ? ? ? ? ? ? ? ? ?]. destruct r as [[id|] ? ? ?]; cbn;
    simpl_log; repeat split.
Qed.

Lemma cancel_debounce_clears {w} :
  timers_ok w -> pending_debounce (exec cancel_debounce w) = [].
Proof.
  intros Hok. unfold pending_debounce.
  destruct (cancel_debounce_world w) as (_ & _ & _ & _ & _ & _ & _ & _ & _ & _ & _ & _ & ->).
  now apply ref_dropped_no_debounce.
Qed.

(** With a language, a problem, a slug and a logged-in user,
    [saveAttempt] issues the call. *)
Lemma saveAttempt_issues {cl l p} c silent k :
  selectedLanguage cl = Some l -> problem cl = Some p ->
  isAuthenticated cl = true -> slug cl <> "" ->
  saveAttempt cl c silent k =
  (when (negb silent) (setSaving true) ;;
   http (ReqAttemptUpdate (slug cl) (Some c) (Some (lang_id l))) (KSaveAttempt silent k)).
Proof.
  intros Hl Hp Ha Hs. unfold saveAttempt.
  now rewrite Hl, Hp, Ha, (truthy_nonempty Hs).
Qed.

Lemma http_world rq k w :
  let w' := exec (http rq k) w in
  st w' = st w /\ refs w' = refs w /\ mounted w' = mounted w /\
  timers w' = timers w /\ conns w' = conns w /\ now w' = now w /\
  calls w' = calls w ++ [rq] /\ sent w' = sent w /\
  pending w' = pending w ++ [{| p_id := next_req w; p_req := rq; p_cont := k |}].
Proof.
  unfold calls, sent. unfold_prims. cbn. simpl_log. repeat split.
Qed.

(** The click on Run, for a logged-in user with initialized code: the
    debounce is cancelled and the silent save of the code on screen goes
    out; nothing else happens until that save settles. *)
Lemma click_run_saves_first w l p :
  timers_ok w -> page_shown w = true -> run_disabled (st w) = false ->
  selectedLanguage (st w) = Some l -> problem (st w) = Some p ->
  isAuthenticated (st w) = true -> codeInitializedRef (refs w) = true ->
  slug (st w) <> "" ->
  exists w1,
    step EvClickRun w = Some w1 /\
    pending_debounce w1 = [] /\ saveTimeoutRef (refs w1) = None /\
    calls w1 = calls w ++
      [ReqAttemptUpdate (slug (st w)) (Some (code (st w))) (Some (lang_id l))] /\
    pending w1 = pending w ++
      [{| p_id := next_req w;
          p_req := ReqAttemptUpdate (slug (st w)) (Some (code (st w))) (Some (lang_id l));
          p_cont := KSaveAttempt true (ASRun (st w)) |}] /\
    st w1 = st w /\ sent w1 = sent w /\ conns w1 = conns w.
Proof.
  intros Hok Hps Hrd Hl Hp Ha Hi Hs.
  unfold step. rewrite Hps, Hrd. cbn [negb andb]. eexists; split; [reflexivity|].
  unfold handleRunCode. rewrite Hl, Hp, exec_seq.
  pose proof (cancel_debounce_clears Hok) as Hclear.
  destruct (cancel_debounce_world w)
    as (Est & _ & Epend & Econns & _ & Ereq & Ecalls & Esent & Eref & Einit & _ & _ & Etimers).
  set (w1 := exec cancel_debounce w) in *.
  rewrite exec_bind. cbn [gets fst snd]. rewrite Einit, Hi, Ha. cbn [andb].
  rewrite (saveAttempt_issues _ _ _ Hl Hp Ha Hs). cbn [negb when]. rewrite exec_seq.
  change (exec skip w1) with w1.
  match goal with |- context [exec (http ?rq ?k) w1] =>
    destruct (http_world rq k w1) as (Hst & Hrefs & _ & Ht & Hc & _ & Hcalls & Hsent & Hpend)
  end.
  unfold pending_debounce in *.
  rewrite Ht, Hrefs, Hcalls, Hpend, Hst, Hsent, Hc, Ecalls, Epend, Est, Esent, Econns, Ereq.
  repeat split; assumption.
Qed.

Lemma settle_world silent r w :
  let w' := exec (match r with
                  | RespError => console_error "Failed to save attempt:"
                  | _ => t <- gets now ;; setSavedAt (Some t)
                  end ;; when (negb silent) (setSaving false)) w in
  sent w' = sent w /\ timers w' = timers w /\ next_timer w' = next_timer w /\
  now w' = now w /\ conns w' = conns w.
Proof.
  unfold sent. unfold_prims.
  destruct w as [? ? mtd ? ? ? ? ? ? ? ? ? ? ?].
  destruct r, silent, mtd; cbn; simpl_log; repeat split.
Qed.

Lemma loaded_reachable : reachable loaded.
Proof.
  apply (run_reachable load_events session_start); [apply reach_mount|].
  vm_compute. reflexivity.
Qed.

(** Claim C4 fails when no language is selected.  The page is shown
    to a logged-in user and the code is initialized, but the language
    list came back empty: a burst of three edits followed by a pause
    fires the debounce timer, and [saveAttempt] returns at its guard
    without a call. *)
Lemma burst_without_language_saves_nothing :
  page_shown no_language = true /\ isAuthenticated (st no_language) = true /\
  codeInitializedRef (refs no_language) = true /\
  selectedLanguage (st no_language) = None /\
  exists w',
    run (burst [(Some "a", 300%N); (Some "ab", 1999%N)] (Some "abc") ++ [EvAdvance 2000])
      no_language = Some w' /\
    code (st w') = "abc" /\ timers w' = [] /\ saves w' = [].
Proof.
  repeat (split; [reflexivity|]).
  exists (after (burst [(Some "a", 300%N); (Some "ab", 1999%N)] (Some "abc")
                 ++ [EvAdvance 2000]) no_language).
  vm_compute. repeat split.
Qed.

(** Claim C4, amended.  In a session that shows the page,
    with a logged-in user, initialized code, a slug and a selected
    language: a burst of [handleCodeChange] calls, each followed by its
    successor after less than [DEBOUNCE_MS] (2000 ms), and then a pause
    of at least [DEBOUNCE_MS], issues exactly one persistence call, and
    that call carries the value of the last call of the burst (under the
    selected language's id). *)
Theorem debounce_coalescing :
  forall (w : World) (l : ProgrammingLanguage)
         (calls : list (option string * N)) (last : option string) (wait : N),
    reachable w ->
    page_shown w = true ->
    isAuthenticated (st w) = true ->
    codeInitializedRef (refs w) = true ->
    slug (st w) <> "" ->
    selectedLanguage (st w) = Some l ->
    Forall (fun c => (snd c < DEBOUNCE_MS)%N) calls ->
    (DEBOUNCE_MS <= wait)%N ->
    exists w',
      run (burst calls last ++ [EvAdvance wait]) w = Some w' /\
      saves w' = saves w ++
        [ReqAttemptUpdate (slug (st w)) (Some (Js.str_or_empty last)) (Some (lang_id l))].
Proof.
  intros w l calls last wait Hr Hps Ha Hi Hs Hl Hgaps Hwait.
  unfold page_shown in Hps.
  destruct (mounted w) eqn:Hm; [|discriminate].
  destruct (loading (st w)) eqn:Hld; [discriminate|].
  destruct (problem (st w)) as [p|] eqn:Hp; [|discriminate].
  apply (@burst_coalesces (slug (st w)) p l last wait Hs Hwait calls Hgaps w).
  - unfold editing, editing_view. now rewrite Hm, Hld, Ha, Hp, Hl, Hi.
  - now apply reachable_timers_ok.
Qed.

Lemma debounce_coalescing_witness :
  exists w',
    run (burst [(Some "a", 300%N); (Some "ab", 1999%N)] (Some "abc") ++ [EvAdvance 2000]) loaded
      = Some w' /\
    saves w' = saves loaded ++ [ReqAttemptUpdate "two-sum" (Some "abc") (Some 1%Z)].
Proof.
  apply (@debounce_coalescing loaded python
           [(Some "a", 300%N); (Some "ab", 1999%N)] (Some "abc") 2000%N).
  - exact loaded_reachable.
  - reflexivity.
  - reflexivity.
  - reflexivity.
  - discriminate.
  - reflexivity.
  - repeat constructor.
  - vm_compute. discriminate.
Defined.

Lemma send_request_calls m cl c : frames calls (send_request m cl c).
Proof. unfold send_request. frames_tac. Qed.

Lemma send_request_refs m cl c : frames refs (send_request m cl c).
Proof. unfold send_request. frames_tac. Qed.

Lemma initializeWebSocket_refs cl : frames refs (initializeWebSocket cl).
Proof. unfold initializeWebSocket. frames_tac. Qed.

Lemma after_save_request_calls m cl : frames calls (after_save_request m cl).
Proof.
  unfold after_save_request.
  split_segment ltac:(first [ apply initializeWebSocket_calls
                            | apply send_request_calls
                            | frame_prim ]).
Qed.

Lemma after_save_request_refs m cl : frames refs (after_save_request m cl).
Proof.
  unfold after_save_request.
  split_segment ltac:(first [ apply initializeWebSocket_refs
                            | apply send_request_refs
                            | frame_prim ]).
Qed.

(** ** Unmount *)

Lemma unmount_issues w :
  mounted w = true -> slug (st w) <> "" ->
  exists w',
    step EvUnmount w = Some w' /\
    saveTimeoutRef (refs w') = None /\
    timers w' = match saveTimeoutRef (refs w) with
                | Some id => drop_timer id (timers w)
                | None => timers w
                end /\
    match currentProblemRef (refs w) with
    | Some p =>
        if unmount_should_save w
        then let rq := ReqAttemptUpdate (slug (st w)) (Some (currentCodeRef (refs w)))
                         (unmount_language p) in
             calls w' = calls w ++ [rq] /\
             pending w' = pending w ++
               [{| p_id := next_req w; p_req := rq; p_cont := KUnmountSave |}]
        else calls w' = calls w /\ pending w' = pending w
    | None => calls w' = calls w /\ pending w' = pending w
    end.
Proof.
  intros Hm Hs. unfold step. rewrite Hm. eexists; split; [reflexivity|].
  unfold unmount_cleanup. rewrite exec_seq.
  destruct (cancel_debounce_world w)
    as (Est & _ & Epend & _ & _ & Ereq & Ecalls & _ & Eref & Einit & Ecode & Eprob & Etimers).
  set (w1 := exec cancel_debounce w) in *.
  rewrite !exec_bind. cbn [gets fst snd].
  rewrite Ecode, Eprob, Einit. unfold unmount_should_save.
  destruct (currentProblemRef (refs w)) as [p|] eqn:Hp; cbn [is_some].
  - rewrite (truthy_nonempty Hs), !andb_true_r.
    destruct (isAuthenticated (st w) && codeInitializedRef (refs w)
              && Js.truthy (currentCodeRef (refs w)))%bool.
    + match goal with |- context [exec (http ?rq ?k) w1] =>
        destruct (http_world rq k w1) as (_ & Hrefs & _ & Ht & _ & _ & Hcalls & _ & Hpend)
      end.
      cbn [refs timers calls pending with_mounted log].
      unfold calls in *. cbn [log with_mounted].
      rewrite Hrefs, Ht, Hcalls, Hpend, Ecalls, Epend, Ereq. repeat split; assumption.
    + unfold calls in *. cbn. repeat split; assumption.
  - unfold calls in *. cbn. repeat split; assumption.
Qed.

Lemma saveAttempt_call cl sel p c silent k v :
  selectedLanguage cl = Some sel -> problem cl = Some p ->
  isAuthenticated cl = true -> slug cl <> "" ->
  calls (exec (saveAttempt cl c silent k) v) =
  calls v ++ [ReqAttemptUpdate (slug cl) (Some c) (Some (lang_id sel))].
Proof.
  intros Hl Hp Ha Hs. rewrite (saveAttempt_issues c silent k Hl Hp Ha Hs).
  unfold calls. unfold_prims.
  destruct v as [? ? mtd ? ? ? ? ? ? ? ? ? ? ?]; destruct silent, mtd; cbn;
    simpl_log; reflexivity.
Qed.

(** The first step of a language switch that has something to save. *)
Lemma handleLanguageChange_saves_first {cl sel newLanguage} languageId v :
  find (fun x => Z.eqb (lang_id x) languageId) (languages cl) = Some newLanguage ->
  selectedLanguage cl = Some sel -> isAuthenticated cl = true ->
  nonblank (code cl) = true -> slug cl <> "" ->
  exec (handleLanguageChange cl languageId) v =
  exec (http (ReqAttemptUpdate (slug cl) (Some (code cl)) (Some (lang_id sel)))
             (KLangSave cl newLanguage)) v.
Proof.
  intros Hf Hl Ha Hn Hs. unfold handleLanguageChange.
  now rewrite Hf, Hl, Ha, Hn, (truthy_nonempty Hs).
Qed.

(** Claim C8 (final save on unmount).  Unmounting a page that has a
    slug cancels the pending debounce timer.  Exactly when the user is
    logged in, the code is initialized, [currentCodeRef] is not empty and
    a problem is loaded, it issues one call, the save of
    [currentCodeRef]; otherwise it issues none.  The call is
    fire-and-forget: when it is rejected the rejection is logged and
    nothing else changes, and when it is fulfilled nothing happens. *)
Theorem unmount_final_save :
  forall w : World,
    reachable w -> mounted w = true -> slug (st w) <> "" ->
    exists w',
      step EvUnmount w = Some w' /\
      pending_debounce w' = [] /\ saveTimeoutRef (refs w') = None /\
      (unmount_should_save w = true ->
         exists language,
           let rq := ReqAttemptUpdate (slug (st w))
                       (Some (currentCodeRef (refs w))) language in
           calls w' = calls w ++ [rq] /\
           pending w' = pending w ++
             [{| p_id := next_req w; p_req := rq; p_cont := KUnmountSave |}]) /\
      (unmount_should_save w = false ->
         calls w' = calls w /\ pending w' = pending w) /\
      (forall v : World,
         let v' := exec (resume KUnmountSave RespError) v in
         st v' = st v /\ refs v' = refs v /\ timers v' = timers v /\
         pending v' = pending v /\ conns v' = conns v /\
         exists text, log v' = log v ++ [EConsole LError text]) /\
      (forall v : World, exec (resume KUnmountSave RespUpdated) v = v).
Proof.
  intros w Hr Hm Hs.
  destruct (unmount_issues w Hm Hs) as (w' & Hstep & Href & Ht & Hcalls).
  exists w'. split; [exact Hstep|]. split.
  { unfold pending_debounce. rewrite Ht.
    apply ref_dropped_no_debounce, reachable_timers_ok, Hr. }
  split; [exact Href|]. split; [|split; [|split]].
  - intros Hsave. rewrite Hsave in Hcalls.
    destruct (currentProblemRef (refs w)) as [p|] eqn:Hp.
    + exists (unmount_language p). exact Hcalls.
    + unfold unmount_should_save in Hsave. rewrite Hp, andb_false_r in Hsave.
      discriminate Hsave.
  - intros Hsave. rewrite Hsave in Hcalls.
    destruct (currentProblemRef (refs w)); exact Hcalls.
  - intros v. cbn. repeat split. eexists; reflexivity.
  - intros v. reflexivity.
Qed.

Lemma unmount_final_save_witness :
  exists w',
    step EvUnmount loaded = Some w' /\
    calls w' = calls loaded ++
      [ReqAttemptUpdate "two-sum" (Some "def solve(): pass") None].
Proof.
  destruct (unmount_final_save loaded loaded_reachable eq_refl)
    as (w' & H1 & _ & _ & H4 & _); [discriminate|].
  exists w'. split; [exact H1|].
  destruct (H4 eq_refl) as (g & Hc & _).
  vm_compute in H1. injection H1 as <-. vm_compute. reflexivity.
Defined.

(** Claim C10 fails for a locked language whose id is 0.  The session
    shows a problem locked to such a language, which is therefore the
    selected one.  The cleanup reads [language?.id || undefined]: the id
    is falsy, so the call of the unmount carries no language although
    the problem is locked to one.  The sibling path does not have the
    slip: a click on Run in the same state saves the same code under
    the id 0. *)
Theorem unmount_drops_zero_language_id :
  prob_language echo = Some plain /\ lang_id plain = 0%Z /\
  currentProblemRef (refs echo_session) = Some echo /\
  selectedLanguage (st echo_session) = Some plain /\
  (exists w',
     step EvUnmount echo_session = Some w' /\
     calls w' = calls echo_session ++ [ReqAttemptUpdate "echo" (Some "print") None]) /\
  (exists w',
     step EvClickRun echo_session = Some w' /\
     calls w' = calls echo_session ++
       [ReqAttemptUpdate "echo" (Some "print") (Some 0%Z)]).
Proof.
  repeat (split; [reflexivity|]). split.
  - exists (after [EvUnmount] echo_session). vm_compute. repeat split.
  - exists (after [EvClickRun] echo_session). vm_compute. repeat split.
Qed.

(** The language of the cleanup's call, in general.  The call issued
    on unmount carries as language
    the id of the problem's locked language when that id is not 0, and no
    language when the problem has no locked language or the locked id is
    0.  It never depends on the selected language: with any other
    selection the same call is issued.  The other save paths,
    [saveAttempt] (debounce, run, submit) and the save of
    [handleLanguageChange], carry the id of the selected language of
    their closure. *)
Lemma unmount_language_sent :
  forall (w : World) (p : Problem),
    mounted w = true -> slug (st w) <> "" ->
    unmount_should_save w = true -> currentProblemRef (refs w) = Some p ->
    exists w',
      step EvUnmount w = Some w' /\
      calls w' = calls w ++
        [ReqAttemptUpdate (slug (st w)) (Some (currentCodeRef (refs w)))
           match prob_language p with
           | Some l => if Z.eqb (lang_id l) 0 then None else Some (lang_id l)
           | None => None
           end] /\
      (forall sel : option ProgrammingLanguage,
         exists w'',
           step EvUnmount (with_st (with_selectedLanguage sel (st w)) w) = Some w'' /\
           calls w'' = calls w') /\
      (forall (cl : State) (sel : ProgrammingLanguage) (p' : Problem)
              (c : string) (silent : bool) (k : AfterSave) (v : World),
         selectedLanguage cl = Some sel -> problem cl = Some p' ->
         isAuthenticated cl = true -> slug cl <> "" ->
         calls (exec (saveAttempt cl c silent k) v) =
         calls v ++ [ReqAttemptUpdate (slug cl) (Some c) (Some (lang_id sel))]) /\
      (forall (cl : State) (sel newLanguage : ProgrammingLanguage)
              (languageId : Z) (v : World),
         find (fun x => Z.eqb (lang_id x) languageId) (languages cl) = Some newLanguage ->
         selectedLanguage cl = Some sel -> isAuthenticated cl = true ->
         nonblank (code cl) = true -> slug cl <> "" ->
         calls (exec (handleLanguageChange cl languageId) v) =
         calls v ++ [ReqAttemptUpdate (slug cl) (Some (code cl)) (Some (lang_id sel))]).
Proof.
  intros w p Hm Hs Hsave Hp.
  assert (El : unmount_language p =
               match prob_language p with
               | Some l => if Z.eqb (lang_id l) 0 then None else Some (lang_id l)
               | None => None
               end).
  { unfold unmount_language, Js.num_or_undefined, Js.truthy_num.
    destruct (prob_language p) as [l|]; [|reflexivity]. cbn.
    destruct (Z.eqb (lang_id l) 0); reflexivity. }
  destruct (unmount_issues w Hm Hs) as (w' & Hstep & _ & _ & Hcalls).
  rewrite Hp, Hsave, El in Hcalls. destruct Hcalls as (Hcalls & _).
  exists w'. split; [exact Hstep|]. split; [exact Hcalls|]. split; [|split].
  - intros sel. set (ws := with_st (with_selectedLanguage sel (st w)) w).
    assert (Hm' : mounted ws = true) by exact Hm.
    assert (Hs' : slug (st ws) <> "") by exact Hs.
    destruct (unmount_issues ws Hm' Hs') as (w'' & Hstep' & _ & _ & Hcalls').
    change (currentProblemRef (refs ws)) with (currentProblemRef (refs w)) in Hcalls'.
    change (unmount_should_save ws) with (unmount_should_save w) in Hcalls'.
    rewrite Hp, Hsave, El in Hcalls'. destruct Hcalls' as (Hcalls' & _).
    exists w''. split; [exact Hstep'|]. rewrite Hcalls', Hcalls. reflexivity.
  - intros cl sel p' c silent k v. apply saveAttempt_call.
  - intros cl sel nl languageId v Hf Hl Ha Hn Hsl.
    rewrite (handleLanguageChange_saves_first languageId v Hf Hl Ha Hn Hsl).
    now destruct (http_world (ReqAttemptUpdate (slug cl) (Some (code cl)) (Some (lang_id sel)))
                    (KLangSave cl nl) v) as (_ & _ & _ & _ & _ & _ & -> & _).
Qed.

Lemma unmount_language_sent_fizz :
  exists w',
    step EvUnmount fizz_session = Some w' /\
    calls w' = calls fizz_session ++
      [ReqAttemptUpdate "fizz" (Some "print(1)") (Some 1%Z)].
Proof.
  destruct (unmount_language_sent fizz_session fizz eq_refl) as (w' & H1 & H2 & _);
    [discriminate | reflexivity | reflexivity |].
  exists w'. split; [exact H1 | exact H2].
Qed.

(** ** Language switch *)

Lemma load_code_world c v :
  mounted v = true ->
  let v' := exec (load_code c) v in
  code (st v') = c /\ currentCodeRef (refs v') = c /\ calls v' = calls v /\
  selectedLanguage (st v') = selectedLanguage (st v).
Proof.
  intros Hm. unfold calls. unfold_prims.
  destruct v as [? ? mtd ? ? ? ? ? ? ? ? ? ? ?]. cbn in Hm. subst mtd. cbn. repeat split.
Qed.


(** A language selected while an earlier switch is still loading its
    buffer: the selection is Java already, the editor still holds what
    was typed under Python, and that text is saved under Java's id. *)
Lemma switch_while_loading_saves_old_code :
  exists w1 w2,
    run [EvCodeChange (Some "X"); EvSelectLanguage 2; EvHttp 5%positive RespUpdated] loaded
      = Some w1 /\
    selectedLanguage (st w1) = Some java /\ code (st w1) = "X" /\
    map p_req (switching w1) = [ReqAttemptGet "two-sum" 2] /\
    step (EvSelectLanguage 1) w1 = Some w2 /\
    saves w2 = [ReqAttemptUpdate "two-sum" (Some "X") (Some 1%Z);
                ReqAttemptUpdate "two-sum" (Some "X") (Some 2%Z)].
Proof.
  exists (after [EvCodeChange (Some "X"); EvSelectLanguage 2; EvHttp 5%positive RespUpdated]
            loaded).
  exists (after [EvCodeChange (Some "X"); EvSelectLanguage 2; EvHttp 5%positive RespUpdated;
                 EvSelectLanguage 1] loaded).
  vm_compute. repeat split.
Qed.



Lemma bumps_bind0 {A B : Type} phi n (m : M A) (f : A -> M B) :
  bumps phi 0 m -> (forall a, bumps phi n (f a)) -> bumps phi n (bind m f).
Proof.
  intros Hm Hf w. unfold bind. specialize (Hm w). specialize (Hf (fst (m w)) (snd (m w))). lia.
Qed.

Lemma bumps_bind1 {A B : Type} phi n (m : M A) (f : A -> M B) :
  bumps phi n m -> (forall a, bumps phi 0 (f a)) -> bumps phi n (bind m f).
Proof.
  intros Hm Hf w. unfold bind. specialize (Hm w). specialize (Hf (fst (m w)) (snd (m w))). lia.
Qed.

Lemma bumps_weaken {A : Type} phi n (m : M A) : bumps phi 0 m -> bumps phi n m.
Proof. intros H w. specialize (H w). lia. Qed.

Lemma bumps_ret {A : Type} phi n (a : A) : bumps phi n (ret a).
Proof. intros w. cbn. lia. Qed.

Lemma bumps_gets {A : Type} phi n (f : World -> A) : bumps phi n (gets f).
Proof. intros w. cbn. lia. Qed.

Lemma save_budget_view w w' : budget_view w' = budget_view w -> save_budget w' = save_budget w.
Proof.
  unfold budget_view, save_budget, pending_debounce. intros E. injection E as E1 _ E3 _.
  now rewrite E1, E3.
Qed.

Lemma send_budget_view w w' : budget_view w' = budget_view w -> send_budget w' = send_budget w.
Proof.
  unfold budget_view, send_budget. intros E. injection E as _ E2 E3 E4.
  now rewrite E2, E3, E4.
Qed.

Lemma frames_bumps_save {A : Type} n (m : M A) : frames budget_view m -> bumps save_budget n m.
Proof. intros F w. rewrite (save_budget_view _ _ (F w)). lia. Qed.

Lemma frames_bumps_send {A : Type} n (m : M A) : frames budget_view m -> bumps send_budget n m.
Proof. intros F w. rewrite (send_budget_view _ _ (F w)). lia. Qed.

Lemma filter_drop_le (f : Timer -> bool) id ts :
  (List.length (filter f (drop_timer id ts)) <= List.length (filter f ts))%nat.
Proof.
  induction ts as [|x ts IH]; [cbn; lia|]. cbn.
  destruct (negb (Pos.eqb (t_id x) id)); cbn; destruct (f x); cbn; unfold drop_timer in IH; lia.
Qed.

Create HintDb bumps.

Lemma clearTimeout_save n t : bumps save_budget n (clearTimeout t).
Proof.
  intros w. unfold save_budget, pending_debounce, saves. unfold_prims. cbn. simpl_log.
  pose proof (filter_drop_le is_debounce t (timers w)). unfold drop_timer in *. lia.
Qed.

Lemma clearTimeout_send n t : bumps send_budget n (clearTimeout t).
Proof.
  intros w. unfold send_budget, sent. unfold_prims. cbn. simpl_log.
  pose proof (filter_drop_le is_wait t (timers w)). unfold drop_timer in *. lia.
Qed.

Lemma setTimeout_debounce_save c cl d : bumps save_budget 1 (setTimeout (CbDebounce c cl) d).
Proof.
  intros w. unfold save_budget, pending_debounce, saves. unfold_prims. cbn. simpl_log.
  rewrite filter_app, length_app. cbn. lia.
Qed.

Lemma setTimeout_debounce_send n c cl d : bumps send_budget n (setTimeout (CbDebounce c cl) d).
Proof.
  intros w. unfold send_budget, sent. unfold_prims. cbn. simpl_log.
  rewrite filter_app, length_app. cbn. lia.
Qed.

Lemma setTimeout_wait_save n m cl ws d : bumps save_budget n (setTimeout (wait_callback m cl ws) d).
Proof.
  intros w. unfold save_budget, pending_debounce, saves. unfold_prims. cbn. simpl_log.
  rewrite filter_app, length_app. destruct m; cbn; lia.
Qed.

Lemma setTimeout_wait_send m cl ws d : bumps send_budget 1 (setTimeout (wait_callback m cl ws) d).
Proof.
  intros w. unfold send_budget, sent. unfold_prims. cbn. simpl_log.
  rewrite filter_app, length_app. destruct m; cbn; lia.
Qed.

Lemma http_save rq k : bumps save_budget 1 (http rq k).
Proof.
  intros w. unfold save_budget, pending_debounce, saves. unfold_prims. cbn.
  rewrite saves_of_app, length_app. destruct rq; cbn; lia.
Qed.

Lemma http_other_save n rq k :
  match rq with ReqAttemptUpdate _ _ _ => False | _ => True end ->
  bumps save_budget n (http rq k).
Proof.
  intros H w. unfold save_budget, pending_debounce, saves. unfold_prims. cbn.
  rewrite saves_of_app, length_app. destruct rq; cbn; try lia; destruct H.
Qed.

Lemma http_send rq k : bumps send_budget 1 (http rq k).
Proof.
  intros w. unfold send_budget, sent. unfold_prims. cbn. simpl_log.
  rewrite filter_app, length_app. cbn. destruct (is_sender k); cbn; lia.
Qed.

Lemma http_other_send n rq k : is_sender k = false -> bumps send_budget n (http rq k).
Proof.
  intros H w. unfold send_budget, sent. unfold_prims. cbn. simpl_log.
  rewrite filter_app, length_app. cbn. rewrite H. cbn. lia.
Qed.

Lemma ws_send_save n c rq : bumps save_budget n (ws_send c rq).
Proof.
  intros w. unfold save_budget, pending_debounce, saves. unfold_prims.
  destruct (readyState w (Some c)) as [[]|]; cbn; simpl_log; lia.
Qed.

Lemma ws_send_send c rq : bumps send_budget 1 (ws_send c rq).
Proof.
  intros w. unfold send_budget, sent. unfold_prims.
  destruct (readyState w (Some c)) as [[]|]; cbn; rewrite ?sent_of_app, ?length_app; cbn; lia.
Qed.

#[local] Hint Resolve clearTimeout_save clearTimeout_send setTimeout_debounce_save
  setTimeout_debounce_send setTimeout_wait_save setTimeout_wait_send http_save
  http_send ws_send_save ws_send_send : bumps.
#[local] Hint Extern 1 (bumps save_budget _ (http _ _)) =>
  apply http_other_save; exact I : bumps.
#[local] Hint Extern 1 (bumps send_budget _ (http _ _)) =>
  apply http_other_send; reflexivity : bumps.

(** A piece that touches neither the log's calls and sends nor the
    timers nor the pending requests. *)
Ltac bump_leaf :=
  solve [ auto with bumps
        | apply bumps_weaken; auto with bumps
        | apply bumps_ret
        | apply frames_bumps_save; frame_prim
        | apply frames_bumps_send; frame_prim ].

Ltac bump_tac :=
  lazymatch goal with
  | |- bumps _ _ (bind _ _) =>
      first [ apply bumps_bind0; [solve [bump_tac] | intros ?; bump_tac]
            | apply bumps_bind1; [solve [bump_tac] | intros ?; solve [bump_tac]] ]
  | |- bumps _ _ (let _ := _ in _) => cbv zeta; bump_tac
  | |- bumps _ _ (ret _) => apply bumps_ret
  | |- bumps _ _ skip => apply bumps_ret
  | |- bumps _ _ (gets _) => apply bumps_gets
  | |- bumps _ _ (when ?b _) => destruct b; cbv [when]; bump_tac
  | |- bumps _ _ (match ?x with _ => _ end) => destruct x; bump_tac
  | |- _ => bump_leaf
  end.

Lemma cancel_debounce_save n : bumps save_budget n cancel_debounce.
Proof. unfold cancel_debounce. bump_tac. Qed.

Lemma cancel_debounce_send n : bumps send_budget n cancel_debounce.
Proof. unfold cancel_debounce. bump_tac. Qed.
#[local] Hint Resolve cancel_debounce_save cancel_debounce_send : bumps.

Lemma handleCodeChange_save cl value : bumps save_budget 1 (handleCodeChange cl value).
Proof. unfold handleCodeChange. bump_tac. Qed.

Lemma handleCodeChange_send cl value : bumps send_budget 0 (handleCodeChange cl value).
Proof. unfold handleCodeChange. bump_tac. Qed.

Lemma initializeWebSocket_budget cl : frames budget_view (initializeWebSocket cl).
Proof. unfold initializeWebSocket. frames_tac. Qed.
#[local] Hint Resolve initializeWebSocket_budget : frames.

Lemma send_request_save n m cl c : bumps save_budget n (send_request m cl c).
Proof. unfold send_request. bump_tac. Qed.

Lemma send_request_send m cl c : bumps send_budget 1 (send_request m cl c).
Proof. unfold send_request. bump_tac. Qed.
#[local] Hint Resolve send_request_save send_request_send : bumps.

Lemma after_wait_save n m cl ws : bumps save_budget n (after_wait m cl ws).
Proof. unfold after_wait. bump_tac. Qed.

Lemma after_wait_send m cl ws : bumps send_budget 1 (after_wait m cl ws).
Proof. unfold after_wait. bump_tac. Qed.
#[local] Hint Resolve after_wait_save after_wait_send : bumps.

Lemma after_save_request_save n m cl : bumps save_budget n (after_save_request m cl).
Proof. unfold after_save_request. bump_tac. Qed.

Lemma after_save_request_send m cl : bumps send_budget 1 (after_save_request m cl).
Proof. unfold after_save_request. bump_tac. Qed.
#[local] Hint Resolve after_save_request_save after_save_request_send : bumps.

Lemma after_save_save n k : bumps save_budget n (after_save k).
Proof. unfold after_save. bump_tac. Qed.

Lemma after_save_send k : bumps send_budget 1 (after_save k).
Proof. unfold after_save. bump_tac. Qed.

Lemma after_save_detached_send n : bumps send_budget n (after_save ASDetached).
Proof. unfold after_save. bump_tac. Qed.
#[local] Hint Resolve after_save_save after_save_send after_save_detached_send : bumps.

Lemma saveAttempt_save cl c silent k : bumps save_budget 1 (saveAttempt cl c silent k).
Proof. unfold saveAttempt. bump_tac. Qed.

Lemma saveAttempt_send cl c silent k : bumps send_budget 1 (saveAttempt cl c silent k).
Proof. unfold saveAttempt. bump_tac. Qed.

Lemma saveAttempt_detached_send n cl c silent :
  bumps send_budget n (saveAttempt cl c silent ASDetached).
Proof. unfold saveAttempt. bump_tac. Qed.
#[local] Hint Resolve saveAttempt_save saveAttempt_send saveAttempt_detached_send : bumps.

Lemma handleRunCode_save cl : bumps save_budget 1 (handleRunCode cl).
Proof. unfold handleRunCode. bump_tac. Qed.

Lemma handleRunCode_send cl : bumps send_budget 1 (handleRunCode cl).
Proof. unfold handleRunCode. bump_tac. Qed.

Lemma handleSubmitCode_save cl : bumps save_budget 1 (handleSubmitCode cl).
Proof. unfold handleSubmitCode. bump_tac. Qed.

Lemma handleSubmitCode_send cl : bumps send_budget 1 (handleSubmitCode cl).
Proof. unfold handleSubmitCode. bump_tac. Qed.

Lemma handleLanguageChange_save cl languageId :
  bumps save_budget 1 (handleLanguageChange cl languageId).
Proof. unfold handleLanguageChange, language_switch. bump_tac. Qed.

Lemma handleLanguageChange_send cl languageId :
  bumps send_budget 0 (handleLanguageChange cl languageId).
Proof. unfold handleLanguageChange, language_switch. bump_tac. Qed.

Lemma unmount_cleanup_save cl : bumps save_budget 1 (unmount_cleanup cl).
Proof. unfold unmount_cleanup. bump_tac. Qed.

Lemma unmount_cleanup_send cl : bumps send_budget 0 (unmount_cleanup cl).
Proof. unfold unmount_cleanup. bump_tac. Qed.

(** No continuation issues a persistence call; only the continuation of
    a run / submit save goes on to send, and then once. *)
Lemma resume_save k r : bumps save_budget 0 (resume k r).
Proof.
  unfold resume, saveAttempt_settled, language_switch, fetch_boilerplate, fetch_done.
  bump_tac.
Qed.

Lemma resume_send k r : bumps send_budget (if is_sender k then 1 else 0) (resume k r).
Proof.
  destruct k as [silent [| |]| | | | | | | | |]; cbn [is_sender];
    unfold resume, saveAttempt_settled, language_switch, fetch_boilerplate, fetch_done;
    bump_tac.
Qed.

Lemma run_callback_save cb :
  bumps save_budget (match cb with CbDebounce _ _ => 1 | _ => 0 end) (run_callback cb).
Proof. destruct cb; unfold run_callback; bump_tac. Qed.

Lemma run_callback_send cb :
  bumps send_budget (match cb with CbDebounce _ _ => 0 | _ => 1 end) (run_callback cb).
Proof. destruct cb; unfold run_callback; bump_tac. Qed.

Lemma filter_drop_timer_lt (f : Timer -> bool) tm ts :
  In tm ts -> f tm = true ->
  (List.length (filter f (drop_timer (t_id tm) ts)) + 1 <= List.length (filter f ts))%nat.
Proof.
  induction ts as [|x ts IH]; [intros []|]. intros [->|Hin] Hf; cbn.
  - rewrite Pos.eqb_refl, Hf. cbn.
    pose proof (filter_drop_le f (t_id tm) ts). unfold drop_timer in *. lia.
  - specialize (IH Hin Hf). unfold drop_timer in IH.
    destruct (negb (Pos.eqb (t_id x) (t_id tm))); cbn; destruct (f x); cbn; lia.
Qed.

Lemma filter_drop_pending_le (f : PendingReq -> bool) rid ps :
  (List.length (filter f (drop_pending rid ps)) <= List.length (filter f ps))%nat.
Proof.
  induction ps as [|x ps IH]; [cbn; lia|]. cbn. unfold drop_pending in IH.
  destruct (negb (Pos.eqb (p_id x) rid)); cbn; destruct (f x); cbn; lia.
Qed.

Lemma filter_drop_pending_lt (f : PendingReq -> bool) rid p ps :
  find_pending rid ps = Some p -> f p = true ->
  (List.length (filter f (drop_pending rid ps)) + 1 <= List.length (filter f ps))%nat.
Proof.
  unfold find_pending.
  induction ps as [|x ps IH]; [discriminate|]. cbn. intros Hfind Hf.
  destruct (Pos.eqb (p_id x) rid) eqn:E; cbn.
  - injection Hfind as ->. rewrite Hf. cbn.
    pose proof (filter_drop_pending_le f rid ps). unfold drop_pending in *. lia.
  - specialize (IH Hfind Hf). unfold drop_pending in IH. destruct (f x); cbn; lia.
Qed.

(** A timer fires: what it may still cause is used up. *)
Lemma fire_budget tm w :
  In tm (timers w) ->
  (save_budget (exec (fire tm) w) <= save_budget w)%nat /\
  (send_budget (exec (fire tm) w) <= send_budget w)%nat.
Proof.
  intros Hin. unfold fire. rewrite exec_bind.
  set (w0 := snd (modify (fun w => with_now (N.max (now w) (t_due tm))
                                     (with_timers (drop_timer (t_id tm) (timers w)) w)) w)).
  pose proof (run_callback_save (t_cb tm) w0) as Hs.
  pose proof (run_callback_send (t_cb tm) w0) as Hx.
  change (snd (run_callback (t_cb tm) w0)) with (exec (run_callback (t_cb tm)) w0) in Hs, Hx.
  assert (Es : save_budget w0 =
               (List.length (saves w) +
                List.length (filter is_debounce (drop_timer (t_id tm) (timers w))))%nat)
    by reflexivity.
  assert (Ex : send_budget w0 =
               (List.length (sent w)
                + List.length (filter (fun p => is_sender (p_cont p)) (pending w))
                + List.length (filter is_wait (drop_timer (t_id tm) (timers w))))%nat)
    by reflexivity.
  unfold save_budget, send_budget, pending_debounce in *.
  rewrite Es in Hs. rewrite Ex in Hx. clear Es Ex.
  pose proof (filter_drop_le is_debounce (t_id tm) (timers w)) as Ld.
  pose proof (filter_drop_le is_wait (t_id tm) (timers w)) as Lw.
  destruct (t_cb tm) as [c cl|cl ws|cl ws] eqn:Ecb.
  - assert (Hd : is_debounce tm = true) by (unfold is_debounce; now rewrite Ecb).
    pose proof (filter_drop_timer_lt is_debounce tm (timers w) Hin Hd). split; lia.
  - assert (Hd : is_wait tm = true) by (unfold is_wait, is_debounce; now rewrite Ecb).
    pose proof (filter_drop_timer_lt is_wait tm (timers w) Hin Hd). split; lia.
  - assert (Hd : is_wait tm = true) by (unfold is_wait, is_debounce; now rewrite Ecb).
    pose proof (filter_drop_timer_lt is_wait tm (timers w) Hin Hd). split; lia.
Qed.

Lemma advance_budget ms w :
  (save_budget (advance ms w) <= save_budget w)%nat /\
  (send_budget (advance ms w) <= send_budget w)%nat.
Proof.
  unfold advance.
  match goal with
  | |- (save_budget (with_now ?t ?v) <= _)%nat /\ _ =>
      change (save_budget (with_now t v)) with (save_budget v);
      change (send_budget (with_now t v)) with (send_budget v)
  end.
  apply (fire_due_ind
           (fun v => (save_budget v <= save_budget w)%nat /\
                     (send_budget v <= send_budget w)%nat)); [|split; lia].
  intros v tm (H1 & H2) Hin _. destruct (fire_budget tm v Hin). split; lia.
Qed.

Lemma step_budget ev w w' :
  step ev w = Some w' ->
  (save_budget w' <= save_budget w + cost may_save ev)%nat /\
  (send_budget w' <= send_budget w + cost is_request_click ev)%nat.
Proof.
  intros Hs. destruct ev; unfold step in Hs; unfold cost; cbn [may_save is_request_click].
  - injection Hs as <-. destruct (page_shown w); [|split; lia].
    pose proof (handleCodeChange_save (st w) value w).
    pose proof (handleCodeChange_send (st w) value w). unfold exec. split; lia.
  - injection Hs as <-.
    destruct (page_shown w && negb (run_disabled (st w)))%bool; [|split; lia].
    pose proof (handleRunCode_save (st w) w).
    pose proof (handleRunCode_send (st w) w). unfold exec. split; lia.
  - injection Hs as <-.
    destruct (page_shown w && negb (submit_disabled (st w)))%bool; [|split; lia].
    pose proof (handleSubmitCode_save (st w) w).
    pose proof (handleSubmitCode_send (st w) w). unfold exec. split; lia.
  - injection Hs as <-. destruct (selector_shown w); [|split; lia].
    pose proof (handleLanguageChange_save (st w) languageId w).
    pose proof (handleLanguageChange_send (st w) languageId w). unfold exec. split; lia.
  - destruct (mounted w); [|discriminate]. injection Hs as <-.
    pose proof (unmount_cleanup_save (st w) w).
    pose proof (unmount_cleanup_send (st w) w).
    match goal with
    | |- (save_budget (with_mounted ?b ?v) <= _)%nat /\ _ =>
        change (save_budget (with_mounted b v)) with (save_budget v);
        change (send_budget (with_mounted b v)) with (send_budget v)
    end.
    unfold exec. split; lia.
  - destruct (find_pending rid (pending w)) as [p|] eqn:Hf; [|discriminate].
    destruct (resp_matches (p_req p) r); [|discriminate]. injection Hs as <-.
    set (w0 := with_pending (drop_pending rid (pending w)) w).
    pose proof (resume_save (p_cont p) r w0) as H1.
    pose proof (resume_send (p_cont p) r w0) as H2.
    change (snd (resume (p_cont p) r w0)) with (exec (resume (p_cont p) r) w0) in H1, H2.
    assert (E1 : save_budget w0 = save_budget w) by reflexivity.
    assert (E2 : send_budget w0 =
                 (List.length (sent w)
                  + List.length (filter (fun p => is_sender (p_cont p))
                                   (drop_pending rid (pending w)))
                  + List.length (filter is_wait (timers w)))%nat) by reflexivity.
    rewrite E1 in H1. rewrite E2 in H2. split; [lia|].
    unfold send_budget at 2.
    pose proof (filter_drop_pending_le (fun p => is_sender (p_cont p)) rid (pending w)).
    destruct (is_sender (p_cont p)) eqn:Hk; [|lia].
    pose proof (filter_drop_pending_lt (fun p => is_sender (p_cont p)) rid p (pending w) Hf Hk).
    lia.
  - injection Hs as <-. destruct (advance_budget ms w). split; lia.
  - destruct (find_conn c (conns w)) as [x|]; [|discriminate].
    destruct (conn_state x); try discriminate. injection Hs as <-.
    set (w0 := with_conns _ w).
    assert (F : frames budget_view ws_onopen) by (unfold ws_onopen; frames_tac).
    unfold exec. rewrite (save_budget_view w0 _ (F w0)), (send_budget_view w0 _ (F w0)).
    change (save_budget w0) with (save_budget w).
    change (send_budget w0) with (send_budget w). split; lia.
  - destruct (find_conn c (conns w)) as [x|]; [|discriminate].
    destruct (conn_state x); try discriminate. injection Hs as <-.
    assert (F : frames budget_view (ws_onmessage (conn_problem x) data))
      by (unfold ws_onmessage, handleWebSocketMessage; frames_tac).
    unfold exec. rewrite (save_budget_view w _ (F w)), (send_budget_view w _ (F w)). split; lia.
  - destruct (find_conn c (conns w)) as [x|]; [|discriminate].
    assert (F : frames budget_view ws_onerror) by (unfold ws_onerror; frames_tac).
    destruct (conn_state x); try discriminate; injection Hs as <-;
      unfold exec; rewrite (save_budget_view w _ (F w)), (send_budget_view w _ (F w)); split; lia.
  - destruct (find_conn c (conns w)) as [x|]; [|discriminate].
    assert (F : frames budget_view ws_onclose) by (unfold ws_onclose; frames_tac).
    destruct (conn_state x); try discriminate; injection Hs as <-;
      set (w0 := with_conns _ w); unfold exec;
      rewrite (save_budget_view w0 _ (F w0)), (send_budget_view w0 _ (F w0));
      change (save_budget w0) with (save_budget w);
      change (send_budget w0) with (send_budget w); split; lia.
Qed.

Lemma run_budget evs :
  forall w w', run evs w = Some w' ->
    (save_budget w' <= save_budget w + count_events may_save evs)%nat /\
    (send_budget w' <= send_budget w + count_events is_request_click evs)%nat.
Proof.
  induction evs as [|ev evs IH]; intros w w' Hr; cbn in Hr.
  - injection Hr as <-. unfold count_events. cbn. split; lia.
  - destruct (step ev w) as [w1|] eqn:Hs; [|discriminate].
    destruct (step_budget ev w w1 Hs) as (H1 & H2).
    destruct (IH w1 w' Hr) as (H3 & H4).
    unfold count_events, cost in *. cbn [filter].
    destruct (may_save ev), (is_request_click ev); cbn [List.length]; split; lia.
Qed.

(** A click on a disabled button does nothing. *)
Lemma click_while_busy w :
  mode (st w) <> Idle ->
  step EvClickRun w = Some w /\ step EvClickSubmit w = Some w.
Proof.
  unfold mode, step, run_disabled, submit_disabled. intros H.
  destruct (executing (st w)); [|destruct (submitting (st w)); [|congruence]];
    cbn; rewrite ?andb_false_r; split; reflexivity.
Qed.

(** Claim C1 (single outstanding request), evaluated on a session.  In
    the loaded session the user clicks Run and, before the silent save
    that Run awaits has settled, clicks Submit.  After the first click
    the mode is still [Idle] and the Submit button is enabled, because
    [setExecuting(true)] runs only after the awaited save.  Both
    handlers go on: once both saves have settled and both sockets have
    opened, a run request and a submit request have been sent with no
    result in between, and [executing] and [submitting] are both set. *)
Theorem run_and_submit_overlap :
  exists w1 w2,
    step EvClickRun loaded = Some w1 /\
    mode (st w1) = Idle /\ submit_disabled (st w1) = false /\
    run [EvClickSubmit; EvHttp 5%positive RespUpdated; EvHttp 6%positive RespUpdated;
         EvWsOpen 1%positive; EvWsOpen 2%positive; EvAdvance 500] w1 = Some w2 /\
    sent w2 = [(1%positive, run_request); (2%positive, submit_request)] /\
    executing (st w2) = true /\ submitting (st w2) = true.
Proof.
  exists (after [EvClickRun] loaded).
  exists (after [EvClickRun; EvClickSubmit; EvHttp 5%positive RespUpdated;
                 EvHttp 6%positive RespUpdated; EvWsOpen 1%positive; EvWsOpen 2%positive;
                 EvAdvance 500] loaded).
  vm_compute. repeat split.
Qed.

(** Claim C2 (an immediate save first cancels the pending debounce),
    evaluated on a session.  The user types X and switches language
    100 ms later: the switch issues its immediate save of X under the
    outgoing language while the debounce timer armed by the edit is
    still pending and still held by [saveTimeoutRef]; once the delay has
    passed the timer fires and the same save is issued a second time. *)
Theorem language_switch_keeps_debounce :
  exists w1 w2,
    run [EvCodeChange (Some "X"); EvAdvance 100; EvSelectLanguage 2] loaded = Some w1 /\
    saves w1 = [ReqAttemptUpdate "two-sum" (Some "X") (Some 1%Z)] /\
    saveTimeoutRef (refs w1) = Some 1%positive /\
    map t_id (pending_debounce w1) = [1%positive] /\
    run [EvHttp 5%positive RespUpdated; EvAdvance 1900] w1 = Some w2 /\
    saves w2 = [ReqAttemptUpdate "two-sum" (Some "X") (Some 1%Z);
                ReqAttemptUpdate "two-sum" (Some "X") (Some 1%Z)].
Proof.
  exists (after [EvCodeChange (Some "X"); EvAdvance 100; EvSelectLanguage 2] loaded).
  exists (after [EvCodeChange (Some "X"); EvAdvance 100; EvSelectLanguage 2;
                 EvHttp 5%positive RespUpdated; EvAdvance 1900] loaded).
  vm_compute. repeat split.
Qed.

(** The language switch never touches the timers. *)
Lemma language_switch_never_cancels w languageId w' :
  step (EvSelectLanguage languageId) w = Some w' ->
  timers w' = timers w /\ saveTimeoutRef (refs w') = saveTimeoutRef (refs w).
Proof.
  unfold step. intros H. injection H as <-. destruct (selector_shown w); [|split; reflexivity].
  pose proof (handleLanguageChange_tview (st w) languageId w) as E.
  unfold tview in E. injection E as E1 _ E3. split; assumption.
Qed.

(** Claim C7 (one live connection), evaluated on a session.  A first
    run opens socket 1, which is still connecting when the 500 ms wait
    ends, so the run fails and the session is [Idle] again.  A second
    run then opens socket 2 while socket 1 is still connecting, and
    nothing closes socket 1: two sockets are live, and [wsConnection]
    has moved on to the second. *)
Theorem second_connection_while_connecting :
  exists w1 w2,
    run [EvClickRun; EvHttp 5%positive RespUpdated; EvAdvance 500] loaded = Some w1 /\
    map conn_state (conns w1) = [CONNECTING] /\
    wsConnection (st w1) = Some 1%positive /\ mode (st w1) = Idle /\
    run [EvClickRun; EvHttp 6%positive RespUpdated] w1 = Some w2 /\
    map conn_state (conns w2) = [CONNECTING; CONNECTING] /\
    live_conns w2 = [1%positive; 2%positive] /\
    wsConnection (st w2) = Some 2%positive.
Proof.
  exists (after [EvClickRun; EvHttp 5%positive RespUpdated; EvAdvance 500] loaded).
  exists (after [EvClickRun; EvHttp 5%positive RespUpdated; EvAdvance 500;
                 EvClickRun; EvHttp 6%positive RespUpdated] loaded).
  vm_compute. repeat split.
Qed.

(** The memoized [initializeWebSocket] never sees the socket it made:
    a second run opens a second socket next to the open one. *)
Lemma open_connection_not_reused :
  exists w1 w2,
    run [EvClickRun; EvHttp 5%positive RespUpdated; EvWsOpen 1%positive; EvAdvance 500;
         EvWsMessage 1%positive (PayloadValue {| msg_error := None;
                                msg_result := Some {| res_run := None; res_compile := None |};
                                msg_mode := None; msg_status := None;
                                msg_submission_id := None |})] loaded = Some w1 /\
    wsConnection (st w1) = Some 1%positive /\ ws_open w1 (Some 1%positive) = true /\
    memo_wsConnection (st w1) = None /\ mode (st w1) = Idle /\
    run [EvClickRun; EvHttp 6%positive RespUpdated] w1 = Some w2 /\
    live_conns w2 = [1%positive; 2%positive].
Proof.
  exists (after [EvClickRun; EvHttp 5%positive RespUpdated; EvWsOpen 1%positive;
                 EvAdvance 500;
                 EvWsMessage 1%positive
                   (PayloadValue {| msg_error := None;
                            msg_result := Some {| res_run := None; res_compile := None |};
                            msg_mode := None; msg_status := None;
                            msg_submission_id := None |})] loaded).
  exists (after [EvClickRun; EvHttp 5%positive RespUpdated; EvWsOpen 1%positive;
                 EvAdvance 500;
                 EvWsMessage 1%positive
                   (PayloadValue {| msg_error := None;
                            msg_result := Some {| res_run := None; res_compile := None |};
                            msg_mode := None; msg_status := None;
                            msg_submission_id := None |});
                 EvClickRun; EvHttp 6%positive RespUpdated] loaded).
  vm_compute. repeat split.
Qed.

(** [initializeWebSocket] hands back the socket its closure holds
    exactly when that socket is open, and then opens nothing. *)
Lemma initializeWebSocket_reuse cl v :
  ws_open v (memo_wsConnection cl) = true ->
  fst (initializeWebSocket cl v) = Returned (memo_wsConnection cl) /\
  conns (snd (initializeWebSocket cl v)) = conns v.
Proof.
  intros H. unfold initializeWebSocket, bind, gets. cbn [fst snd]. rewrite H.
  split; reflexivity.
Qed.

(** Claim C9 fails in the HTTP client: a persistence call answered
    with 401, with a refresh token in [localStorage] and a refresh that
    succeeds, is sent a second time by the response interceptor, without
    any user action. *)
Lemma save_resent_after_401 :
  let rq := ReqAttemptUpdate "two-sum" (Some "X") (Some 1%Z) in
  let o := Api.call rq {| Api.access_token := Some "old"; Api.refresh_token := Some "r" |}
             [Api.RResponse 401 Api.DataNull;
              Api.RResponse 200 (Api.DataAccess "new");
              Api.RResponse 200 Api.DataNull] in
  Api.wire o = [Api.WApi rq false (Some "Bearer old"); Api.WRefresh "r";
                Api.WApi rq true (Some "Bearer new")] /\
  Api.fulfilled o = true.
Proof. split; vm_compute; reflexivity. Qed.

(** After an empty saved attempt, a failed boilerplate fetch is made a
    second time by the fallback of the language switch. *)
Lemma boilerplate_fetched_again :
  exists w,
    run [EvSelectLanguage 2; EvHttp 5%positive RespUpdated; EvHttp 6%positive (RespAttempt "" None);
         EvHttp 7%positive RespError] loaded = Some w /\
    calls w = calls loaded ++
      [ReqAttemptUpdate "two-sum" (Some "def solve(): pass") (Some 1%Z);
       ReqAttemptGet "two-sum" 2;
       ReqBoilerplate "two-sum" "java"; ReqBoilerplate "two-sum" "java"].
Proof.
  exists (after [EvSelectLanguage 2; EvHttp 5%positive RespUpdated;
                 EvHttp 6%positive (RespAttempt "" None); EvHttp 7%positive RespError]
            loaded).
  vm_compute. repeat split.
Qed.

Lemma call_sends_at_most_twice rq s replies :
  (Api.times_sent (fun _ => true) (Api.wire (Api.call rq s replies)) <= 2)%nat.
Proof.
  unfold Api.call, Api.call_retried, Api.refresh_failed, Api.next_reply.
  destruct replies as [|[status d|] rest]; cbn; try lia.
  destruct (Api.validateStatus status); cbn; [lia|].
  destruct (Z.eqb status 401); cbn; [|lia].
  destruct (Js.str_or_null (Api.refresh_token s)); cbn; [|lia].
  destruct rest as [|[status' [|access]|] rest']; cbn; try lia;
    destruct (Api.validateStatus status'); cbn; try lia.
  destruct rest' as [|[] ?]; cbn; lia.
Qed.

(** The request goes out a second time exactly when the first answer is
    a 401, a refresh token is stored, and the refresh call is fulfilled
    with data to read the new token from. *)
Lemma call_resends_iff_refreshed rq s replies :
  Api.times_sent (fun _ => true) (Api.wire (Api.call rq s replies)) = 2%nat <->
  exists d t status access rest,
    replies = Api.RResponse 401 d :: Api.RResponse status (Api.DataAccess access) :: rest /\
    Js.str_or_null (Api.refresh_token s) = Some t /\
    Api.validateStatus status = true.
Proof.
  unfold Api.call, Api.call_retried, Api.refresh_failed, Api.next_reply. split.
  - destruct replies as [|[status d|] rest]; cbn; try discriminate.
    destruct (Api.validateStatus status) eqn:Ev; cbn; [discriminate|].
    destruct (Z.eqb_spec status 401) as [->|]; cbn; [|discriminate].
    destruct (Js.str_or_null (Api.refresh_token s)) as [t|]; cbn; [|discriminate].
    destruct rest as [|[status' [|access]|] rest']; cbn; try discriminate;
      destruct (Api.validateStatus status') eqn:Ev'; cbn; try discriminate.
    intros _. exists d, t, status', access, rest'. repeat split. exact Ev'.
  - intros (d & t & status & access & rest & -> & Ht & Hv). cbn.
    rewrite Ht, Hv. cbn. destruct rest as [|[] ?]; reflexivity.
Qed.

(** Claim C9, amended.  The page never re-issues a persistence call or
    an execution request by itself: in every run of the page the number
    of persistence calls is at most the number of user actions that may
    save (edit, run, submit, language switch, unmount), and the number
    of execution requests sent is at most the number of clicks on Run
    and Submit; no continuation of a settled HTTP call issues a
    persistence call; a failed connection wait and an incoming message
    send nothing.  The HTTP client sends a request at most twice, and
    twice exactly when the first answer is a 401, a refresh token is
    stored and the refresh call is fulfilled with data. *)
Theorem retries_are_user_initiated :
  (forall (auth : bool) (sl : string) (env token : option string)
          (accepts : string -> bool) (evs : list Event) (w : World),
     run evs (mount auth sl env token accepts) = Some w ->
     (List.length (saves w) <= count_events may_save evs)%nat /\
     (List.length (sent w) <= count_events is_request_click evs)%nat) /\
  (forall (k : Cont) (r : Response) (v : World),
     saves (exec (resume k r) v) = saves v) /\
  (forall (m : Mode) (cl : State) (ws : option ConnId) (v : World),
     ws_open v ws = false -> sent (exec (after_wait m cl ws) v) = sent v) /\
  (forall (p : option Problem) (data : Payload) (v : World),
     sent (exec (ws_onmessage p data) v) = sent v) /\
  (forall (rq : HttpRequest) (s : Api.Storage) (replies : list Api.Reply),
     let n := Api.times_sent (fun _ => true) (Api.wire (Api.call rq s replies)) in
     (n <= 2)%nat /\
     (n = 2%nat <->
      exists d t status access rest,
        replies = Api.RResponse 401 d
                  :: Api.RResponse status (Api.DataAccess access) :: rest /\
        Js.str_or_null (Api.refresh_token s) = Some t /\
        Api.validateStatus status = true)).
Proof.
  split; [|split; [|split; [|split]]].
  - intros auth sl env token accepts evs w Hr.
    destruct (run_budget evs _ _ Hr) as (H1 & H2).
    assert (E1 : save_budget (mount auth sl env token accepts) = 0%nat) by reflexivity.
    assert (E2 : send_budget (mount auth sl env token accepts) = 0%nat) by reflexivity.
    unfold save_budget, send_budget in H1, H2 |- *.
    unfold save_budget in E1. unfold send_budget in E2. split; lia.
  - intros k r v. apply resume_saves.
  - intros m cl ws v Hopen. unfold after_wait. rewrite exec_bind. cbn [gets fst snd].
    rewrite Hopen. destruct ws; apply (frames_exec sent); frames_tac.
  - intros p data v. apply (frames_exec sent).
    unfold ws_onmessage, handleWebSocketMessage. frames_tac.
  - intros rq s replies n. split.
    + apply call_sends_at_most_twice.
    + apply call_resends_iff_refreshed.
Qed.

(** * Further properties of the page and of the HTTP client *)

Ltac unfold_handlers :=
  unfold handleCodeChange, handleRunCode, handleSubmitCode, handleLanguageChange,
    unmount_cleanup, resume, run_callback, ws_onmessage, mount_effect,
    saveAttempt_settled, language_switch, saveAttempt, after_wait,
    fetch_boilerplate, fetch_done, after_save, after_save_request, send_request,
    initializeWebSocket, cancel_debounce, handleWebSocketMessage, load_code,
    ws_onopen, ws_onerror, ws_onclose.

Lemma step_closed (I : World -> Prop) :
  event_closed I -> forall ev w w', step ev w = Some w' -> I w -> I w'.
Proof.
  intros C ev w w' Hs H. destruct ev; unfold step in Hs.
  - injection Hs as <-. destruct (page_shown w) eqn:E; [|exact H].
    now apply (closed_edit I C).
  - injection Hs as <-. destruct (page_shown w) eqn:E; [|exact H].
    destruct (run_disabled (st w)) eqn:E'; [exact H|]. now apply (closed_run I C).
  - injection Hs as <-. destruct (page_shown w) eqn:E; [|exact H].
    destruct (submit_disabled (st w)) eqn:E'; [exact H|]. now apply (closed_submit I C).
  - injection Hs as <-. destruct (selector_shown w) eqn:E; [|exact H].
    now apply (closed_select I C).
  - destruct (mounted w) eqn:E; [|discriminate]. injection Hs as <-.
    now apply (closed_unmount I C).
  - destruct (find_pending rid (pending w)) as [p|] eqn:E; [|discriminate].
    destruct (resp_matches (p_req p) r) eqn:E'; [|discriminate]. injection Hs as <-.
    now apply (closed_http I C).
  - injection Hs as <-. unfold advance. apply (closed_clock I C).
    apply fire_due_ind; [|exact H]. intros v tm Hv Hin _. now apply (closed_fire I C).
  - destruct (find_conn c (conns w)) as [x|] eqn:E; [|discriminate].
    destruct (conn_state x) eqn:E'; try discriminate. injection Hs as <-.
    now apply (closed_open I C w c x).
  - destruct (find_conn c (conns w)) as [x|] eqn:E; [|discriminate].
    destruct (conn_state x) eqn:E'; try discriminate. injection Hs as <-.
    now apply (closed_message I C w c x).
  - destruct (find_conn c (conns w)) as [x|] eqn:E; [|discriminate].
    destruct (conn_state x) eqn:E'; try discriminate; injection Hs as <-;
      apply (closed_error I C w c x); congruence.
  - destruct (find_conn c (conns w)) as [x|] eqn:E; [|discriminate].
    destruct (conn_state x) eqn:E'; try discriminate; injection Hs as <-;
      apply (closed_close I C w c x); congruence.
Qed.

Lemma reachable_closed (I : World -> Prop) :
  event_closed I -> (forall auth sl env token accepts, I (mount auth sl env token accepts)) ->
  forall w, reachable w -> I w.
Proof.
  intros C Hm w. induction 1 as [auth sl env token | w ev w' _ IH Hs].
  - apply Hm.
  - eapply step_closed; eassumption.
Qed.

(** ** The session's user and route are fixed *)

Lemma closures_split a sl w :
  Forall (fun cl => isAuthenticated cl = a /\ slug cl = sl) (closures w) <->
  same_as a sl (st w) /\
  Forall (same_as a sl) (flat_map (fun p => cont_closures (p_cont p)) (pending w)) /\
  Forall (same_as a sl) (flat_map (fun t => timer_closures (t_cb t)) (timers w)).
Proof.
  unfold closures. split.
  - intros H. inversion H as [|? ? H1 H2]; subst. apply Forall_app in H2.
    destruct H2 as [H2 H3]. repeat split; try apply H1; assumption.
  - intros (H1 & H2 & H3). constructor; [exact H1|]. apply Forall_app. split; assumption.
Qed.

Lemma session_view a sl w w' : sview w' = sview w -> session_of a sl w -> session_of a sl w'.
Proof.
  unfold sview. intros E [H1 H2 H3 H4]. injection E as Ea Es Ep Et Ec Eo En.
  apply closures_split in H1. destruct H1 as ((Ha & Hs) & Hp & Ht).
  split.
  - apply closures_split. unfold same_as in *. rewrite Ea, Es, Ep, Et. tauto.
  - now rewrite Ec.
  - now rewrite Ec.
  - now rewrite Eo, En.
Qed.

Lemma frames_session a sl {A : Type} (m : M A) :
  frames sview m -> preserves (session_of a sl) m.
Proof. intros F w H. eapply session_view; [apply F | exact H]. Qed.

(** The pieces a segment is made of. *)
Ltac is_primitive m :=
  lazymatch m with
  | setState _ => idtac | setRefs _ => idtac | emit _ => idtac | modify _ => idtac
  | console_log _ => idtac | console_warn _ => idtac | console_error _ => idtac
  | setLanguages _ => idtac | setSelectedLanguage _ => idtac | setCode _ => idtac
  | setOutput _ => idtac | setLoading _ => idtac | setExecuting _ => idtac
  | setSubmitting _ => idtac | setSaving _ => idtac | setSavedAt _ => idtac
  | setSubmissionStatus _ => idtac | setSubmissionId _ => idtac
  | setWsConnection _ => idtac | setIsConnected _ => idtac | setProblem _ => idtac
  | setBusy _ _ => idtac
  | setTimeout _ _ => idtac | clearTimeout _ => idtac | http _ _ => idtac
  | newWebSocket _ _ => idtac | ws_send _ _ => idtac
  end.

(** A primitive leaves the observation as it is. *)
Ltac view_leaf :=
  lazymatch goal with
  | |- frames _ ?m => is_primitive m
  end;
  let w := fresh "w" in
  intros w; unfold_prims; cbn; break_match;
  first [ reflexivity | simpl_log; reflexivity ].

(** Walk a segment along its binds and case distinctions, with the
    conditions on closed-over values simplified, and close the primitives
    with [leaf]. *)
Ltac walk leaf :=
  repeat (cbv zeta; cbn [andb orb negb];
    lazymatch goal with
    | |- frames _ (bind _ _) => apply frames_bind; [ | intros ? ]
    | |- frames _ (ret _) => apply frames_ret
    | |- frames _ skip => apply frames_ret
    | |- frames _ (gets _) => apply frames_gets
    | |- frames _ (when ?b _) => destruct b; cbv [when]
    | |- frames _ (match ?x with _ => _ end) => destruct x
    | |- preserves _ (bind _ _) => apply preserves_bind; [ | intros ? ]
    | |- preserves _ (ret _) => apply preserves_ret
    | |- preserves _ skip => apply preserves_ret
    | |- preserves _ (gets _) => apply preserves_gets
    | |- preserves _ (when ?b _) => destruct b; cbv [when]
    | |- preserves _ (match ?x with _ => _ end) => destruct x
    | |- _ => leaf
    end).

Lemma flat_map_filter_Forall {A B : Type} (P : B -> Prop) (f : A -> list B)
    (p : A -> bool) (l : list A) :
  Forall P (flat_map f l) -> Forall P (flat_map f (filter p l)).
Proof.
  induction l as [|x l IH]; cbn; [auto|].
  intros H. apply Forall_app in H. destruct H as [H1 H2].
  destruct (p x); cbn; [apply Forall_app; split|]; auto.
Qed.

Lemma http_session a sl rq k :
  Forall (same_as a sl) (cont_closures k) ->
  request_slug rq = None \/ request_slug rq = Some sl ->
  (a = false -> is_public rq = true) ->
  preserves (session_of a sl) (http rq k).
Proof.
  intros Hk Hrq Hpub w [H1 H2 H3 H4].
  apply closures_split in H1. destruct H1 as (Hst & Hp & Ht).
  split.
  - apply closures_split. unfold_prims. cbn. repeat split; try apply Hst; [|exact Ht].
    rewrite flat_map_app. apply Forall_app. split; [exact Hp|]. cbn. now rewrite app_nil_r.
  - unfold calls in *. unfold_prims. cbn. simpl_log. apply Forall_app. split; [exact H2|].
    constructor; [exact Hrq | constructor].
  - intros Ha. unfold calls in *. unfold_prims. cbn. simpl_log. apply Forall_app.
    split; [now apply H3|]. constructor; [now apply Hpub | constructor].
  - intros Ha. specialize (H4 Ha). unfold sent in *. unfold_prims. cbn. simpl_log.
    exact H4.
Qed.

Lemma setTimeout_session a sl cb d :
  Forall (same_as a sl) (timer_closures cb) ->
  preserves (session_of a sl) (setTimeout cb d).
Proof.
  intros Hcb w [H1 H2 H3 H4].
  apply closures_split in H1. destruct H1 as (Hst & Hp & Ht).
  split.
  - apply closures_split. unfold_prims. cbn. repeat split; try apply Hst; [exact Hp|].
    rewrite flat_map_app. apply Forall_app. split; [exact Ht|]. cbn. now rewrite app_nil_r.
  - unfold calls in *. unfold_prims. cbn. simpl_log. exact H2.
  - intros Ha. unfold calls in *. unfold_prims. cbn. simpl_log. now apply H3.
  - intros Ha. specialize (H4 Ha). unfold sent in *. unfold_prims. cbn. simpl_log.
    exact H4.
Qed.

Lemma clearTimeout_session a sl t : preserves (session_of a sl) (clearTimeout t).
Proof.
  intros w [H1 H2 H3 H4].
  apply closures_split in H1. destruct H1 as (Hst & Hp & Ht).
  split.
  - apply closures_split. unfold_prims. cbn. repeat split; try apply Hst; [exact Hp|].
    now apply flat_map_filter_Forall.
  - unfold calls in *. unfold_prims. cbn. simpl_log. exact H2.
  - intros Ha. unfold calls in *. unfold_prims. cbn. simpl_log. now apply H3.
  - intros Ha. specialize (H4 Ha). unfold sent in *. unfold_prims. cbn. simpl_log.
    exact H4.
Qed.

Lemma newWebSocket_session sl url p : preserves (session_of true sl) (newWebSocket url p).
Proof.
  intros w H. unfold newWebSocket. destruct (accepts_url w url); [|exact H].
  destruct H as [H1 H2 H3 H4].
  apply closures_split in H1. destruct H1 as (Hst & Hp & Ht).
  split.
  - apply closures_split. unfold_prims. cbn. repeat split; try apply Hst; assumption.
  - unfold calls in *. unfold_prims. cbn. simpl_log. exact H2.
  - discriminate.
  - discriminate.
Qed.

Lemma ws_send_session a sl c rq : preserves (session_of a sl) (ws_send c rq).
Proof.
  intros w H. destruct a.
  - destruct H as [H1 H2 H3 H4].
    apply closures_split in H1. destruct H1 as (Hst & Hp & Ht).
    unfold ws_send. destruct (readyState w (Some c)) as [[]|]; cbn; split;
      try (apply closures_split; cbn; repeat split; try apply Hst; assumption);
      try discriminate; try assumption.
    unfold calls in *. cbn. simpl_log. exact H2.
  - assert (E : ws_send c rq w = (false, w)).
    { destruct H as [_ _ _ H4]. destruct (H4 eq_refl) as [Hc _].
      unfold ws_send, readyState. rewrite Hc. reflexivity. }
    rewrite E. exact H.
Qed.

Ltac session_leaf :=
  first [ apply frames_session; unfold sview, calls, sent; view_leaf
        | apply clearTimeout_session
        | apply ws_send_session
        | apply newWebSocket_session
        | apply setTimeout_session; cbn; repeat constructor; assumption
        | apply http_session;
          [ cbn; repeat constructor; assumption
          | cbn; auto
          | try discriminate; intros _; reflexivity ] ].

Ltac session_tac :=
  intros; subst; unfold_handlers;
  try match goal with
      | |- context [isAuthenticated ?cl] => destruct (isAuthenticated cl) eqn:?
      end;
  walk session_leaf.

Lemma handleCodeChange_session a sl cl value :
  same_as a sl cl -> preserves (session_of a sl) (handleCodeChange cl value).
Proof. intros [? ?]. session_tac. Qed.

Lemma handleRunCode_session a sl cl :
  same_as a sl cl -> preserves (session_of a sl) (handleRunCode cl).
Proof. intros [? ?]. session_tac. Qed.

Lemma handleSubmitCode_session a sl cl :
  same_as a sl cl -> preserves (session_of a sl) (handleSubmitCode cl).
Proof. intros [? ?]. session_tac. Qed.

Lemma handleLanguageChange_session a sl cl languageId :
  same_as a sl cl -> preserves (session_of a sl) (handleLanguageChange cl languageId).
Proof. intros [? ?]. session_tac. Qed.

Lemma unmount_cleanup_session a sl cl :
  same_as a sl cl -> preserves (session_of a sl) (unmount_cleanup cl).
Proof. intros [? ?]. session_tac. Qed.

Lemma resume_session a sl k r :
  Forall (same_as a sl) (cont_closures k) -> preserves (session_of a sl) (resume k r).
Proof.
  intros H. destruct k as [silent [| cl | cl] | | | | | | | | |]; cbn in H;
    try (apply Forall_inv in H; destruct H as [? ?]); session_tac.
Qed.

Lemma run_callback_session a sl cb :
  Forall (same_as a sl) (timer_closures cb) -> preserves (session_of a sl) (run_callback cb).
Proof.
  intros H. destruct cb; cbn in H; apply Forall_inv in H; destruct H as [? ?]; session_tac.
Qed.

Lemma Forall_flat_map_In {A B : Type} (P : B -> Prop) (f : A -> list B) (l : list A) x :
  Forall P (flat_map f l) -> In x l -> Forall P (f x).
Proof.
  induction l as [|y l IH]; cbn; [intros _ []|].
  intros H [->|Hx]; apply Forall_app in H; destruct H as [H1 H2]; auto.
Qed.

Lemma session_pending a sl w :
  session_of a sl w ->
  forall p, In p (pending w) -> Forall (same_as a sl) (cont_closures (p_cont p)).
Proof.
  intros [H _ _ _] p Hp. apply closures_split in H. destruct H as (_ & H & _).
  exact (Forall_flat_map_In _ _ _ p H Hp).
Qed.

Lemma session_timers a sl w :
  session_of a sl w ->
  forall t, In t (timers w) -> Forall (same_as a sl) (timer_closures (t_cb t)).
Proof.
  intros [H _ _ _] t Ht. apply closures_split in H. destruct H as (_ & _ & H).
  exact (Forall_flat_map_In _ _ _ t H Ht).
Qed.

Lemma session_st a sl w : session_of a sl w -> same_as a sl (st w).
Proof. intros [H _ _ _]. apply closures_split in H. tauto. Qed.

(** Dropping pending requests or timers, moving the clock, unmounting:
    the session stays the session. *)
Lemma session_shrink a sl w w' :
  st w' = st w -> log w' = log w -> conns w' = conns w ->
  (exists f, pending w' = filter f (pending w)) ->
  (exists g, timers w' = filter g (timers w)) ->
  session_of a sl w -> session_of a sl w'.
Proof.
  intros Es El Ec [f Ep] [g Et] [H1 H2 H3 H4].
  apply closures_split in H1. destruct H1 as (Hst & Hp & Ht).
  split.
  - apply closures_split. rewrite Es, Ep, Et.
    repeat split; try apply Hst; now apply flat_map_filter_Forall.
  - unfold calls in *. now rewrite El.
  - unfold calls in *. now rewrite El.
  - unfold sent in *. now rewrite El, Ec.
Qed.

Lemma filter_all {A : Type} (l : list A) : l = filter (fun _ => true) l.
Proof. induction l as [|x l IH]; cbn; [reflexivity|]. now f_equal. Qed.

Lemma find_pending_In rid ps p : find_pending rid ps = Some p -> In p ps.
Proof. unfold find_pending. intros H. now apply find_some in H. Qed.

Lemma fire_session a sl tm :
  forall w, session_of a sl w -> In tm (timers w) -> session_of a sl (exec (fire tm) w).
Proof.
  intros w H Hin. unfold fire. unfold exec, bind.
  apply run_callback_session; [exact (session_timers _ _ _ H tm Hin)|].
  unfold modify. cbn.
  apply (session_shrink a sl w); try reflexivity; [| | exact H].
  - exists (fun _ => true). cbn. apply filter_all.
  - eexists. cbn. reflexivity.
Qed.

Lemma mount_session auth sl env token accepts : session_of auth sl (mount auth sl env token accepts).
Proof.
  split.
  - cbn. repeat constructor.
  - cbn. repeat constructor.
  - intros _. cbn. repeat constructor.
  - intros _. cbn. now split.
Qed.

Lemma session_self a sl w :
  session_of a sl w -> session_of (isAuthenticated (st w)) (slug (st w)) w.
Proof. intros H. destruct (session_st _ _ _ H) as [-> ->]. exact H. Qed.

(** Every world the page can be in is a session of one user on one
    route. *)
Lemma reachable_session w :
  reachable w -> session_of (isAuthenticated (st w)) (slug (st w)) w.
Proof.
  revert w.
  apply (reachable_closed
           (fun w => session_of (isAuthenticated (st w)) (slug (st w)) w));
    [split | intros; apply (session_self auth sl), mount_session].
  - intros w value H _. eapply session_self.
    apply handleCodeChange_session; [|exact H]. now split.
  - intros w H _ _. eapply session_self.
    apply handleRunCode_session; [|exact H]. now split.
  - intros w H _ _. eapply session_self.
    apply handleSubmitCode_session; [|exact H]. now split.
  - intros w languageId H _. eapply session_self.
    apply handleLanguageChange_session; [|exact H]. now split.
  - intros w H _. eapply session_self.
    match goal with
    | |- session_of _ _ (with_mounted _ ?v) => apply (session_shrink _ _ v); try reflexivity
    end.
    + exists (fun _ => true). apply filter_all.
    + exists (fun _ => true). apply filter_all.
    + apply unmount_cleanup_session; [|exact H]. now split.
  - intros w rid p r H Hf _. eapply session_self.
    apply resume_session.
    + exact (session_pending _ _ _ H p (find_pending_In _ _ _ Hf)).
    + apply (session_shrink _ _ w); try reflexivity; [| | exact H].
      * eexists. cbn. reflexivity.
      * exists (fun _ => true). apply filter_all.
  - intros w tm H Hin. eapply session_self. apply fire_session; [exact H | exact Hin].
  - intros w n H. apply (session_shrink _ _ w); try reflexivity; [| | exact H].
    + exists (fun _ => true). apply filter_all.
    + exists (fun _ => true). apply filter_all.
  - intros w c x H Hf _. destruct (isAuthenticated (st w)) eqn:Ha.
    + eapply session_self. unfold ws_onopen.
      apply (frames_session true (slug (st w)));
        [walk ltac:(unfold sview, calls, sent; view_leaf)|].
      destruct H as [H1 H2 H3 H4]. apply closures_split in H1.
      split; try discriminate; [|exact H2].
      apply closures_split. exact H1.
    + destruct H as [_ _ _ H4]. destruct (H4 eq_refl) as [Hc _].
      rewrite Hc in Hf. discriminate.
  - intros w c x data H _ _. eapply session_self.
    assert (F : frames sview (ws_onmessage (conn_problem x) data))
      by (unfold_handlers; walk ltac:(unfold sview, calls, sent; view_leaf)).
    exact (frames_session _ _ _ F w H).
  - intros w c x H _ _. eapply session_self.
    assert (F : frames sview ws_onerror)
      by (unfold_handlers; walk ltac:(unfold sview, calls, sent; view_leaf)).
    exact (frames_session _ _ _ F w H).
  - intros w c x H Hf _. destruct (isAuthenticated (st w)) eqn:Ha.
    + eapply session_self. unfold ws_onclose.
      apply (frames_session true (slug (st w)));
        [walk ltac:(unfold sview, calls, sent; view_leaf)|].
      destruct H as [H1 H2 H3 H4]. apply closures_split in H1.
      split; try discriminate; [|exact H2].
      apply closures_split. exact H1.
    + destruct H as [_ _ _ H4]. destruct (H4 eq_refl) as [Hc _].
      rewrite Hc in Hf. discriminate.
Qed.

Lemma visitor_reachable : reachable visitor.
Proof.
  apply (run_reachable
           [EvHttp 1%positive (RespLanguages [python; java]);
            EvHttp 2%positive (RespProblem two_sum);
            EvHttp 3%positive (RespBoilerplate "def solve(): pass");
            EvCodeChange (Some "print(1)");
            EvClickRun;
            EvAdvance 500]
           (mount false "two-sum" None None lenient)); [apply reach_mount|].
  vm_compute. reflexivity.
Qed.

Lemma public_calls_no_saves l :
  Forall (fun rq => is_public rq = true) (calls_of l) -> saves_of l = [].
Proof.
  induction l as [|e l IH]; [reflexivity|].
  destruct e as [| | rid rq | | | |]; cbn; try exact IH.
  intros H. inversion H as [|? ? H1 H2]; subst.
  destruct rq; try discriminate; now apply IH.
Qed.

(** Extra X1.  A visitor who is not logged in never causes a persistence call,
    never reads an attempt, never opens a socket and never sends an
    execution request: all the page asks for is the language list, the
    problem and boilerplate. *)
Theorem logged_out_visitor :
  forall w : World,
    reachable w -> isAuthenticated (st w) = false ->
    saves w = [] /\ conns w = [] /\ sent w = [] /\
    Forall (fun rq => is_public rq = true) (calls w).
Proof.
  intros w Hr Ha. pose proof (reachable_session w Hr) as H. rewrite Ha in H.
  destruct H as [_ _ H3 H4]. specialize (H3 eq_refl). destruct (H4 eq_refl) as [Hc Hs].
  repeat split; try assumption. unfold saves. now apply public_calls_no_saves.
Qed.

Lemma logged_out_visitor_witness :
  saves visitor = [] /\ conns visitor = [] /\ sent visitor = [] /\
  Forall (fun rq => is_public rq = true) (calls visitor).
Proof. apply (logged_out_visitor visitor visitor_reachable). reflexivity. Defined.



Lemma load_view w w' : lview w' = lview w -> load_ok w -> load_ok w'.
Proof.
  unfold lview. intros E [H1 H2 H3 H4]. injection E as El Ep Ei Ef.
  split; rewrite ?El, ?Ep, ?Ei, ?Ef; assumption.
Qed.

Lemma frames_load {A : Type} (m : M A) : frames lview m -> preserves load_ok m.
Proof. intros F w H. eapply load_view; [apply F | exact H]. Qed.

(** A primitive of a handler that is not part of the initial load. *)
Ltac load_leaf :=
  lazymatch goal with
  | |- frames _ ?m => is_primitive m
  end;
  let w := fresh "w" in
  intros w; unfold_prims; unfold lview, fetching; cbn; break_match;
  rewrite ?filter_app; cbn; rewrite ?app_nil_r; reflexivity.

Ltac load_tac := intros; unfold_handlers; walk load_leaf.

Lemma handleCodeChange_load cl value : frames lview (handleCodeChange cl value).
Proof. load_tac. Qed.

Lemma handleRunCode_load cl : frames lview (handleRunCode cl).
Proof. load_tac. Qed.

Lemma handleSubmitCode_load cl : frames lview (handleSubmitCode cl).
Proof. load_tac. Qed.

Lemma handleLanguageChange_load cl languageId : frames lview (handleLanguageChange cl languageId).
Proof. load_tac. Qed.

Lemma unmount_cleanup_load cl : frames lview (unmount_cleanup cl).
Proof. load_tac. Qed.

Lemma run_callback_load cb : frames lview (run_callback cb).
Proof. load_tac. Qed.

Lemma ws_handlers_load p data :
  frames lview ws_onopen /\ frames lview ws_onerror /\ frames lview ws_onclose /\
  frames lview (ws_onmessage p data).
Proof. repeat split; load_tac. Qed.

Lemma resume_other_load k r : is_fetch k = false -> frames lview (resume k r).
Proof. destruct k; try discriminate; intros _; load_tac. Qed.

(** The initial load goes on: its call has settled, the page is still
    hidden. *)
Lemma resume_fetch_load k r w :
  is_fetch k = true ->
  fetching w = [] -> loading (st w) = true ->
  (is_early k = true -> problem (st w) = None) ->
  load_ok (exec (resume k r) w).
Proof.
  intros Hk Hf Hl He.
  destruct w as [s rf m env tok ts ps cs lg nw nt nr nc].
  unfold fetching in Hf. cbn in Hf, Hl, He.
  destruct k; try discriminate Hk; clear Hk; try specialize (He eq_refl);
    destruct r; unfold_handlers; unfold_prims; destruct m; cbn;
    break_match;
    (split; unfold fetching; cbn; rewrite ?filter_app, ?Hf; cbn;
     [ lia
     | try (intros _; exact Hl); try (intros H; now elim H)
     | let q := fresh "q" in
       let Hq := fresh "Hq" in
       let Hearly := fresh "Hearly" in
       intros q Hq Hearly;
       repeat (destruct Hq as [<-|Hq];
               [cbn in Hearly; first [discriminate Hearly | assumption] | ]);
       destruct Hq
     | try (intros _ _; reflexivity); try congruence ]).
Qed.

Lemma filter_comm {A : Type} (f g : A -> bool) (l : list A) :
  filter f (filter g l) = filter g (filter f l).
Proof.
  induction l as [|x l IH]; [reflexivity|]. cbn.
  destruct (f x) eqn:Ef, (g x) eqn:Eg; cbn; rewrite ?Ef, ?Eg, IH; reflexivity.
Qed.

Lemma fetching_drop rid w :
  fetching (with_pending (drop_pending rid (pending w)) w) =
  filter (fun p => negb (Pos.eqb (p_id p) rid)) (fetching w).
Proof. unfold fetching, drop_pending. cbn. apply filter_comm. Qed.

Lemma find_pending_id rid ps p : find_pending rid ps = Some p -> p_id p = rid.
Proof.
  unfold find_pending. intros H. apply find_some in H. now apply Pos.eqb_eq.
Qed.

Lemma fetching_drop_found rid w p :
  load_ok w -> find_pending rid (pending w) = Some p -> is_fetch (p_cont p) = true ->
  fetching (with_pending (drop_pending rid (pending w)) w) = [].
Proof.
  intros [H1 _ _ _] Hf Hk. rewrite fetching_drop.
  assert (Hin : In p (fetching w)).
  { unfold fetching. apply filter_In. split; [now apply find_pending_In in Hf | exact Hk]. }
  destruct (fetching w) as [|a [|b l]]; [destruct Hin | | cbn in H1; lia].
  destruct Hin as [->|[]]. cbn. rewrite (find_pending_id _ _ _ Hf), Pos.eqb_refl.
  reflexivity.
Qed.

Lemma load_ok_drop rid w :
  load_ok w -> load_ok (with_pending (drop_pending rid (pending w)) w).
Proof.
  intros [H1 H2 H3 H4]. split; rewrite ?fetching_drop; cbn.
  - pose proof (filter_length_le (fun p => negb (Pos.eqb (p_id p) rid)) (fetching w)). lia.
  - intros Hne. apply H2. intros E. rewrite E in Hne. now apply Hne.
  - intros p Hp. apply filter_In in Hp. now apply H3.
  - exact H4.
Qed.

Lemma mount_load auth sl env token accepts : load_ok (mount auth sl env token accepts).
Proof.
  split; cbn.
  - lia.
  - reflexivity.
  - reflexivity.
  - discriminate.
Qed.

(** Every world the page can be in is consistent with one initial
    load. *)
Lemma load_closed : event_closed load_ok.
Proof.
  split.
  - intros w value H _. now apply frames_load; [apply handleCodeChange_load|].
  - intros w H _ _. now apply frames_load; [apply handleRunCode_load|].
  - intros w H _ _. now apply frames_load; [apply handleSubmitCode_load|].
  - intros w languageId H _. now apply frames_load; [apply handleLanguageChange_load|].
  - intros w H _.
    match goal with
    | |- load_ok (with_mounted _ ?v) => apply (load_view v); [reflexivity|]
    end.
    now apply frames_load; [apply unmount_cleanup_load|].
  - intros w rid p r H Hf _. destruct (is_fetch (p_cont p)) eqn:Hk.
    + apply resume_fetch_load; [exact Hk | | |].
      * now apply (fetching_drop_found rid w p).
      * cbn. apply H. intros E.
        assert (Hin : In p (fetching w)).
        { unfold fetching. apply filter_In. split; [now apply find_pending_In in Hf | exact Hk]. }
        rewrite E in Hin. destruct Hin.
      * intros He. cbn. apply (early_unloaded w H p); [|exact He].
        unfold fetching. apply filter_In. split; [now apply find_pending_In in Hf | exact Hk].
    + apply frames_load; [now apply resume_other_load|]. now apply load_ok_drop.
  - intros w tm H _. unfold fire. unfold exec, bind.
    apply frames_load; [apply run_callback_load|].
    eapply load_view; [|exact H]. reflexivity.
  - intros w n H. eapply load_view; [|exact H]. reflexivity.
  - intros w c x H _ _. apply frames_load; [apply (ws_handlers_load None PayloadInvalid)|].
    eapply load_view; [|exact H]. reflexivity.
  - intros w c x data H _ _. apply frames_load; [apply ws_handlers_load | exact H].
  - intros w c x H _ _. apply frames_load; [apply (ws_handlers_load None PayloadInvalid) | exact H].
  - intros w c x H _ _. apply frames_load; [apply (ws_handlers_load None PayloadInvalid)|].
    eapply load_view; [|exact H]. reflexivity.
Qed.

(** Every world the page can be in is consistent with one initial
    load. *)
Lemma reachable_load w : reachable w -> load_ok w.
Proof. apply reachable_closed; [exact load_closed | exact mount_load]. Qed.

(** A shown page has marked its code initialized. *)
Lemma shown_initialized_ref w :
  reachable w -> page_shown w = true -> codeInitializedRef (refs w) = true.
Proof.
  intros Hr Hs. destruct (reachable_load w Hr) as [_ _ _ H4].
  unfold page_shown in Hs. apply andb_prop in Hs. destruct Hs as [Hs Hp].
  apply andb_prop in Hs. destruct Hs as [_ Hl]. apply negb_true_iff in Hl.
  apply H4; [exact Hl|]. destruct (problem (st w)); [discriminate | discriminate Hp].
Qed.



(** ** The refs track the state *)

Lemma fresh_view w w' : rview w' = rview w -> refs_fresh w -> refs_fresh w'.
Proof.
  unfold rview, refs_fresh. intros E H. injection E as -> -> -> -> ->. exact H.
Qed.

Lemma frames_fresh {A : Type} (m : M A) : frames rview m -> preserves refs_fresh m.
Proof. intros F w H. eapply fresh_view; [apply F | exact H]. Qed.

Ltac fresh_leaf :=
  lazymatch goal with
  | |- frames _ ?m => is_primitive m
  end;
  intros [? ? [|] ? ? ? ? ? ? ? ? ? ? ?]; unfold_prims; unfold rview; cbn; break_match;
  reflexivity.

Ltac fresh_tac := intros; unfold_handlers; walk fresh_leaf.

Lemma handleRunCode_fresh cl : frames rview (handleRunCode cl).
Proof. fresh_tac. Qed.

Lemma handleSubmitCode_fresh cl : frames rview (handleSubmitCode cl).
Proof. fresh_tac. Qed.

Lemma handleLanguageChange_fresh cl languageId : frames rview (handleLanguageChange cl languageId).
Proof. fresh_tac. Qed.

Lemma unmount_cleanup_fresh cl : frames rview (unmount_cleanup cl).
Proof. fresh_tac. Qed.

Lemma run_callback_fresh cb : frames rview (run_callback cb).
Proof. fresh_tac. Qed.

Lemma ws_handlers_fresh p data :
  frames rview ws_onopen /\ frames rview ws_onerror /\ frames rview ws_onclose /\
  frames rview (ws_onmessage p data).
Proof. repeat split; fresh_tac. Qed.

Ltac run_segment w :=
  destruct w as [? ? [|] ? ? ? ? ? ? ? ? ? ? ?];
  unfold refs_fresh in *; unfold_handlers; unfold_prims; cbn in *; break_match;
  try discriminate; intuition congruence.

Lemma handleCodeChange_fresh cl value : preserves refs_fresh (handleCodeChange cl value).
Proof. intros w H. run_segment w. Qed.

Lemma resume_fresh k r : preserves refs_fresh (resume k r).
Proof.
  destruct k as [silent k' | | | | | | | | |].
  1, 2, 6, 7: apply frames_fresh; fresh_tac.
  all: intros w H; destruct r; run_segment w.
Qed.

Lemma mount_fresh auth sl env token accepts : refs_fresh (mount auth sl env token accepts).
Proof. intros _. cbn. now split. Qed.

(** Every world the page can be in has its refs up to date. *)
Lemma reachable_fresh w : reachable w -> refs_fresh w.
Proof.
  revert w. apply (reachable_closed refs_fresh); [split | exact mount_fresh].
  - intros w value H _. now apply handleCodeChange_fresh.
  - intros w H _ _. now apply frames_fresh; [apply handleRunCode_fresh|].
  - intros w H _ _. now apply frames_fresh; [apply handleSubmitCode_fresh|].
  - intros w languageId H _. now apply frames_fresh; [apply handleLanguageChange_fresh|].
  - intros w H _. intros E. discriminate E.
  - intros w rid p r H _ _. apply resume_fresh.
    eapply fresh_view; [|exact H]. reflexivity.
  - intros w tm H _. unfold fire. unfold exec, bind.
    apply frames_fresh; [apply run_callback_fresh|].
    eapply fresh_view; [|exact H]. reflexivity.
  - intros w n H. eapply fresh_view; [|exact H]. reflexivity.
  - intros w c x H _ _. apply frames_fresh; [apply (ws_handlers_fresh None PayloadInvalid)|].
    eapply fresh_view; [|exact H]. reflexivity.
  - intros w c x data H _ _. apply frames_fresh; [apply ws_handlers_fresh | exact H].
  - intros w c x H _ _. apply frames_fresh; [apply (ws_handlers_fresh None PayloadInvalid) | exact H].
  - intros w c x H _ _. apply frames_fresh; [apply (ws_handlers_fresh None PayloadInvalid)|].
    eapply fresh_view; [|exact H]. reflexivity.
Qed.

(** ** The memoized [initializeWebSocket] *)

Lemma memo_view w w' : mview w' = mview w -> memo_ok w -> memo_ok w'.
Proof.
  unfold mview. intros E [H1 H2 H3]. injection E as Em Ep Ec Es.
  split; rewrite ?Em, ?Ep, ?Ec, ?Es; assumption.
Qed.

Lemma frames_memo {A : Type} (m : M A) : frames mview m -> preserves memo_ok m.
Proof. intros F w H. eapply memo_view; [apply F | exact H]. Qed.

Ltac memo_leaf :=
  lazymatch goal with
  | |- frames _ ?m => is_primitive m
  end;
  intros [? ? [|] ? ? ? ? ? ? ? ? ? ? ?]; unfold_prims; unfold mview, senders; cbn;
  break_match; rewrite ?filter_app; cbn; rewrite ?app_nil_r; reflexivity.

Ltac memo_tac := intros; unfold_handlers; walk memo_leaf.

Lemma handleCodeChange_memo cl value : frames mview (handleCodeChange cl value).
Proof. memo_tac. Qed.

Lemma handleLanguageChange_memo cl languageId : frames mview (handleLanguageChange cl languageId).
Proof. memo_tac. Qed.

Lemma unmount_cleanup_memo cl : frames mview (unmount_cleanup cl).
Proof. memo_tac. Qed.

Lemma run_callback_memo cb : frames mview (run_callback cb).
Proof. memo_tac. Qed.

Lemma ws_handlers_memo p data :
  frames mview ws_onopen /\ frames mview ws_onerror /\ frames mview (ws_onmessage p data).
Proof. repeat split; memo_tac. Qed.

Lemma frames_memo_loaded {A : Type} (m : M A) : frames mview m -> preserves memo_loaded m.
Proof.
  intros F w [H Hp]. pose proof (F w) as E. split; [now apply (memo_view w)|].
  unfold mview in E. injection E as _ -> _ _. exact Hp.
Qed.

Lemma setWsConnection_loaded c : preserves memo_loaded (setWsConnection c).
Proof.
  intros [s ? [|] ? ? ? ? ? ? ? ? ? ? ?] [[H1 H2 H3] Hp]; unfold_prims; cbn in *;
    (split; [split|]; cbn; try assumption). intros E. now elim Hp.
Qed.

Lemma http_loaded rq k : preserves memo_loaded (http rq k).
Proof.
  intros [s ? ? ? ? ? ? ? ? ? ? ? ? ?] [[H1 H2 H3] Hp]; unfold_prims; cbn in *.
  split; [split|]; cbn; try assumption. intros _. exact Hp.
Qed.

Ltac loaded_leaf :=
  first [ apply frames_memo_loaded; memo_leaf
        | apply setWsConnection_loaded
        | apply http_loaded ].

Ltac loaded_tac := intros; unfold_handlers; walk loaded_leaf.

Lemma handleRunCode_memo cl : preserves memo_loaded (handleRunCode cl).
Proof. loaded_tac. Qed.

Lemma handleSubmitCode_memo cl : preserves memo_loaded (handleSubmitCode cl).
Proof. loaded_tac. Qed.

Lemma resume_sender_memo k r : is_sender k = true -> preserves memo_loaded (resume k r).
Proof. destruct k as [silent [| cl | cl] | | | | | | | | |]; try discriminate; loaded_tac. Qed.

Lemma resume_other_memo k r :
  is_sender k = false -> (forall cl langs, k <> KFetchProblem cl langs) ->
  frames mview (resume k r).
Proof.
  intros Hs Hk. destruct k as [silent [| cl | cl] | | | | | | | | |]; try discriminate Hs;
    try (now elim (Hk cl langs)); memo_tac.
Qed.

Lemma resume_problem_memo cl langs r w :
  memo_ok w -> problem (st w) = None -> memo_ok (exec (resume (KFetchProblem cl langs) r) w).
Proof.
  intros [H1 H2 H3] Hp. specialize (H2 Hp).
  destruct w as [s ? [|] ? ? ? ? ? ? ? ? ? ? ?]; unfold senders in *;
    destruct r; unfold_handlers; unfold_prims; cbn in *; break_match;
    (split; unfold senders; cbn; rewrite ?filter_app; cbn; rewrite ?app_nil_r;
     try assumption; try discriminate; try (intros _; discriminate); auto).
Qed.

Lemma ws_onclose_memo : preserves memo_ok ws_onclose.
Proof.
  intros [s ? [|] ? ? ? ? ? ? ? ? ? ? ?] [H1 H2 H3]; unfold_handlers; unfold_prims;
    cbn in *; split; cbn; auto.
Qed.

Lemma senders_drop rid w :
  senders (with_pending (drop_pending rid (pending w)) w) =
  filter (fun p => negb (Pos.eqb (p_id p) rid)) (senders w).
Proof. unfold senders, drop_pending. cbn. apply filter_comm. Qed.

Lemma memo_ok_drop rid w :
  memo_ok w -> memo_ok (with_pending (drop_pending rid (pending w)) w).
Proof.
  intros [H1 H2 H3]. split; rewrite ?senders_drop; cbn; try assumption.
  intros Hne. apply H3. intros E. rewrite E in Hne. now apply Hne.
Qed.

Lemma page_shown_problem w : page_shown w = true -> problem (st w) <> None.
Proof.
  unfold page_shown. intros H. apply andb_prop in H. destruct H as [_ H].
  destruct (problem (st w)); [discriminate | discriminate H].
Qed.

Lemma mount_memo auth sl env token accepts : memo_ok (mount auth sl env token accepts).
Proof. split; cbn; [reflexivity | reflexivity | intros H; now elim H]. Qed.

(** In every world the page can be in, the memoized callback holds no
    socket. *)
Lemma memo_closed : event_closed (fun w => load_ok w /\ memo_ok w).
Proof.
  pose proof load_closed as L. split.
  - intros w value [H1 H2] Hs. split; [now apply (closed_edit _ L)|].
    now apply frames_memo; [apply handleCodeChange_memo|].
  - intros w [H1 H2] Hs Hd. split; [now apply (closed_run _ L)|].
    apply handleRunCode_memo. split; [exact H2 | now apply page_shown_problem].
  - intros w [H1 H2] Hs Hd. split; [now apply (closed_submit _ L)|].
    apply handleSubmitCode_memo. split; [exact H2 | now apply page_shown_problem].
  - intros w languageId [H1 H2] Hs. split; [now apply (closed_select _ L)|].
    now apply frames_memo; [apply handleLanguageChange_memo|].
  - intros w [H1 H2] Hm. split; [now apply (closed_unmount _ L)|].
    match goal with
    | |- memo_ok (with_mounted _ ?v) => apply (memo_view v); [reflexivity|]
    end.
    now apply frames_memo; [apply unmount_cleanup_memo|].
  - intros w rid p r [H1 H2] Hf Hm. split; [now apply (closed_http _ L)|].
    pose proof (find_pending_In _ _ _ Hf) as Hin.
    destruct (is_sender (p_cont p)) eqn:Hs.
    + apply resume_sender_memo; [exact Hs|]. split; [now apply memo_ok_drop|].
      cbn. apply H2. intros E.
      assert (Hin' : In p (senders w)) by (unfold senders; now apply filter_In).
      rewrite E in Hin'. destruct Hin'.
    + destruct (p_cont p) as [| | | | | | | cl langs | |] eqn:Hk.
      8: { apply resume_problem_memo; [now apply memo_ok_drop|]. cbn.
           apply (early_unloaded w H1 p); [|now rewrite Hk].
           unfold fetching. apply filter_In. split; [exact Hin | now rewrite Hk]. }
      all: apply frames_memo; [|now apply memo_ok_drop];
        apply resume_other_memo; [exact Hs | discriminate].
  - intros w tm [H1 H2] Hin. split; [now apply (closed_fire _ L)|].
    unfold fire. unfold exec, bind.
    apply frames_memo; [apply run_callback_memo|].
    eapply memo_view; [|exact H2]. reflexivity.
  - intros w n [H1 H2]. split; [now apply (closed_clock _ L)|].
    eapply memo_view; [|exact H2]. reflexivity.
  - intros w c x [H1 H2] Hf Hc. split; [now apply (closed_open _ L w c x)|].
    apply frames_memo; [apply (ws_handlers_memo None PayloadInvalid)|].
    eapply memo_view; [|exact H2]. reflexivity.
  - intros w c x data [H1 H2] Hf Hc. split; [now apply (closed_message _ L w c x)|].
    apply frames_memo; [apply ws_handlers_memo | exact H2].
  - intros w c x [H1 H2] Hf Hc. split; [now apply (closed_error _ L w c x)|].
    apply frames_memo; [apply (ws_handlers_memo None PayloadInvalid) | exact H2].
  - intros w c x [H1 H2] Hf Hc. split; [now apply (closed_close _ L w c x)|].
    apply ws_onclose_memo. eapply memo_view; [|exact H2]. reflexivity.
Qed.

(** In every world the page can be in, the memoized callback holds no
    socket. *)
Lemma reachable_memo w : reachable w -> memo_ok w.
Proof.
  intros Hr.
  apply (reachable_closed (fun w => load_ok w /\ memo_ok w) memo_closed); [|exact Hr].
  intros. split; [apply mount_load | apply mount_memo].
Qed.

(** ** Socket ids *)

Lemma conns_view w w' : cview w' = cview w -> conns_fresh w -> conns_fresh w'.
Proof. unfold cview, conns_fresh. intros E H. injection E as -> ->. exact H. Qed.

Lemma frames_conns {A : Type} (m : M A) : frames cview m -> preserves conns_fresh m.
Proof. intros F w H. eapply conns_view; [apply F | exact H]. Qed.

Lemma newWebSocket_fresh url p : preserves conns_fresh (newWebSocket url p).
Proof.
  intros w H. unfold newWebSocket. destruct (accepts_url w url); [|exact H].
  intros x. cbn. rewrite in_app_iff. intros [Hx|[<-|[]]].
  - apply H in Hx. lia.
  - cbn. lia.
Qed.

Ltac conns_leaf :=
  first [ apply newWebSocket_fresh
        | apply frames_conns;
          lazymatch goal with
          | |- frames _ ?m => is_primitive m
          end;
          intros [? ? [|] ? ? ? ? ? ? ? ? ? ? ?]; unfold_prims; unfold cview; cbn;
          break_match; reflexivity ].

Ltac conns_tac := intros; unfold_handlers; walk conns_leaf.

Lemma set_conn_state_ids c r cs : map conn_id (set_conn_state c r cs) = map conn_id cs.
Proof.
  unfold set_conn_state. induction cs as [|x cs IH]; [reflexivity|]. cbn. rewrite IH.
  destruct (Pos.eqb (conn_id x) c); reflexivity.
Qed.

Lemma conns_fresh_set c r w :
  conns_fresh w -> conns_fresh (with_conns (set_conn_state c r (conns w)) w).
Proof.
  intros H x Hx. cbn in *.
  assert (Hid : In (conn_id x) (map conn_id (conns w))).
  { rewrite <- (set_conn_state_ids c r). now apply in_map. }
  apply in_map_iff in Hid. destruct Hid as (y & <- & Hy). now apply H.
Qed.

Lemma handlers_conns cl :
  (forall value, preserves conns_fresh (handleCodeChange cl value)) /\
  preserves conns_fresh (handleRunCode cl) /\
  preserves conns_fresh (handleSubmitCode cl) /\
  (forall languageId, preserves conns_fresh (handleLanguageChange cl languageId)) /\
  preserves conns_fresh (unmount_cleanup cl).
Proof. split; [|split; [|split; [|split]]]; conns_tac. Qed.

Lemma resume_conns k r : preserves conns_fresh (resume k r).
Proof. conns_tac. Qed.

Lemma run_callback_conns cb : preserves conns_fresh (run_callback cb).
Proof. conns_tac. Qed.

Lemma ws_handlers_conns p data :
  preserves conns_fresh ws_onopen /\ preserves conns_fresh ws_onerror /\
  preserves conns_fresh ws_onclose /\ preserves conns_fresh (ws_onmessage p data).
Proof. repeat split; conns_tac. Qed.

Lemma conns_closed : event_closed conns_fresh.
Proof.
  destruct (ws_handlers_conns None PayloadInvalid) as (Hopen & Herror & Hclose & _).
  split.
  - intros w value H _. now apply handlers_conns.
  - intros w H _ _. now apply handlers_conns.
  - intros w H _ _. now apply handlers_conns.
  - intros w languageId H _. now apply handlers_conns.
  - intros w H _.
    match goal with
    | |- conns_fresh (with_mounted _ ?v) => apply (conns_view v); [reflexivity|]
    end.
    now apply handlers_conns.
  - intros w rid p r H _ _. apply resume_conns.
    eapply conns_view; [|exact H]. reflexivity.
  - intros w tm H _. unfold fire. unfold exec, bind. apply run_callback_conns.
    eapply conns_view; [|exact H]. reflexivity.
  - intros w n H. eapply conns_view; [|exact H]. reflexivity.
  - intros w c x H _ _. apply Hopen. now apply conns_fresh_set.
  - intros w c x data H _ _. now apply ws_handlers_conns.
  - intros w c x H _ _. now apply Herror.
  - intros w c x H _ _. apply Hclose. now apply conns_fresh_set.
Qed.

Lemma reachable_conns w : reachable w -> conns_fresh w.
Proof.
  apply reachable_closed; [exact conns_closed|]. intros auth sl env token accepts x [].
Qed.

(** ** The socket's address *)

Lemma trim_start_blank s : Js.truthy (Js.trim_start s) = negb (all_space s).
Proof.
  induction s as [|a t IH]; [reflexivity|]. cbn.
  destruct (Js.is_space a); [exact IH | reflexivity].
Qed.

Lemma trim_start_keeps s : all_space (Js.trim_start s) = all_space s.
Proof.
  induction s as [|a t IH]; [reflexivity|]. cbn.
  destruct (Js.is_space a) eqn:E; [exact IH|]. cbn. now rewrite E.
Qed.

Lemma all_space_rev_onto s acc :
  all_space (Js.rev_onto s acc) = (all_space s && all_space acc)%bool.
Proof.
  revert acc. induction s as [|a t IH]; intros acc; [reflexivity|]. cbn.
  rewrite IH. cbn. destruct (Js.is_space a), (all_space t); reflexivity.
Qed.

Lemma all_space_reverse s : all_space (Js.reverse s) = all_space s.
Proof. unfold Js.reverse. rewrite all_space_rev_onto. cbn. apply andb_true_r. Qed.

Lemma truthy_all_space s : all_space s = false -> Js.truthy s = true.
Proof. destruct s; [discriminate | reflexivity]. Qed.

(** [s.trim()] is empty exactly when [s] is white space only. *)
Lemma trim_blank s : Js.truthy (Js.trim s) = negb (all_space s).
Proof.
  unfold Js.trim. destruct (all_space s) eqn:E; cbn.
  - assert (Ht : Js.trim_start s = EmptyString).
    { pose proof (trim_start_blank s) as H. rewrite E in H.
      destruct (Js.trim_start s); [reflexivity | discriminate]. }
    rewrite Ht. reflexivity.
  - apply truthy_all_space.
    now rewrite all_space_reverse, trim_start_keeps, all_space_reverse, trim_start_keeps.
Qed.

Lemma all_space_app s t : all_space (s ++ t) = (all_space s && all_space t)%bool.
Proof.
  induction s as [|a s IH]; [reflexivity|]. cbn. rewrite IH. apply andb_assoc.
Qed.

Lemma prefix_app p s t : String.prefix p s = true -> String.prefix p (s ++ t) = true.
Proof.
  revert s. induction p as [|a p IH]; intros s; [intros _; destruct (s ++ t)%string; reflexivity|].
  destruct s as [|b s]; [discriminate|]. cbn.
  destruct (Ascii.ascii_dec a b); [apply IH | discriminate].
Qed.

Lemma rev_onto_snoc s c acc :
  Js.rev_onto (s ++ String c EmptyString) acc = String c (Js.rev_onto s acc).
Proof.
  revert acc. induction s as [|a s IH]; intros acc; [reflexivity|].
  cbn. apply IH.
Qed.

Lemma endsWith_slash s : Js.endsWith (s ++ "/") "/" = true.
Proof.
  unfold Js.endsWith, Js.reverse. rewrite rev_onto_snoc. cbn.
  destruct (Js.rev_onto s ""); reflexivity.
Qed.

(** The emptiness check at the head of [initializeWebSocket] never
    fails on what [getWebSocketUrl] returns. *)
Lemma getWebSocketUrl_not_blank env :
  (negb (Js.truthy (getWebSocketUrl env))
   || negb (Js.truthy (Js.trim (getWebSocketUrl env))))%bool = false.
Proof.
  unfold getWebSocketUrl.
  set (u := match env with
            | Some u => if Js.truthy u then u else defaultUrl
            | None => defaultUrl
            end).
  destruct (negb (Js.truthy u) || negb (Js.truthy (Js.trim u))
            || negb (Js.startsWith u "ws://") && negb (Js.startsWith u "wss://"))%bool
    eqn:E; [reflexivity|].
  apply orb_false_elim in E. destruct E as [E _].
  apply orb_false_elim in E. destruct E as [Ht Hb].
  apply negb_false_iff in Ht, Hb.
  destruct (Js.endsWith u "/"); [now rewrite Ht, Hb|].
  assert (Ht' : Js.truthy (u ++ "/") = true) by (destruct u; reflexivity).
  rewrite Ht', trim_blank, all_space_app. rewrite trim_blank in Hb.
  apply negb_true_iff in Hb. now rewrite Hb.
Qed.

(** Extra X12.  Whatever [VITE_WS_URL] holds (nothing, white space, an address
    of another scheme), [getWebSocketUrl] returns a [ws://] or [wss://]
    address that is not blank, and one that ends in a slash unless it is
    the hardcoded default; so the emptiness check at the head of
    [initializeWebSocket] never fails. *)
Theorem getWebSocketUrl_is_a_socket_address :
  forall env : option string,
    let url := getWebSocketUrl env in
    (Js.startsWith url "ws://" || Js.startsWith url "wss://")%bool = true /\
    (negb (Js.truthy url) || negb (Js.truthy (Js.trim url)))%bool = false /\
    (Js.endsWith url "/" = true \/ url = defaultUrl).
Proof.
  intros env url. subst url. unfold getWebSocketUrl.
  set (u := match env with
            | Some u => if Js.truthy u then u else defaultUrl
            | None => defaultUrl
            end).
  destruct (negb (Js.truthy u) || negb (Js.truthy (Js.trim u))
            || negb (Js.startsWith u "ws://") && negb (Js.startsWith u "wss://"))%bool
    eqn:E.
  - split; [reflexivity | split; [reflexivity | now right]].
  - apply orb_false_elim in E. destruct E as [E Hscheme].
    apply orb_false_elim in E. destruct E as [Ht Hb].
    apply negb_false_iff in Ht, Hb.
    assert (Hs : (Js.startsWith u "ws://" || Js.startsWith u "wss://")%bool = true).
    { destruct (Js.startsWith u "ws://"), (Js.startsWith u "wss://");
        try reflexivity; discriminate. }
    destruct (Js.endsWith u "/") eqn:Hend.
    + split; [exact Hs | split; [now rewrite Ht, Hb | now left]].
    + assert (Hb' : Js.truthy (Js.trim (u ++ "/")) = true).
      { rewrite trim_blank, all_space_app. rewrite trim_blank in Hb.
        apply negb_true_iff in Hb. now rewrite Hb. }
      assert (Ht' : Js.truthy (u ++ "/") = true) by (destruct u; reflexivity).
      split; [| split; [now rewrite Ht', Hb' | left; apply endsWith_slash]].
      unfold Js.startsWith in *. apply orb_true_iff in Hs. apply orb_true_iff.
      destruct Hs as [Hs|Hs]; [left | right]; now apply prefix_app.
Qed.

Lemma find_conn_fresh c cs x :
  (forall y, In y cs -> (conn_id y < c)%positive) -> conn_id x = c ->
  find_conn c (cs ++ [x]) = Some x.
Proof.
  intros Hf Hx. unfold find_conn. induction cs as [|y cs IH]; cbn.
  - now rewrite Hx, Pos.eqb_refl.
  - assert (Hy : (conn_id y < c)%positive) by (apply Hf; now left).
    destruct (Pos.eqb_spec (conn_id y) c) as [E|_]; [lia|].
    apply IH. intros z Hz. apply Hf. now right.
Qed.

(** What [initializeWebSocket] does when the callback closed over no
    socket: it returns a socket it has just created, still connecting;
    or it throws, when the constructor rejects the address; or it
    returns nothing, when a guard fails. *)
Lemma initializeWebSocket_outcome cl v :
  memo_wsConnection cl = None -> conns_fresh v ->
  let url := socket_address (envUrl v) (access_token v) in
  let r := fst (initializeWebSocket cl v) in
  let v' := snd (initializeWebSocket cl v) in
  if (isAuthenticated cl && is_some (problem cl) && address_usable url)%bool
  then if accepts_url v url
       then r = Returned (Some (next_conn v)) /\
            ws_open v' (Some (next_conn v)) = false /\
            conns v' = conns v ++ [{| conn_id := next_conn v; conn_url := url;
                                      conn_state := CONNECTING;
                                      conn_problem := problem cl |}]
       else r = Threw /\ conns v' = conns v
  else r = Returned None /\ conns v' = conns v.
Proof.
  intros Hm Hf. unfold initializeWebSocket. rewrite Hm.
  destruct v as [s rf m env tok ts ps cs lg nw nt nr nc acc]. unfold conns_fresh in Hf.
  unfold socket_address, address_usable.
  unfold_prims.
  cbn -[getWebSocketUrl Js.trim Js.truthy Js.strip_trailing_slash
        Js.encodeURIComponent Js.str_or_null String.eqb append] in *.
  destruct (isAuthenticated cl); cbn [negb orb andb]; [|split; reflexivity].
  destruct (problem cl) as [p|]; cbn [is_some negb orb andb]; [|split; reflexivity].
  rewrite getWebSocketUrl_not_blank.
  cbn -[getWebSocketUrl Js.trim Js.truthy Js.strip_trailing_slash
        Js.encodeURIComponent Js.str_or_null String.eqb append].
  set (url := match Js.str_or_null tok with
              | Some t => _
              | None => _
              end).
  destruct (negb (Js.truthy url) || String.eqb url "ws:///" || String.eqb url "wss:///")%bool;
    cbn -[getWebSocketUrl Js.trim Js.truthy Js.strip_trailing_slash
          Js.encodeURIComponent Js.str_or_null String.eqb append];
    [split; reflexivity|].
  destruct (acc url);
    cbn -[getWebSocketUrl Js.trim Js.truthy Js.strip_trailing_slash
          Js.encodeURIComponent Js.str_or_null String.eqb append];
    [|split; reflexivity].
  split; [reflexivity|]. split; [|destruct m; reflexivity].
  unfold ws_open, readyState.
  destruct m; cbn -[find_conn]; rewrite find_conn_fresh; first [reflexivity | exact Hf].
Qed.

Lemma request_resets_env m w :
  let w' := exec (request_resets m) w in
  envUrl w' = envUrl w /\ access_token w' = access_token w /\
  accepts_url w' = accepts_url w /\ next_conn w' = next_conn w /\
  mounted w' = mounted w.
Proof.
  unfold request_resets. unfold_prims.
  destruct w as [? ? mtd ? ? ? ? ? ? ? ? ? ? ?]; destruct m, mtd; cbn; repeat split.
Qed.

Lemma initializeWebSocket_flags cl : frames flags (initializeWebSocket cl).
Proof.
  unfold initializeWebSocket.
  split_segment ltac:(let w := fresh "w" in
                      intros w; unfold_prims; unfold flags;
                      destruct w as [? ? [|] ? ? ? ? ? ? ? ? ? ? ?]; cbn; break_match;
                      reflexivity).
Qed.

Lemma initializeWebSocket_pending cl : frames pending (initializeWebSocket cl).
Proof. unfold initializeWebSocket. frames_tac. Qed.

Lemma after_save_request_connects m cl v :
  memo_wsConnection cl = None -> conns_fresh v ->
  let v' := exec (after_save_request m cl) v in
  sent v' = sent v /\ calls v' = calls v /\ pending v' = pending v /\
  refs v' = refs v /\ connects m cl v v'.
Proof.
  intros Hm Hf v'. subst v'.
  change (after_save_request m cl)
    with (request_resets m ;;
          (outcome <- initializeWebSocket cl ;;
           match outcome with
           | Returned ws =>
               opened <- gets (fun w => ws_open w ws) ;;
               match ws, opened with
               | Some c, true => send_request m cl c
               | _, _ =>
                   console_error "WebSocket not connected, waiting for connection..." ;;
                   _ <- setTimeout (wait_callback m cl ws) CONNECT_WAIT_MS ;;
                   skip
               end
           | Threw => skip
           end)).
  rewrite exec_seq.
  destruct (request_resets_world m v) as (Ht & Hn & Hnow & Hlog & Hc & Hrefs & Hpend).
  destruct (request_resets_env m v) as (Henv & Htok & Hacc & Hnc & _).
  set (v1 := exec (request_resets m) v) in *.
  assert (Hf1 : conns_fresh v1).
  { intros x Hx. rewrite Hc in Hx. rewrite Hnc. now apply Hf. }
  rewrite exec_bind.
  pose proof (initializeWebSocket_outcome cl v1 Hm Hf1) as Hout. cbv zeta in Hout.
  pose proof (initializeWebSocket_tview cl v1) as Etv.
  pose proof (initializeWebSocket_sent cl v1) as Esent.
  pose proof (initializeWebSocket_now cl v1) as Enow.
  pose proof (initializeWebSocket_calls cl v1) as Ecalls.
  pose proof (initializeWebSocket_refs cl v1) as Erefs.
  pose proof (initializeWebSocket_pending cl v1) as Epend.
  set (r := fst (initializeWebSocket cl v1)) in *.
  set (v2 := snd (initializeWebSocket cl v1)) in *.
  unfold tview in Etv. injection Etv as Et2 En2 _.
  assert (Hsent1 : sent v1 = sent v) by (unfold sent; now rewrite Hlog).
  assert (Hcalls1 : calls v1 = calls v) by (unfold calls; now rewrite Hlog).
  rewrite Henv, Htok, Hacc, Hnc, Hc in Hout.
  unfold connects.
  destruct (isAuthenticated cl && is_some (problem cl)
            && address_usable (socket_address (envUrl v) (access_token v)))%bool;
    [destruct (accepts_url v (socket_address (envUrl v) (access_token v)))|].
  - destruct Hout as (Er & Hopen & Hconns). rewrite Er.
    rewrite exec_bind. cbn [gets fst snd]. rewrite Hopen.
    unfold sent, calls in *. unfold_prims. cbn. simpl_log.
    rewrite Esent, Hsent1, Ecalls, Hcalls1, Epend, Hpend, Erefs, Hrefs, Hconns.
    rewrite Et2, En2, Enow, Ht, Hn, Hnow. repeat split.
  - destruct Hout as (Er & Hconns). rewrite Er.
    change (exec skip v2) with v2.
    rewrite Esent, Hsent1, Ecalls, Hcalls1, Epend, Hpend, Erefs, Hrefs, Hconns, Et2, Ht.
    repeat split.
  - destruct Hout as (Er & Hconns). rewrite Er.
    rewrite exec_bind. cbn [gets fst snd ws_open readyState].
    unfold sent, calls in *. unfold_prims. cbn. simpl_log.
    rewrite Esent, Hsent1, Ecalls, Hcalls1, Epend, Hpend, Erefs, Hrefs, Hconns.
    rewrite Et2, En2, Enow, Ht, Hn, Hnow. repeat split.
Qed.

(** The tail of run / submit sets the busy flag of its handler and
    clears the output before it turns to the socket, and with no socket
    closed over nothing touches them afterwards. *)
Lemma after_save_request_busy m cl v :
  memo_wsConnection cl = None -> conns_fresh v -> mounted v = true ->
  let v' := exec (after_save_request m cl) v in
  match m with
  | ModeRun => executing (st v') = true /\ submitting (st v') = submitting (st v)
  | ModeSubmit => submitting (st v') = true /\ executing (st v') = executing (st v)
  end /\
  output (st v') = None.
Proof.
  intros Hm Hf Hmt v'. subst v'.
  change (after_save_request m cl)
    with (request_resets m ;;
          (outcome <- initializeWebSocket cl ;;
           match outcome with
           | Returned ws =>
               opened <- gets (fun w => ws_open w ws) ;;
               match ws, opened with
               | Some c, true => send_request m cl c
               | _, _ =>
                   console_error "WebSocket not connected, waiting for connection..." ;;
                   _ <- setTimeout (wait_callback m cl ws) CONNECT_WAIT_MS ;;
                   skip
               end
           | Threw => skip
           end)).
  rewrite exec_seq.
  destruct (request_resets_world m v) as (_ & _ & _ & _ & Hc & _ & _).
  destruct (request_resets_env m v) as (_ & _ & _ & Hnc & Hmt1).
  assert (Hflags :
    match m with
    | ModeRun => executing (st (exec (request_resets m) v)) = true /\
                 submitting (st (exec (request_resets m) v)) = submitting (st v)
    | ModeSubmit => submitting (st (exec (request_resets m) v)) = true /\
                    executing (st (exec (request_resets m) v)) = executing (st v)
    end /\ output (st (exec (request_resets m) v)) = None).
  { unfold request_resets. unfold_prims.
    destruct v as [? ? mtd ? ? ? ? ? ? ? ? ? ? ?]. cbn in Hmt. subst mtd.
    destruct m; cbn; repeat split. }
  set (v1 := exec (request_resets m) v) in *.
  assert (Hf1 : conns_fresh v1).
  { intros x Hx. rewrite Hc in Hx. rewrite Hnc. now apply Hf. }
  rewrite exec_bind.
  pose proof (initializeWebSocket_outcome cl v1 Hm Hf1) as Hout. cbv zeta in Hout.
  pose proof (initializeWebSocket_flags cl v1) as Efl.
  set (r := fst (initializeWebSocket cl v1)) in *.
  set (v2 := snd (initializeWebSocket cl v1)) in *.
  unfold flags in Efl. injection Efl as Ee Es Eo.
  assert (Hrest : forall ws, ws_open v2 ws = false ->
    flags (exec (opened <- gets (fun w => ws_open w ws) ;;
                 match ws, opened with
                 | Some c, true => send_request m cl c
                 | _, _ =>
                     console_error "WebSocket not connected, waiting for connection..." ;;
                     _ <- setTimeout (wait_callback m cl ws) CONNECT_WAIT_MS ;;
                     skip
                 end) v2) = flags v2).
  { intros ws Hopen. rewrite exec_bind. cbn [gets fst snd]. rewrite Hopen.
    destruct ws; apply (frames_exec flags); frames_tac. }
  assert (Hend : flags (exec (match r with
                              | Returned ws =>
                                  opened <- gets (fun w => ws_open w ws) ;;
                                  match ws, opened with
                                  | Some c, true => send_request m cl c
                                  | _, _ =>
                                      console_error
                                        "WebSocket not connected, waiting for connection..." ;;
                                      _ <- setTimeout (wait_callback m cl ws) CONNECT_WAIT_MS ;;
                                      skip
                                  end
                              | Threw => skip
                              end) v2) = flags v2).
  { destruct (isAuthenticated cl && is_some (problem cl) && address_usable _)%bool;
      [destruct (accepts_url v1 _)|].
    - destruct Hout as (Er & Hopen & _). rewrite Er. exact (Hrest _ Hopen).
    - destruct Hout as (Er & _). rewrite Er. reflexivity.
    - destruct Hout as (Er & _). rewrite Er. exact (Hrest None eq_refl). }
  unfold flags in Hend. injection Hend as Ee' Es' Eo'.
  rewrite Ee', Es', Eo', Ee, Es, Eo. exact Hflags.
Qed.

(** ** The locked language *)

Lemma lock_view w w' : kview w' = kview w -> lock_ok w -> lock_ok w'.
Proof.
  unfold kview. intros E [H1 H2]. injection E as Ep Es Ew.
  split; rewrite ?Ep, ?Es, ?Ew; assumption.
Qed.

Lemma frames_lock {A : Type} (m : M A) : frames kview m -> preserves lock_ok m.
Proof. intros F w H. eapply lock_view; [apply F | exact H]. Qed.

Ltac lock_leaf :=
  lazymatch goal with
  | |- frames _ ?m => is_primitive m
  end;
  intros [? ? [|] ? ? ? ? ? ? ? ? ? ? ?]; unfold_prims; unfold kview, watched; cbn;
  break_match; rewrite ?filter_app; cbn; rewrite ?app_nil_r; reflexivity.

Ltac lock_tac := intros; unfold_handlers; walk lock_leaf.

Lemma handlers_lock cl :
  (forall value, frames kview (handleCodeChange cl value)) /\
  frames kview (handleRunCode cl) /\
  frames kview (handleSubmitCode cl) /\
  frames kview (unmount_cleanup cl).
Proof. split; [|split; [|split]]; lock_tac. Qed.

Lemma run_callback_lock cb : frames kview (run_callback cb).
Proof. lock_tac. Qed.

Lemma ws_handlers_lock p data :
  frames kview ws_onopen /\ frames kview ws_onerror /\ frames kview ws_onclose /\
  frames kview (ws_onmessage p data).
Proof. repeat split; lock_tac. Qed.

Lemma resume_other_lock k r :
  is_watched k = false -> (forall cl langs, k <> KFetchProblem cl langs) ->
  frames kview (resume k r).
Proof.
  intros Hw Hk. destruct k as [| | | | | | | cl langs | |]; try discriminate Hw;
    try (now elim (Hk cl langs)); lock_tac.
Qed.

(** For a problem open to every language, whatever is selected is
    fine. *)
Lemma unlocked_any (pb : option Problem) sel p :
  pb = Some p -> prob_language p = None ->
  forall p' l, pb = Some p' -> prob_language p' = Some l -> sel = Some l.
Proof. intros -> Hn p' l E. injection E as <-. congruence. Qed.

Lemma language_switch_lock cl newLanguage w p :
  lock_ok w -> problem (st w) = Some p -> prob_language p = None ->
  lock_ok (exec (language_switch cl newLanguage) w).
Proof.
  intros [H1 H2] Hp Hn.
  destruct w as [s ? [|] ? ? ? ? ? ? ? ? ? ? ?]; unfold watched in *;
    unfold_handlers; unfold_prims; cbn in *; break_match;
    (split; unfold watched; cbn; rewrite ?filter_app; cbn; rewrite ?app_nil_r;
     [ first [ exact H1 | eapply unlocked_any; eassumption ] | exact H2 ]).
Qed.

Lemma handleLanguageChange_lock cl languageId w p :
  lock_ok w -> problem (st w) = Some p -> prob_language p = None ->
  lock_ok (exec (handleLanguageChange cl languageId) w).
Proof.
  intros H Hp Hn. unfold handleLanguageChange.
  destruct (find _ (languages cl)) as [newLanguage|]; [|exact H].
  destruct (negb (Js.truthy (slug cl))); [exact H|].
  assert (Hsave : forall rq,
            lock_ok (exec (http rq (KLangSave cl newLanguage)) w)).
  { intros rq. destruct H as [H1 H2].
    destruct w as [s ? ? ? ? ? ? ? ? ? ? ? ? ?]; unfold watched in *; unfold_prims; cbn in *.
    split; unfold watched; cbn; [exact H1|]. rewrite filter_app. cbn.
    apply Forall_app. split; [exact H2|]. constructor; [|constructor]. cbn.
    exists p. now split. }
  destruct (selectedLanguage cl); [destruct (isAuthenticated cl && nonblank (code cl))%bool|];
    first [ apply Hsave | now apply (language_switch_lock cl newLanguage w p) ].
Qed.

Lemma resume_switch_lock cl newLanguage r w p :
  lock_ok w -> problem (st w) = Some p -> prob_language p = None ->
  lock_ok (exec (resume (KLangSave cl newLanguage) r) w).
Proof.
  intros H Hp Hn. unfold resume. rewrite exec_seq.
  apply (language_switch_lock cl newLanguage _ p); [| | exact Hn].
  - apply frames_lock; [destruct r; lock_tac | exact H].
  - assert (F : frames kview (match r with
                               | RespError => console_error "Failed to save current code:"
                               | _ => skip
                               end)) by (destruct r; lock_tac).
    pose proof (F w) as E. unfold kview in E. injection E as E1 _ _.
    unfold exec. rewrite E1. exact Hp.
Qed.

Lemma resume_attempt_lock cl pd langs il r w :
  lock_ok w -> (forall p, problem (st w) = Some p -> p = pd) ->
  lock_ok (exec (resume (KFetchAttempt cl pd langs il) r) w).
Proof.
  intros [H1 H2] Hpd.
  destruct w as [s ? [|] ? ? ? ? ? ? ? ? ? ? ?]; unfold watched in *;
    destruct r; unfold_handlers; unfold_prims; cbn in *; break_match;
    (split; unfold watched; cbn; rewrite ?filter_app; cbn; rewrite ?app_nil_r;
     [ first [ exact H1
             | intros p' l' Hp' Hl'; rewrite (Hpd p' Hp') in Hl'; congruence ]
     | exact H2 ]).
Qed.

Lemma resume_problem_lock cl langs r w :
  problem (st w) = None -> watched w = [] ->
  lock_ok (exec (resume (KFetchProblem cl langs) r) w).
Proof.
  intros Hp Hw.
  destruct w as [s ? [|] ? ? ? ? ? ? ? ? ? ? ?]; unfold watched in *;
    destruct r; unfold_handlers; unfold_prims; cbn in *; break_match;
    (split; unfold watched; cbn; rewrite ?filter_app, ?Hw; cbn;
     [ first [ intros p' l' Hp'; congruence
             | intros p' l' Hp' Hl'; injection Hp' as <-; congruence ]
     | repeat constructor; cbn; congruence ]).
Qed.

Lemma watched_drop rid w :
  watched (with_pending (drop_pending rid (pending w)) w) =
  filter (fun p => negb (Pos.eqb (p_id p) rid)) (watched w).
Proof. unfold watched, drop_pending. cbn. apply filter_comm. Qed.

Lemma Forall_filter {A : Type} (P : A -> Prop) (f : A -> bool) (l : list A) :
  Forall P l -> Forall P (filter f l).
Proof.
  intros H. apply Forall_forall. intros x Hx. apply filter_In in Hx.
  rewrite Forall_forall in H. now apply H.
Qed.

Lemma lock_ok_drop rid w :
  lock_ok w -> lock_ok (with_pending (drop_pending rid (pending w)) w).
Proof.
  intros [H1 H2]. split; rewrite ?watched_drop; cbn; [exact H1|].
  now apply Forall_filter.
Qed.

Lemma watched_In w p :
  In p (pending w) -> is_watched (p_cont p) = true -> In p (watched w).
Proof. intros. unfold watched. now apply filter_In. Qed.

Lemma selector_shown_unlocked w :
  selector_shown w = true -> exists p, problem (st w) = Some p /\ prob_language p = None.
Proof.
  unfold selector_shown. intros H. apply andb_prop in H. destruct H as [_ H].
  destruct (problem (st w)) as [p|]; [|discriminate]. exists p. split; [reflexivity|].
  destruct (prob_language p); [discriminate | reflexivity].
Qed.

Lemma mount_lock auth sl env token accepts : lock_ok (mount auth sl env token accepts).
Proof. split; cbn; [discriminate | constructor]. Qed.

Lemma lock_closed : event_closed (fun w => load_ok w /\ lock_ok w).
Proof.
  pose proof load_closed as L.
  destruct (ws_handlers_lock None PayloadInvalid) as (Hopen & Herror & Hclose & _).
  split.
  - intros w value [H1 H2] Hs. split; [now apply (closed_edit _ L)|].
    now apply frames_lock; [apply handlers_lock|].
  - intros w [H1 H2] Hs Hd. split; [now apply (closed_run _ L)|].
    now apply frames_lock; [apply handlers_lock|].
  - intros w [H1 H2] Hs Hd. split; [now apply (closed_submit _ L)|].
    now apply frames_lock; [apply handlers_lock|].
  - intros w languageId [H1 H2] Hs. split; [now apply (closed_select _ L)|].
    destruct (selector_shown_unlocked w Hs) as (p & Hp & Hn).
    now apply (handleLanguageChange_lock _ _ w p).
  - intros w [H1 H2] Hm. split; [now apply (closed_unmount _ L)|].
    match goal with
    | |- lock_ok (with_mounted _ ?v) => apply (lock_view v); [reflexivity|]
    end.
    now apply frames_lock; [apply handlers_lock|].
  - intros w rid p r [H1 H2] Hf Hm. split; [now apply (closed_http _ L)|].
    pose proof (find_pending_In _ _ _ Hf) as Hin.
    pose proof (lock_ok_drop rid w H2) as H2'.
    destruct (p_cont p) as [| cl nl | | | | | | cl langs | cl pd langs il |] eqn:Hk.
    2: { assert (Hw : watch_ok (problem (st w)) (p_cont p)).
         { destruct H2 as [_ H2]. rewrite Forall_forall in H2. apply H2.
           apply watched_In; [exact Hin | now rewrite Hk]. }
         rewrite Hk in Hw. destruct Hw as (pb & Hp & Hn).
         now apply (resume_switch_lock cl nl r _ pb). }
    7: { apply resume_problem_lock.
         - cbn. apply (early_unloaded w H1 p); [|now rewrite Hk].
           unfold fetching. apply filter_In. split; [exact Hin | now rewrite Hk].
         - assert (Hnone : problem (st w) = None).
           { apply (early_unloaded w H1 p); [|now rewrite Hk].
             unfold fetching. apply filter_In. split; [exact Hin | now rewrite Hk]. }
           assert (Hfetch : fetching (with_pending (drop_pending rid (pending w)) w) = []).
           { apply (fetching_drop_found rid w p H1 Hf). now rewrite Hk. }
           destruct H2' as [_ H2'].
           destruct (watched (with_pending (drop_pending rid (pending w)) w))
             as [|q l] eqn:Ew; [reflexivity|exfalso].
           assert (Hq : In q (watched (with_pending (drop_pending rid (pending w)) w)))
             by (rewrite Ew; now left).
           unfold watched in Hq. apply filter_In in Hq. destruct Hq as [Hq1 Hq2].
           apply Forall_inv in H2'. cbn in H2'. rewrite Hnone in H2'.
           destruct (p_cont q) eqn:Eq; try discriminate Hq2.
           + destruct H2' as (pb & Hpb & _). discriminate Hpb.
           + assert (Hqf : In q (fetching (with_pending (drop_pending rid (pending w)) w))).
             { unfold fetching. apply filter_In. split; [exact Hq1 | now rewrite Eq]. }
             rewrite Hfetch in Hqf. destruct Hqf. }
    7: { assert (Hw : watch_ok (problem (st w)) (p_cont p)).
         { destruct H2 as [_ H2]. rewrite Forall_forall in H2. apply H2.
           apply watched_In; [exact Hin | now rewrite Hk]. }
         rewrite Hk in Hw. now apply resume_attempt_lock. }
    all: apply frames_lock; [|exact H2'];
      apply resume_other_lock; [reflexivity | discriminate].
  - intros w tm [H1 H2] Hin. split; [now apply (closed_fire _ L)|].
    unfold fire. unfold exec, bind.
    apply frames_lock; [apply run_callback_lock|].
    eapply lock_view; [|exact H2]. reflexivity.
  - intros w n [H1 H2]. split; [now apply (closed_clock _ L)|].
    eapply lock_view; [|exact H2]. reflexivity.
  - intros w c x [H1 H2] Hf Hc. split; [now apply (closed_open _ L w c x)|].
    apply frames_lock; [exact Hopen|].
    eapply lock_view; [|exact H2]. reflexivity.
  - intros w c x data [H1 H2] Hf Hc. split; [now apply (closed_message _ L w c x)|].
    apply frames_lock; [apply ws_handlers_lock | exact H2].
  - intros w c x [H1 H2] Hf Hc. split; [now apply (closed_error _ L w c x)|].
    apply frames_lock; [exact Herror | exact H2].
  - intros w c x [H1 H2] Hf Hc. split; [now apply (closed_close _ L w c x)|].
    apply frames_lock; [exact Hclose|].
    eapply lock_view; [|exact H2]. reflexivity.
Qed.

Lemma reachable_lock w : reachable w -> lock_ok w.
Proof.
  intros Hr.
  apply (reachable_closed (fun w => load_ok w /\ lock_ok w) lock_closed); [|exact Hr].
  intros. split; [apply mount_load | apply mount_lock].
Qed.

(** ** What the invariants give *)

Lemma fizz_reachable : reachable fizz_session.
Proof.
  apply (run_reachable
           [EvHttp 1%positive (RespLanguages [python; java]);
            EvHttp 2%positive (RespProblem fizz);
            EvHttp 3%positive (RespAttempt "print(1)" (Some 1%Z))]
           (mount true "fizz" None (Some "tok") lenient)); [apply reach_mount|].
  vm_compute. reflexivity.
Qed.




Lemma waiting_reachable : reachable waiting.
Proof.
  apply (run_reachable [EvClickRun; EvHttp 5%positive RespUpdated] loaded);
    [exact loaded_reachable | vm_compute; reflexivity].
Qed.




(** ** Sockets are closed by the other side only *)

Lemma frames_extends cs {A : Type} (m : M A) : frames conns m -> preserves (extends cs) m.
Proof. intros F w [more H]. exists more. now rewrite F. Qed.

Lemma newWebSocket_extends cs url p : preserves (extends cs) (newWebSocket url p).
Proof.
  intros w Hw. unfold newWebSocket. destruct (accepts_url w url); [|exact Hw].
  destruct Hw as [more H]. cbn. rewrite H, <- app_assoc. eexists. reflexivity.
Qed.

Ltac extends_leaf :=
  first [ apply newWebSocket_extends
        | apply frames_extends;
          lazymatch goal with
          | |- frames _ ?m => is_primitive m
          end;
          intros [? ? [|] ? ? ? ? ? ? ? ? ? ? ?]; unfold_prims; cbn;
          break_match; reflexivity ].

Ltac extends_tac := intros; unfold_handlers; walk extends_leaf.

Lemma handlers_extend cs cl :
  (forall value, preserves (extends cs) (handleCodeChange cl value)) /\
  preserves (extends cs) (handleRunCode cl) /\
  preserves (extends cs) (handleSubmitCode cl) /\
  (forall languageId, preserves (extends cs) (handleLanguageChange cl languageId)).
Proof. split; [|split; [|split]]; extends_tac. Qed.

Lemma resume_extends cs k r : preserves (extends cs) (resume k r).
Proof. extends_tac. Qed.

Lemma run_callback_extends cs cb : preserves (extends cs) (run_callback cb).
Proof. extends_tac. Qed.

Lemma quiet_handlers_conns cl p data :
  frames conns (unmount_cleanup cl) /\ frames conns ws_onopen /\
  frames conns ws_onerror /\ frames conns ws_onclose /\
  frames conns (ws_onmessage p data).
Proof.
  repeat split; intros; unfold_handlers;
    walk ltac:(lazymatch goal with
               | |- frames _ ?m => is_primitive m
               end;
               intros [? ? [|] ? ? ? ? ? ? ? ? ? ? ?]; unfold_prims; cbn;
               break_match; reflexivity).
Qed.

Lemma extends_refl w : extends (conns w) w.
Proof. exists []. now rewrite app_nil_r. Qed.

Lemma extends_live cs w c :
  extends cs w -> In c (map conn_id (filter live cs)) -> In c (live_conns w).
Proof.
  intros [more H] Hc. unfold live_conns. rewrite H, filter_app, map_app.
  apply in_or_app. now left.
Qed.

Lemma advance_extends ms w : extends (conns w) (advance ms w).
Proof.
  unfold advance.
  assert (H : extends (conns w) (fire_due (List.length (timers w)) (now w + ms) w)).
  { apply fire_due_ind; [|apply extends_refl].
    intros v tm Hv _ _. unfold fire. unfold exec, bind.
    apply run_callback_extends. exact Hv. }
  exact H.
Qed.

Lemma live_set_other c c' r cs :
  c <> c' -> In c (map conn_id (filter live cs)) ->
  In c (map conn_id (filter live (set_conn_state c' r cs))).
Proof.
  intros Hne. unfold set_conn_state. induction cs as [|x cs IH]; [auto|].
  cbn [map filter].
  destruct (Pos.eqb_spec (conn_id x) c') as [E|E].
  - intros Hc.
    assert (Hc' : In c (map conn_id (filter live cs))).
    { destruct (live x); [|exact Hc]. destruct Hc as [Hc|Hc]; [congruence | exact Hc]. }
    match goal with |- context [if ?b then _ else _] => destruct b end;
      [right|]; now apply IH.
  - destruct (live x); [|exact IH].
    intros [Hc|Hc]; [now left | right; now apply IH].
Qed.

Lemma live_set_open c c' cs :
  In c (map conn_id (filter live cs)) ->
  In c (map conn_id (filter live (set_conn_state c' OPEN cs))).
Proof.
  unfold set_conn_state. induction cs as [|x cs IH]; [auto|].
  cbn [map filter].
  destruct (Pos.eqb (conn_id x) c').
  - cbn. destruct (live x); [intros [Hc|Hc]; [now left | right; now apply IH]|].
    intros Hc. right. now apply IH.
  - destruct (live x); [|exact IH].
    intros [Hc|Hc]; [now left | right; now apply IH].
Qed.

(** Extra X7.  The page never closes a socket.  A socket that is connecting or
    open stays so through every event except its own close event, which
    comes from the other side; the cleanup of an unmount leaves every
    socket as it is. *)
Theorem sockets_are_never_closed_by_the_page :
  forall (ev : Event) (w w' : World) (c : ConnId),
    step ev w = Some w' -> In c (live_conns w) ->
    (ev <> EvWsClose c -> In c (live_conns w')) /\
    (ev = EvUnmount -> conns w' = conns w).
Proof.
  intros ev w w' c Hs Hc.
  destruct (quiet_handlers_conns (st w) None PayloadInvalid) as (Hu & Ho & He & Hcl & _).
  split.
  - intros Hne. destruct ev; unfold step in Hs.
    + injection Hs as <-. destruct (page_shown w); [|exact Hc].
      apply (extends_live (conns w)); [|exact Hc].
      apply handlers_extend, extends_refl.
    + injection Hs as <-.
      destruct (page_shown w && negb (run_disabled (st w)))%bool; [|exact Hc].
      apply (extends_live (conns w)); [|exact Hc].
      apply handlers_extend, extends_refl.
    + injection Hs as <-.
      destruct (page_shown w && negb (submit_disabled (st w)))%bool; [|exact Hc].
      apply (extends_live (conns w)); [|exact Hc].
      apply handlers_extend, extends_refl.
    + injection Hs as <-. destruct (selector_shown w); [|exact Hc].
      apply (extends_live (conns w)); [|exact Hc].
      apply handlers_extend, extends_refl.
    + destruct (mounted w); [|discriminate]. injection Hs as <-.
      unfold live_conns. cbn. unfold exec. rewrite Hu. exact Hc.
    + destruct (find_pending rid (pending w)) as [p|]; [|discriminate].
      destruct (resp_matches (p_req p) r); [|discriminate]. injection Hs as <-.
      apply (extends_live (conns w)); [|exact Hc].
      apply resume_extends. apply (extends_refl (with_pending _ w)).
    + injection Hs as <-. apply (extends_live (conns w)); [|exact Hc].
      apply advance_extends.
    + destruct (find_conn c0 (conns w)) as [x|]; [|discriminate].
      destruct (conn_state x); try discriminate. injection Hs as <-.
      unfold live_conns, exec. rewrite Ho. cbn. now apply live_set_open.
    + destruct (find_conn c0 (conns w)) as [x|]; [|discriminate].
      destruct (conn_state x); try discriminate. injection Hs as <-.
      destruct (quiet_handlers_conns (st w) (conn_problem x) data) as (_ & _ & _ & _ & Hm).
      unfold live_conns, exec. rewrite Hm. exact Hc.
    + destruct (find_conn c0 (conns w)) as [x|]; [|discriminate].
      destruct (conn_state x); try discriminate; injection Hs as <-;
        unfold live_conns, exec; rewrite He; exact Hc.
    + assert (Hcc : c <> c0) by congruence.
      destruct (find_conn c0 (conns w)) as [x|]; [|discriminate].
      destruct (conn_state x); try discriminate; injection Hs as <-;
        unfold live_conns, exec; rewrite Hcl; cbn; now apply live_set_other.
  - intros ->. unfold step in Hs. destruct (mounted w); [|discriminate].
    injection Hs as <-. cbn. unfold exec. now rewrite Hu.
Qed.

Lemma sockets_are_never_closed_by_the_page_witness :
  exists w',
    step EvUnmount waiting = Some w' /\
    In 1%positive (live_conns w') /\ conns w' = conns waiting.
Proof.
  destruct (step EvUnmount waiting) as [w'|] eqn:Hs; [|discriminate Hs].
  exists w'. split; [reflexivity|].
  destruct (sockets_are_never_closed_by_the_page EvUnmount waiting w' 1%positive Hs)
    as [H1 H2]; [left; reflexivity|].
  split; [apply H1; discriminate | now apply H2].
Defined.

(** ** Messages and socket events *)

Ltac quiet_leaf :=
  lazymatch goal with
  | |- frames _ ?m => is_primitive m
  end;
  intros [? ? [|] ? ? ? ? ? ? ? ? ? ? ?]; unfold_prims; unfold quiet_view, calls, sent; cbn;
  break_match; first [ reflexivity | simpl_log; reflexivity ].

Lemma ws_handlers_quiet p data :
  frames quiet_view ws_onopen /\ frames quiet_view ws_onerror /\
  frames quiet_view ws_onclose /\ frames quiet_view (ws_onmessage p data).
Proof. repeat split; intros; unfold_handlers; walk quiet_leaf. Qed.

(** Extra X8.  A message that parses to a value other than [null], received
    on an open socket of a mounted page, completes whatever request is
    outstanding: both busy flags are cleared, so the mode is [Idle]
    again, whichever handler set it.  An error message puts the error
    into [output] as the standard error of a run with exit code 1.  The
    message touches neither the code nor the selected language, timers,
    calls or sockets.  Data that does not parse, and the JSON text
    [null] (on which reading [message.error] throws), change nothing at
    all in the state: the busy flags stay as they are. *)
Theorem message_completes_request :
  forall (w w' : World) (c : ConnId) (data : Payload),
    mounted w = true -> step (EvWsMessage c data) w = Some w' ->
    quiet_view w' = quiet_view w /\
    match data with
    | PayloadValue message =>
        mode (st w') = Idle /\
        (forall err x,
           Js.str_or_null (msg_error message) = Some err ->
           find_conn c (conns w) = Some x ->
           output (st w') =
             Some {| er_language := problem_language_slug (conn_problem x);
                     er_version := "*";
                     er_run := Some {| ph_stdout := ""; ph_stderr := err; ph_code := 1;
                                       ph_signal := None; ph_output := "" |};
                     er_compile := None |})
    | PayloadInvalid | PayloadNull => st w' = st w
    end.
Proof.
  intros w w' c data Hm Hs. unfold step in Hs.
  destruct (find_conn c (conns w)) as [x|] eqn:Hf; [|discriminate].
  destruct (conn_state x); try discriminate. injection Hs as <-.
  split; [apply ws_handlers_quiet|].
  destruct w as [s ? mtd ? ? ? ? ? ? ? ? ? ? ?]. cbn in Hm. subst mtd.
  destruct data as [| |message]; [reflexivity | reflexivity |].
  unfold ws_onmessage, handleWebSocketMessage, mode.
  destruct (Js.str_or_null (msg_error message)) as [err|] eqn:He.
  - split; [reflexivity|]. intros err' x' E1 E2. injection E1 as <-. injection E2 as <-.
    reflexivity.
  - split; [|discriminate].
    destruct (msg_result message); [destruct (msg_mode message) as [md|];
      [destruct (String.eqb md "submit")|]|]; reflexivity.
Qed.

Lemma running_reachable : reachable running.
Proof.
  apply (run_reachable [EvWsOpen 1%positive; EvAdvance 500] waiting);
    [exact waiting_reachable | vm_compute; reflexivity].
Qed.

Lemma message_completes_request_witness :
  exists w',
    step (EvWsMessage 1%positive (PayloadValue failure_message)) running = Some w' /\
    mode (st running) = Running /\ mode (st w') = Idle /\
    output (st w') = Some (error_result "" "Execution timed out").
Proof.
  destruct (step (EvWsMessage 1%positive (PayloadValue failure_message)) running) as [w'|] eqn:Hs;
    [|discriminate Hs].
  exists w'. split; [reflexivity|]. split; [reflexivity|].
  destruct (message_completes_request running w' 1%positive (PayloadValue failure_message)
              eq_refl Hs) as (_ & Hidle & Hout).
  split; [exact Hidle|]. apply (Hout _ _ eq_refl eq_refl).
Defined.

(** ** A socket that closes under a request *)

Lemma strand_by_view e b w w' : strand_view w' = strand_view w -> stranded e b w -> stranded e b w'.
Proof.
  unfold strand_view. intros E [H1 H2 H3 H4 H5]. injection E as Ee Eb Ec Ew Es.
  split; unfold live_conns in *; rewrite ?Ee, ?Eb, ?Ec, ?Ew, ?Es; assumption.
Qed.

Lemma frames_stranded e b {A : Type} (m : M A) :
  frames strand_view m -> preserves (stranded e b) m.
Proof. intros F w H. eapply strand_by_view; [apply F | exact H]. Qed.

Ltac strand_leaf :=
  lazymatch goal with
  | |- frames _ ?m => is_primitive m
  end;
  intros [? ? [|] ? ? ? ? ? ? ? ? ? ? ?]; unfold_prims; unfold strand_view, waits, senders;
  cbn; break_match; rewrite ?filter_app; cbn; rewrite ?app_nil_r; reflexivity.

Lemma clearTimeout_stranded e b t : preserves (stranded e b) (clearTimeout t).
Proof.
  intros w [H1 H2 H3 H4 H5]. unfold_prims. split; cbn; try assumption.
  unfold waits in *. cbn. unfold drop_timer. rewrite filter_comm, H4. reflexivity.
Qed.

Ltac stranded_leaf :=
  first [ apply clearTimeout_stranded
        | apply frames_stranded; strand_leaf ].

Ltac strand_tac := intros; unfold_handlers; walk strand_leaf.

Ltac stranded_tac := intros; unfold_handlers; walk stranded_leaf.

Lemma handleCodeChange_stranded e b cl value :
  preserves (stranded e b) (handleCodeChange cl value).
Proof. stranded_tac. Qed.

Lemma handleLanguageChange_strand cl languageId :
  frames strand_view (handleLanguageChange cl languageId).
Proof. strand_tac. Qed.

Lemma unmount_cleanup_stranded e b cl : preserves (stranded e b) (unmount_cleanup cl).
Proof. stranded_tac. Qed.

Lemma resume_strand k r : is_sender k = false -> frames strand_view (resume k r).
Proof.
  intros Hs. destruct k as [silent [| cl | cl] | | | | | | | | |]; try discriminate Hs;
    strand_tac.
Qed.

Lemma debounce_strand c cl : frames strand_view (run_callback (CbDebounce c cl)).
Proof. strand_tac. Qed.

Lemma ws_error_strand : frames strand_view ws_onerror.
Proof. strand_tac. Qed.

Lemma ws_close_strand : frames strand_view ws_onclose.
Proof. strand_tac. Qed.

Lemma live_conns_nil_find w c x :
  live_conns w = [] -> find_conn c (conns w) = Some x -> live x = false.
Proof.
  unfold live_conns, find_conn. intros Hl Hf. apply find_some in Hf. destruct Hf as [Hin _].
  destruct (live x) eqn:E; [|reflexivity].
  assert (In x (filter live (conns w))) by (now apply filter_In).
  destruct (filter live (conns w)); [contradiction | discriminate Hl].
Qed.

Lemma live_conns_closed c cs :
  map conn_id (filter live cs) = [] ->
  map conn_id (filter live (set_conn_state c CLOSED cs)) = [].
Proof.
  unfold set_conn_state. induction cs as [|x cs IH]; [reflexivity|]. cbn [map filter].
  destruct (live x) eqn:Hx; [discriminate|]. intros H.
  destruct (Pos.eqb (conn_id x) c); cbn; rewrite ?Hx; now apply IH.
Qed.

Lemma stranded_closed e b : event_closed (stranded e b).
Proof.
  split.
  - intros w value H _. now apply handleCodeChange_stranded.
  - intros w [[He Hb] Hbusy _ _ _] _ Hd. exfalso.
    unfold run_disabled in Hd. rewrite He, Hb in Hd.
    destruct e, b; cbn in *; discriminate.
  - intros w [[He Hb] Hbusy _ _ _] _ Hd. exfalso.
    unfold submit_disabled in Hd. rewrite He, Hb in Hd.
    destruct e, b; cbn in *; discriminate.
  - intros w languageId H _. now apply frames_stranded; [apply handleLanguageChange_strand|].
  - intros w H _.
    match goal with
    | |- stranded _ _ (with_mounted _ ?v) => apply (strand_by_view e b v); [reflexivity|]
    end.
    now apply unmount_cleanup_stranded.
  - intros w rid p r H Hf _.
    assert (Hs : is_sender (p_cont p) = false).
    { destruct (is_sender (p_cont p)) eqn:E; [|reflexivity]. exfalso.
      assert (Hin : In p (senders w)).
      { unfold senders. apply filter_In. split; [now apply find_pending_In in Hf | exact E]. }
      rewrite (stranded_senders e b w H) in Hin. destruct Hin. }
    apply frames_stranded; [now apply resume_strand|].
    destruct H as [H1 H2 H3 H4 H5]. split; try assumption.
    rewrite senders_drop, H5. reflexivity.
  - intros w tm H Hin.
    assert (Hd : is_wait tm = false).
    { destruct (is_wait tm) eqn:E; [|reflexivity]. exfalso.
      assert (Hin' : In tm (waits w)) by (unfold waits; now apply filter_In).
      rewrite (stranded_waits e b w H) in Hin'. destruct Hin'. }
    unfold fire. unfold exec, bind.
    unfold is_wait, is_debounce in Hd. destruct (t_cb tm) as [c cl | |] eqn:Ecb;
      try discriminate Hd.
    apply frames_stranded; [apply debounce_strand|].
    destruct H as [H1 H2 H3 H4 H5]. split; try assumption.
    unfold waits in *. cbn. unfold drop_timer. rewrite filter_comm, H4. reflexivity.
  - intros w n H. eapply strand_by_view; [|exact H]. reflexivity.
  - intros w c x H Hf Hc. exfalso.
    pose proof (live_conns_nil_find w c x (stranded_sockets e b w H) Hf) as Hl.
    unfold live in Hl. rewrite Hc in Hl. discriminate.
  - intros w c x data H Hf Hc. exfalso.
    pose proof (live_conns_nil_find w c x (stranded_sockets e b w H) Hf) as Hl.
    unfold live in Hl. rewrite Hc in Hl. discriminate.
  - intros w c x H _ _. now apply frames_stranded; [apply ws_error_strand|].
  - intros w c x H _ _. apply frames_stranded; [apply ws_close_strand|].
    destruct H as [H1 H2 H3 H4 H5]. split; try assumption.
    unfold live_conns in *. cbn. now apply live_conns_closed.
Qed.

Lemma run_closed (I : World -> Prop) :
  event_closed I -> forall evs w w', run evs w = Some w' -> I w -> I w'.
Proof.
  intros C evs. induction evs as [|ev evs IH]; cbn; intros w w' Hr H.
  - injection Hr as <-. exact H.
  - destruct (step ev w) as [w1|] eqn:E; [|discriminate].
    apply (IH w1 w' Hr). exact (step_closed I C ev w w1 E H).
Qed.

(** Extra X9.  When the socket closes (or never opens) while a request is
    outstanding and nothing else is under way, the session never comes
    back to [Idle]: [onclose] does not clear the busy flags, and whatever
    happens afterwards (edits, language switches, saves that settle,
    timers, further socket events), the flags stay as they are and both
    buttons stay disabled. *)
Theorem closed_socket_strands_the_request :
  forall (e b : bool) (w : World) (evs : list Event) (w' : World),
    stranded e b w -> run evs w = Some w' ->
    stranded e b w' /\
    mode (st w') <> Idle /\
    run_disabled (st w') = true /\ submit_disabled (st w') = true.
Proof.
  intros e b w evs w' H Hr.
  pose proof (run_closed _ (stranded_closed e b) evs w w' Hr H) as H'.
  split; [exact H'|].
  destruct H' as [[He Hb] Hbusy _ _ _].
  unfold mode, run_disabled, submit_disabled. rewrite He, Hb.
  destruct e, b; cbn in *; repeat split; congruence.
Qed.

Lemma cut_off_stranded : stranded true false cut_off.
Proof. split; vm_compute; auto. Qed.

Lemma closed_socket_strands_the_request_witness :
  exists w',
    run [EvCodeChange (Some "x"); EvAdvance 5000; EvClickRun] cut_off = Some w' /\
    mode (st w') <> Idle /\ run_disabled (st w') = true.
Proof.
  destruct (run [EvCodeChange (Some "x"); EvAdvance 5000; EvClickRun] cut_off)
    as [w'|] eqn:Hr; [|discriminate Hr].
  exists w'. split; [reflexivity|].
  destruct (closed_socket_strands_the_request true false cut_off _ w' cut_off_stranded Hr)
    as (_ & H1 & H2 & _).
  split; assumption.
Defined.

(** ** The alert of [handleSubmitCode] *)

Lemma alerts_of_app a b : alerts_of (a ++ b) = alerts_of a ++ alerts_of b.
Proof.
  induction a as [|e a IH]; [reflexivity|].
  destruct e; cbn; try exact IH. now rewrite IH.
Qed.

Ltac alerts_leaf :=
  lazymatch goal with
  | |- frames _ ?m => is_primitive m
  end;
  intros [? ? [|] ? ? ? ? ? ? ? ? ? ? ?]; unfold_prims; unfold alerts; cbn;
  break_match; rewrite ?alerts_of_app; cbn; rewrite ?app_nil_r; reflexivity.

Ltac alerts_tac := intros; unfold_handlers; walk alerts_leaf.

Lemma handlers_alerts cl :
  (forall value, frames alerts (handleCodeChange cl value)) /\
  frames alerts (handleRunCode cl) /\
  (forall languageId, frames alerts (handleLanguageChange cl languageId)) /\
  frames alerts (unmount_cleanup cl).
Proof. split; [|split; [|split]]; alerts_tac. Qed.

Lemma handleSubmitCode_alerts cl :
  isAuthenticated cl = true -> frames alerts (handleSubmitCode cl).
Proof. intros H. unfold handleSubmitCode. rewrite H. alerts_tac. Qed.

Lemma resume_alerts k r : frames alerts (resume k r).
Proof. alerts_tac. Qed.

Lemma run_callback_alerts cb : frames alerts (run_callback cb).
Proof. alerts_tac. Qed.

Lemma ws_handlers_alerts p data :
  frames alerts ws_onopen /\ frames alerts ws_onerror /\ frames alerts ws_onclose /\
  frames alerts (ws_onmessage p data).
Proof. repeat split; alerts_tac. Qed.

Lemma alerts_closed : event_closed (fun w => alerts w = []).
Proof.
  destruct (ws_handlers_alerts None PayloadInvalid) as (Hopen & Herror & Hclose & _).
  split.
  - intros w value H _. unfold exec. now rewrite (proj1 (handlers_alerts (st w))).
  - intros w H _ _. unfold exec. now rewrite (proj1 (proj2 (handlers_alerts (st w)))).
  - intros w H _ Hd. unfold exec. rewrite handleSubmitCode_alerts; [exact H|].
    unfold submit_disabled in Hd. destruct (isAuthenticated (st w)); [reflexivity|].
    cbn in Hd. rewrite !orb_true_r in Hd. discriminate.
  - intros w languageId H _. unfold exec.
    now rewrite (proj1 (proj2 (proj2 (handlers_alerts (st w))))).
  - intros w H _. unfold alerts. cbn. unfold exec.
    pose proof (proj2 (proj2 (proj2 (handlers_alerts (st w)))) w) as E.
    unfold alerts in E. now rewrite E.
  - intros w rid p r H _ _. unfold exec. now rewrite resume_alerts.
  - intros w tm H _. unfold fire. unfold exec, bind. now rewrite run_callback_alerts.
  - intros w n H. exact H.
  - intros w c x H _ _. unfold exec. now rewrite Hopen.
  - intros w c x data H _ _. unfold exec.
    now rewrite (proj2 (proj2 (proj2 (ws_handlers_alerts (conn_problem x) data)))).
  - intros w c x H _ _. unfold exec. now rewrite Herror.
  - intros w c x H _ _. unfold exec. now rewrite Hclose.
Qed.

(** Extra X10.  The alert of [handleSubmitCode] (please log in) is never
    shown: the Submit button is disabled for a user who is not logged in,
    so the handler runs for logged-in users only. *)
Theorem login_alert_is_never_shown :
  forall w : World, reachable w -> alerts w = [].
Proof.
  apply (reachable_closed (fun w => alerts w = []) alerts_closed). reflexivity.
Qed.

Lemma login_alert_is_never_shown_witness : alerts visitor = [].
Proof. exact (login_alert_is_never_shown visitor visitor_reachable). Defined.

(** ** Run and submit, from the click to the request *)

Lemma settle_env silent r w :
  let w' := exec (match r with
                  | RespError => console_error "Failed to save attempt:"
                  | _ => t <- gets now ;; setSavedAt (Some t)
                  end ;; when (negb silent) (setSaving false)) w in
  calls w' = calls w /\ pending w' = pending w /\ refs w' = refs w /\
  next_conn w' = next_conn w /\ envUrl w' = envUrl w /\
  access_token w' = access_token w /\ accepts_url w' = accepts_url w /\
  mounted w' = mounted w.
Proof.
  unfold calls. unfold_prims.
  destruct w as [? ? mtd ? ? ? ? ? ? ? ? ? ? ?].
  destruct r, silent, mtd; cbn; simpl_log; repeat split.
Qed.

(** The awaited save of run / submit settles, either way: no call is
    made and nothing is sent; the handler turns to the socket. *)
Lemma save_settled_connects m cl r v :
  memo_wsConnection cl = None -> conns_fresh v ->
  let k := match m with ModeRun => ASRun cl | ModeSubmit => ASSubmit cl end in
  let v' := exec (resume (KSaveAttempt true k) r) v in
  calls v' = calls v /\ sent v' = sent v /\ connects m cl v v'.
Proof.
  intros Hm Hf k v'. subst v'. unfold resume, saveAttempt_settled.
  change (exec _ v) with
    (exec (after_save k)
       (exec (match r with
              | RespError => console_error "Failed to save attempt:"
              | _ => t <- gets now ;; setSavedAt (Some t)
              end ;; when (negb true) (setSaving false)) v)).
  destruct (settle_world true r v) as (Es & Et & En & Enow & Ec).
  destruct (settle_env true r v) as (Ecalls & _ & _ & Enc & Eenv & Etok & Eacc & _).
  set (v0 := exec _ v) in *.
  assert (E : after_save k = after_save_request m cl) by (subst k; destruct m; reflexivity).
  rewrite E.
  assert (Hf0 : conns_fresh v0).
  { intros x Hx. rewrite Ec in Hx. rewrite Enc. now apply Hf. }
  destruct (after_save_request_connects m cl v0 Hm Hf0) as (H1 & H2 & _ & _ & H5).
  rewrite H1, H2, Es, Ecalls. split; [reflexivity|]. split; [reflexivity|].
  unfold connects in *. now rewrite Eenv, Etok, Eacc, Enc, Ec, Et, En, Enow in H5.
Qed.

Lemma connects_debounce m cl v v' :
  connects m cl v v' -> pending_debounce v' = pending_debounce v.
Proof.
  unfold connects, pending_debounce. intros H.
  destruct (_ && _ && _)%bool; [destruct (accepts_url v _)|];
    destruct H as [_ ->]; rewrite ?filter_app; cbn; destruct m; cbn;
    rewrite ?app_nil_r; reflexivity.
Qed.

Lemma cancel_debounce_env w :
  let w' := exec cancel_debounce w in
  next_conn w' = next_conn w /\ envUrl w' = envUrl w /\
  access_token w' = access_token w /\ accepts_url w' = accepts_url w.
Proof.
  unfold cancel_debounce. unfold_prims.
  destruct w as [? r ? ? ? ? ? ? ? ? ? ? ? ?]. destruct r as [[id|] ? ? ?]; cbn;
    repeat split.
Qed.

(** The click on Run when the user is not logged in or the code is not
    initialized: the debounce is cancelled, no call is made, and the
    handler turns to the socket at once. *)
Lemma click_run_without_save w l p :
  reachable w -> page_shown w = true -> run_disabled (st w) = false ->
  selectedLanguage (st w) = Some l -> problem (st w) = Some p ->
  (isAuthenticated (st w) && codeInitializedRef (refs w))%bool = false ->
  exists w1,
    step EvClickRun w = Some w1 /\
    pending_debounce w1 = [] /\ saveTimeoutRef (refs w1) = None /\
    sent w1 = sent w /\ calls w1 = calls w /\
    connects ModeRun (st w) (exec cancel_debounce w) w1.
Proof.
  intros Hr Hps Hrd Hl Hp Hc.
  pose proof (reachable_timers_ok w Hr) as Hok.
  pose proof (memo_null w (reachable_memo w Hr)) as Hm.
  pose proof (reachable_conns w Hr) as Hf.
  unfold step. rewrite Hps, Hrd. cbn [negb andb]. eexists; split; [reflexivity|].
  unfold handleRunCode. rewrite Hl, Hp, exec_seq.
  pose proof (cancel_debounce_clears Hok) as Hclear.
  destruct (cancel_debounce_world w)
    as (_ & _ & _ & Econns & _ & _ & Ecalls & Esent & Eref & Einit & _ & _ & _).
  destruct (cancel_debounce_env w) as (Enc & _).
  set (w0 := exec cancel_debounce w) in *.
  rewrite exec_bind. cbn [gets fst snd]. rewrite Einit, Hc.
  assert (Hf0 : conns_fresh w0).
  { intros x Hx. rewrite Econns in Hx. rewrite Enc. now apply Hf. }
  destruct (after_save_request_connects ModeRun (st w) w0 Hm Hf0)
    as (H1 & H2 & _ & H4 & H5).
  rewrite (connects_debounce _ _ _ _ H5), H4, H1, H2, Esent, Ecalls.
  repeat split; first [assumption | reflexivity].
Qed.

(** Once no debounce timer is pending, nothing but a user action issues
    a persistence call. *)
Lemma no_save_without_user w evs w' :
  pending_debounce w = [] -> Forall (fun ev => may_save ev = false) evs ->
  run evs w = Some w' ->
  (List.length (saves w') <= List.length (saves w))%nat.
Proof.
  intros Hd Hevs Hrun. destruct (run_budget evs w w' Hrun) as [H _].
  assert (E : count_events may_save evs = 0%nat).
  { clear - Hevs. unfold count_events.
    induction Hevs as [|ev evs Hev _ IH]; [reflexivity|].
    cbn [filter]. rewrite Hev. exact IH. }
  unfold save_budget in H. rewrite Hd, E in H. cbn in H. lia.
Qed.

Lemma after_wait_calls m cl ws : frames calls (after_wait m cl ws).
Proof.
  unfold after_wait.
  split_segment ltac:(first [ apply send_request_calls | frame_prim ]).
Qed.



(** ** Submit *)

Lemma click_submit_saves_first w l p :
  timers_ok w -> page_shown w = true -> submit_disabled (st w) = false ->
  selectedLanguage (st w) = Some l -> problem (st w) = Some p ->
  codeInitializedRef (refs w) = true -> slug (st w) <> "" ->
  exists w1,
    step EvClickSubmit w = Some w1 /\
    pending_debounce w1 = [] /\ saveTimeoutRef (refs w1) = None /\
    calls w1 = calls w ++
      [ReqAttemptUpdate (slug (st w)) (Some (code (st w))) (Some (lang_id l))] /\
    pending w1 = pending w ++
      [{| p_id := next_req w;
          p_req := ReqAttemptUpdate (slug (st w)) (Some (code (st w))) (Some (lang_id l));
          p_cont := KSaveAttempt true (ASSubmit (st w)) |}] /\
    st w1 = st w /\ sent w1 = sent w /\ conns w1 = conns w.
Proof.
  intros Hok Hps Hsd Hl Hp Hi Hs.
  assert (Ha : isAuthenticated (st w) = true).
  { unfold submit_disabled in Hsd. destruct (isAuthenticated (st w)); [reflexivity|].
    cbn in Hsd. rewrite !orb_true_r in Hsd. discriminate. }
  unfold step. rewrite Hps, Hsd. cbn [negb andb]. eexists; split; [reflexivity|].
  unfold handleSubmitCode. rewrite Hl, Hp, Ha. cbn [negb]. rewrite exec_seq.
  pose proof (cancel_debounce_clears Hok) as Hclear.
  destruct (cancel_debounce_world w)
    as (Est & _ & Epend & Econns & _ & Ereq & Ecalls & Esent & Eref & Einit & _ & _ & Etimers).
  set (w1 := exec cancel_debounce w) in *.
  rewrite exec_bind. cbn [gets fst snd]. rewrite Einit, Hi.
  rewrite (saveAttempt_issues _ _ _ Hl Hp Ha Hs). cbn [negb when]. rewrite exec_seq.
  change (exec skip w1) with w1.
  match goal with |- context [exec (http ?rq ?k) w1] =>
    destruct (http_world rq k w1) as (Hst & Hrefs & _ & Ht & Hc & _ & Hcalls & Hsent & Hpend)
  end.
  unfold pending_debounce in *.
  rewrite Ht, Hrefs, Hcalls, Hpend, Hst, Hsent, Hc, Ecalls, Epend, Est, Esent, Econns, Ereq.
  repeat split; assumption.
Qed.



(** ** A constructor that throws *)

Lemma misconfigured_reachable : reachable misconfigured.
Proof.
  apply (run_reachable load_events
           (mount true "two-sum" (Some "ws://a b") (Some "tok") strict));
    [apply reach_mount | vm_compute; reflexivity].
Qed.

Lemma thrown_stranded :
  stranded true false (after [EvClickRun; EvHttp 5%positive RespUpdated] misconfigured).
Proof. split; vm_compute; auto. Qed.

(** Claim C6 fails where the [WebSocket] constructor throws.  With
    [VITE_WS_URL] set to [ws://a b], the address passes every check of
    [getWebSocketUrl] and [initializeWebSocket], and the constructor
    rejects it.  The user clicks Run and the silent save settles: the
    handler has set [executing], and the exception ends it there.  No
    socket exists, no wait is armed, nothing is pending and nothing was
    sent, so the connection never opens; yet no connectivity error is
    put into [output] and the session is never [Idle] again, whatever
    happens afterwards: both buttons stay disabled. *)
Theorem constructor_throw_leaves_running :
  socket_address (envUrl misconfigured) (access_token misconfigured)
    = "ws://a b/execute/?token=tok" /\
  mode (st misconfigured) = Idle /\
  exists w,
    run [EvClickRun; EvHttp 5%positive RespUpdated] misconfigured = Some w /\
    mode (st w) = Running /\ output (st w) = None /\
    conns w = [] /\ timers w = [] /\ pending w = [] /\ sent w = [] /\
    forall (evs : list Event) (w' : World),
      run evs w = Some w' ->
      mode (st w') <> Idle /\
      run_disabled (st w') = true /\ submit_disabled (st w') = true.
Proof.
  split; [vm_compute; reflexivity|]. split; [reflexivity|].
  exists (after [EvClickRun; EvHttp 5%positive RespUpdated] misconfigured).
  split; [vm_compute; reflexivity|].
  split; [vm_compute; reflexivity|]. split; [vm_compute; reflexivity|].
  split; [vm_compute; reflexivity|]. split; [vm_compute; reflexivity|].
  split; [vm_compute; reflexivity|]. split; [vm_compute; reflexivity|].
  intros evs w' Hrun.
  pose proof (run_closed (stranded true false) (stranded_closed true false)
                evs _ w' Hrun thrown_stranded) as [[He Hb] _ _ _ _].
  unfold mode, run_disabled, submit_disabled. rewrite He, Hb. cbn.
  split; [discriminate | split; reflexivity].
Qed.

(** After Run and Submit were both accepted (claim C1), the end of the
    run's wait clears [executing] only: the connectivity error is shown
    while the session is still [Submitting]. *)
Lemma wait_expiry_while_submitting :
  exists w,
    run overlap_events loaded = Some w /\
    output (st w) = Some (error_result "python" connect_failure) /\
    executing (st w) = false /\ mode (st w) = Submitting.
Proof.
  exists (after overlap_events loaded). vm_compute. repeat split.
Qed.

(** ** The saving indicator *)

Lemma after_save_indicator k : frames indicator (after_save k).
Proof.
  intros; unfold_handlers;
    walk ltac:(lazymatch goal with
               | |- frames _ ?m => is_primitive m
               end;
               intros [? ? [|] ? ? ? ? ? ? ? ? ? ? ?]; unfold_prims; unfold indicator; cbn;
               break_match; reflexivity).
Qed.

(** Extra X13.  A save that is not silent (the debounced auto-save) turns the
    saving indicator on when the call goes out and off when the call
    settles, fulfilled or rejected; a silent save (run, submit) leaves
    the indicator alone.  [savedAt] becomes the time the call settled
    when it was fulfilled, and is left as it was when it was rejected. *)
Theorem save_indicator :
  forall (cl : State) (c : string) (silent : bool) (k : AfterSave)
         (l : ProgrammingLanguage) (p : Problem) (v : World),
    mounted v = true ->
    selectedLanguage cl = Some l -> problem cl = Some p ->
    isAuthenticated cl = true -> slug cl <> "" ->
    saving (st (exec (saveAttempt cl c silent k) v))
      = (if silent then saving (st v) else true) /\
    forall (r : Response) (v2 : World),
      mounted v2 = true ->
      let v3 := exec (resume (KSaveAttempt silent k) r) v2 in
      saving (st v3) = (if silent then saving (st v2) else false) /\
      savedAt (st v3) = match r with
                        | RespError => savedAt (st v2)
                        | _ => Some (now v2)
                        end.
Proof.
  intros cl c silent k l p v Hm Hl Hp Ha Hs. split.
  - rewrite (saveAttempt_issues c silent k Hl Hp Ha Hs).
    destruct v as [? ? mtd ? ? ? ? ? ? ? ? ? ? ?]. cbn in Hm. subst mtd.
    destruct silent; reflexivity.
  - intros r v2 Hm2 v3. subst v3. unfold resume, saveAttempt_settled.
    change (exec _ v2) with
      (exec (after_save k)
         (exec (match r with
                | RespError => console_error "Failed to save attempt:"
                | _ => t <- gets now ;; setSavedAt (Some t)
                end ;; when (negb silent) (setSaving false)) v2)).
    pose proof (after_save_indicator k) as F.
    match goal with
    | |- context [exec (after_save k) ?v0] =>
        pose proof (F v0) as E; set (w0 := v0) in *
    end.
    unfold indicator in E. injection E as E1 E2 _.
    change (exec (after_save k) w0) with (snd (after_save k w0)). rewrite E1, E2.
    subst w0. destruct v2 as [? ? mtd ? ? ? ? ? ? ? ? ? ? ?]. cbn in Hm2. subst mtd.
    destruct r, silent; split; reflexivity.
Qed.

Lemma save_indicator_witness :
  saving (st (exec (saveAttempt (st loaded) "x" false ASDetached) loaded)) = true.
Proof.
  apply (save_indicator (st loaded) "x" false ASDetached python two_sum loaded);
    try reflexivity. discriminate.
Defined.

(** ** The initial load *)

Lemma not_found_view w w' : lview w' = lview w -> not_found w -> not_found w'.
Proof.
  unfold lview, not_found. intros E H. injection E as _ Ep _ Ef. now rewrite Ep, Ef.
Qed.

Lemma frames_not_found {A : Type} (m : M A) : frames lview m -> preserves not_found m.
Proof. intros F w H. eapply not_found_view; [apply F | exact H]. Qed.

Lemma not_found_closed : event_closed not_found.
Proof.
  destruct (ws_handlers_load None PayloadInvalid) as (Hopen & Herror & Hclose & _).
  split.
  - intros w value H _. now apply frames_not_found; [apply handleCodeChange_load|].
  - intros w H _ _. now apply frames_not_found; [apply handleRunCode_load|].
  - intros w H _ _. now apply frames_not_found; [apply handleSubmitCode_load|].
  - intros w languageId H _. now apply frames_not_found; [apply handleLanguageChange_load|].
  - intros w H _.
    match goal with
    | |- not_found (with_mounted _ ?v) => apply (not_found_view v); [reflexivity|]
    end.
    now apply frames_not_found; [apply unmount_cleanup_load|].
  - intros w rid p r [Hp Hf] Hfind _.
    assert (Hk : is_fetch (p_cont p) = false).
    { destruct (is_fetch (p_cont p)) eqn:E; [|reflexivity]. exfalso.
      assert (Hin : In p (fetching w)).
      { unfold fetching. apply filter_In. split; [now apply find_pending_In in Hfind | exact E]. }
      rewrite Hf in Hin. destruct Hin. }
    apply frames_not_found; [now apply resume_other_load|].
    split; [exact Hp|]. rewrite fetching_drop, Hf. reflexivity.
  - intros w tm H _. unfold fire. unfold exec, bind.
    apply frames_not_found; [apply run_callback_load|].
    eapply not_found_view; [|exact H]. reflexivity.
  - intros w n H. exact H.
  - intros w c x H _ _. apply frames_not_found; [exact Hopen|].
    eapply not_found_view; [|exact H]. reflexivity.
  - intros w c x data H _ _. now apply frames_not_found; [apply ws_handlers_load|].
  - intros w c x H _ _. now apply frames_not_found; [exact Herror|].
  - intros w c x H _ _. apply frames_not_found; [exact Hclose|].
    eapply not_found_view; [|exact H]. reflexivity.
Qed.

(** Extra X14.  When the language list or the problem cannot be fetched, the
    initial load stops there: no further call is made, [loading] is
    turned off, and the page proper is never shown, whatever happens
    afterwards.  In particular the problem is not requested when the
    language list fails. *)
Theorem failed_load_is_final :
  forall (auth : bool) (sl : string) (env token : option string)
         (accepts : string -> bool)
         (langs : list ProgrammingLanguage) (early : bool),
    let failure :=
      if early then [EvHttp 1%positive RespError]
      else [EvHttp 1%positive (RespLanguages langs); EvHttp 2%positive RespError] in
    exists w,
      run failure (mount auth sl env token accepts) = Some w /\
      loading (st w) = false /\ pending w = [] /\
      calls w = (if early then [ReqLanguagesList]
                 else [ReqLanguagesList; ReqProblemGet sl]) /\
      forall evs w', run evs w = Some w' -> page_shown w' = false /\ problem (st w') = None.
Proof.
  intros auth sl env token accepts langs early failure. subst failure.
  assert (Hfinal : forall w, not_found w ->
            forall evs w', run evs w = Some w' ->
                           page_shown w' = false /\ problem (st w') = None).
  { intros w H evs w' Hr.
    destruct (run_closed _ not_found_closed evs w w' Hr H) as [Hp _].
    split; [|exact Hp]. unfold page_shown. rewrite Hp. apply andb_false_r. }
  destruct early; eexists; (split; [cbv; reflexivity|]);
    (split; [reflexivity|]); (split; [reflexivity|]); (split; [reflexivity|]);
    apply Hfinal; split; reflexivity.
Qed.

(** An awaited call settles: its continuation runs. *)
Lemma step_http rid r w p :
  find_pending rid (pending w) = Some p -> resp_matches (p_req p) r = true ->
  step (EvHttp rid r) w =
  Some (exec (resume (p_cont p) r) (with_pending (drop_pending rid (pending w)) w)).
Proof. intros Hf Hm. unfold step. now rewrite Hf, Hm. Qed.

Lemma resume_fetch_languages cl langs v :
  mounted v = true ->
  load_parts (exec (resume (KFetchLanguages cl) (RespLanguages langs)) v) =
  (true, with_languages langs (st v), refs v,
   pending v ++ [{| p_id := next_req v; p_req := ReqProblemGet (slug cl);
                    p_cont := KFetchProblem cl langs |}],
   calls v ++ [ReqProblemGet (slug cl)], Pos.succ (next_req v)).
Proof.
  intros Hm. destruct v as [? ? mtd ? ? ? ? ? ? ? ? ? ? ?]. cbn in Hm. subst mtd.
  unfold load_parts, calls. cbn. simpl_log. reflexivity.
Qed.

Lemma resume_fetch_problem cl langs p il v :
  mounted v = true -> isAuthenticated cl = true ->
  match prob_language p with Some l => Some l | None => hd_error langs end = Some il ->
  load_parts (exec (resume (KFetchProblem cl langs) (RespProblem p)) v) =
  (true,
   with_selectedLanguage (Some il)
     (with_memo_wsConnection (wsConnection (st v)) (with_problem (Some p) (st v))),
   with_currentProblemRef (Some p) (refs v),
   pending v ++ [{| p_id := next_req v; p_req := ReqAttemptGet (slug cl) (lang_id il);
                    p_cont := KFetchAttempt cl p langs il |}],
   calls v ++ [ReqAttemptGet (slug cl) (lang_id il)], Pos.succ (next_req v)).
Proof.
  intros Hm Ha Hil. destruct v as [? ? mtd ? ? ? ? ? ? ? ? ? ? ?]. cbn in Hm. subst mtd.
  unfold load_parts, calls, resume. rewrite Hil, Ha. cbn. simpl_log. reflexivity.
Qed.

Lemma resume_fetch_attempt cl langs p il c a v :
  mounted v = true -> selectedLanguage (st v) = Some il ->
  let chosen := chosen_language p langs il a in
  load_parts (exec (resume (KFetchAttempt cl p langs il) (RespAttempt c a)) v) =
  if nonblank c
  then (true,
        with_loading false (with_code c (with_selectedLanguage (Some chosen) (st v))),
        with_codeInitializedRef true (with_currentCodeRef c (refs v)),
        pending v, calls v, next_req v)
  else (true, with_selectedLanguage (Some chosen) (st v), refs v,
        pending v ++ [{| p_id := next_req v;
                         p_req := ReqBoilerplate (slug cl) (lang_slug chosen);
                         p_cont := KFetchBoilerplate chosen |}],
        calls v ++ [ReqBoilerplate (slug cl) (lang_slug chosen)], Pos.succ (next_req v)).
Proof.
  intros Hm Hsel chosen. subst chosen. unfold chosen_language.
  destruct v as [s ? mtd ? ? ? ? ? ? ? ? ? ? ?]. cbn in Hm, Hsel. subst mtd.
  unfold load_parts, calls, resume.
  destruct (prob_language p) as [l|];
    [|destruct (Js.num_or_undefined a) as [x|];
      [destruct (find (fun l => Z.eqb (lang_id l) x) langs) as [l|]|]];
    destruct (nonblank c); cbn; simpl_log;
    try (destruct s; cbn in *; subst; reflexivity).
Qed.

Lemma resume_fetch_boilerplate l r v :
  mounted v = true -> resp_matches (ReqBoilerplate "" "") r = true ->
  let c := match r with RespBoilerplate b => b | _ => lang_boilerplate l end in
  load_parts (exec (resume (KFetchBoilerplate l) r) v) =
  (true, with_loading false (with_code c (st v)),
   with_codeInitializedRef true (with_currentCodeRef c (refs v)),
   pending v, calls v, next_req v).
Proof.
  intros Hm Hr c. subst c. destruct v as [? ? mtd ? ? ? ? ? ? ? ? ? ? ?]. cbn in Hm. subst mtd.
  unfold load_parts, calls.
  destruct r; try discriminate Hr; cbn; simpl_log; reflexivity.
Qed.

Lemma parts_inv w m s r p c n :
  load_parts w = (m, s, r, p, c, n) ->
  mounted w = m /\ st w = s /\ refs w = r /\ pending w = p /\ calls w = c /\
  next_req w = n.
Proof. unfold load_parts. intros H. injection H as -> -> -> -> -> ->. repeat split. Qed.

Lemma mount_parts auth sl env token accepts :
  load_parts (mount auth sl env token accepts) =
  (true, initial_state auth sl, initial_refs,
   [{| p_id := 1%positive; p_req := ReqLanguagesList;
       p_cont := KFetchLanguages (initial_state auth sl) |}],
   [ReqLanguagesList], 2%positive).
Proof. reflexivity. Qed.

(** The only awaited call settles. *)
Lemma step_single rid r w q :
  pending w = [q] -> p_id q = rid -> resp_matches (p_req q) r = true ->
  exists v,
    step (EvHttp rid r) w = Some (exec (resume (p_cont q) r) v) /\
    load_parts v = (mounted w, st w, refs w, [], calls w, next_req w).
Proof.
  intros Hp Hq Hr. exists (with_pending (drop_pending rid (pending w)) w). split.
  - apply step_http; [|exact Hr]. rewrite Hp. unfold find_pending. cbn.
    subst rid. now rewrite Pos.eqb_refl.
  - rewrite Hp. destruct w. unfold load_parts, drop_pending. cbn.
    subst rid. now rewrite Pos.eqb_refl.
Qed.

(** Extra X15.  The initial load of a logged-in user, when the language list,
    the problem and the attempt arrive.  The selected language is the
    problem's locked language; for a problem open to every language it
    is the language of the saved attempt when that is listed, else the
    first listed language.  A saved attempt that is not blank becomes
    the buffer and the page is shown at once.  Otherwise the boilerplate
    of the selected language is requested, and the buffer is what that
    call returns, or the language's static boilerplate when it fails;
    only then the page is shown. *)
Theorem initial_load_resolution :
  forall (sl : string) (env token : option string) (accepts : string -> bool)
         (langs : list ProgrammingLanguage)
         (p : Problem) (il : ProgrammingLanguage) (c : string) (a : option Z),
    match prob_language p with Some l => Some l | None => hd_error langs end = Some il ->
    let chosen := chosen_language p langs il a in
    let load := [EvHttp 1%positive (RespLanguages langs);
                 EvHttp 2%positive (RespProblem p);
                 EvHttp 3%positive (RespAttempt c a)] in
    exists w,
      run load (mount true sl env token accepts) = Some w /\
      selectedLanguage (st w) = Some chosen /\ problem (st w) = Some p /\
      if nonblank c
      then code (st w) = c /\ page_shown w = true /\ pending w = [] /\
           codeInitializedRef (refs w) = true /\
           calls w = [ReqLanguagesList; ReqProblemGet sl; ReqAttemptGet sl (lang_id il)]
      else page_shown w = false /\
           forall r,
             resp_matches (ReqBoilerplate sl (lang_slug chosen)) r = true ->
             exists w',
               step (EvHttp 4%positive r) w = Some w' /\
               page_shown w' = true /\ pending w' = [] /\
               codeInitializedRef (refs w') = true /\
               calls w' = [ReqLanguagesList; ReqProblemGet sl;
                           ReqAttemptGet sl (lang_id il);
                           ReqBoilerplate sl (lang_slug chosen)] /\
               selectedLanguage (st w') = Some chosen /\
               code (st w') = match r with
                              | RespBoilerplate b => b
                              | _ => lang_boilerplate chosen
                              end.
Proof.
  intros sl env token accepts langs p il c a Hil chosen load. subst load.
  destruct (parts_inv _ _ _ _ _ _ _ (mount_parts true sl env token accepts))
    as (Hm0 & Hs0 & Hr0 & Hp0 & Hc0 & Hn0).
  set (w0 := mount true sl env token accepts) in *. clearbody w0.
  (* the language list arrives *)
  destruct (step_single 1%positive (RespLanguages langs) w0 _ Hp0 eq_refl eq_refl)
    as (v0 & Hstep0 & Hv0).
  cbn [p_cont] in Hstep0.
  apply parts_inv in Hv0. destruct Hv0 as (Hmv & Hsv & Hrv & Hpv & Hcv & Hnv).
  assert (Hm : mounted v0 = true) by now rewrite Hmv.
  pose proof (resume_fetch_languages (initial_state true sl) langs v0 Hm) as H1.
  set (w1 := exec _ v0) in *. clearbody w1.
  rewrite Hsv, Hrv, Hpv, Hcv, Hnv, Hs0, Hr0, Hc0, Hn0 in H1. cbn in H1.
  clear Hm Hmv Hsv Hrv Hpv Hcv Hnv.
  apply parts_inv in H1. destruct H1 as (Hm1 & Hs1 & Hr1 & Hp1 & Hc1 & Hn1).
  (* the problem arrives *)
  destruct (step_single 2%positive (RespProblem p) w1 _ Hp1 eq_refl eq_refl)
    as (v1 & Hstep1 & Hv1).
  cbn [p_cont] in Hstep1.
  apply parts_inv in Hv1. destruct Hv1 as (Hmv & Hsv & Hrv & Hpv & Hcv & Hnv).
  assert (Hm : mounted v1 = true) by now rewrite Hmv.
  pose proof (resume_fetch_problem (initial_state true sl) langs p il v1 Hm eq_refl Hil)
    as H2.
  set (w2 := exec _ v1) in *. clearbody w2.
  rewrite Hsv, Hrv, Hpv, Hcv, Hnv, Hs1, Hr1, Hc1, Hn1 in H2. cbn in H2.
  clear Hm Hmv Hsv Hrv Hpv Hcv Hnv.
  apply parts_inv in H2. destruct H2 as (Hm2 & Hs2 & Hr2 & Hp2 & Hc2 & Hn2).
  (* the attempt arrives *)
  destruct (step_single 3%positive (RespAttempt c a) w2 _ Hp2 eq_refl eq_refl)
    as (v2 & Hstep2 & Hv2).
  cbn [p_cont] in Hstep2.
  apply parts_inv in Hv2. destruct Hv2 as (Hmv & Hsv & Hrv & Hpv & Hcv & Hnv).
  assert (Hm : mounted v2 = true) by now rewrite Hmv, Hm2.
  assert (Hsel : selectedLanguage (st v2) = Some il) by now rewrite Hsv, Hs2.
  pose proof (resume_fetch_attempt (initial_state true sl) langs p il c a v2 Hm Hsel)
    as H3.
  cbv zeta in H3. fold chosen in H3.
  set (w3 := exec _ v2) in *. clearbody w3.
  rewrite Hsv, Hrv, Hpv, Hcv, Hnv, Hs2, Hr2, Hc2, Hn2 in H3.
  clear Hm Hsel Hmv Hsv Hrv Hpv Hcv Hnv.
  exists w3. split.
  { cbn [run]. rewrite Hstep0. cbn [run]. rewrite Hstep1. cbn [run]. now rewrite Hstep2. }
  destruct (nonblank c);
    apply parts_inv in H3; destruct H3 as (Hm3 & Hs3 & Hr3 & Hp3 & Hc3 & Hn3);
    unfold page_shown; rewrite Hm3, Hs3.
  - rewrite Hr3, Hp3, Hc3. cbn. repeat split.
  - cbn. split; [reflexivity|]. split; [reflexivity|]. split; [reflexivity|].
    intros r Hr.
    cbn in Hp3.
    destruct (step_single 4%positive r w3 _ Hp3 eq_refl Hr) as (v3 & Hstep3 & Hv3).
    cbn [p_cont] in Hstep3.
    apply parts_inv in Hv3. destruct Hv3 as (Hmv & Hsv & Hrv & Hpv & Hcv & Hnv).
    assert (Hm : mounted v3 = true) by now rewrite Hmv, Hm3.
    pose proof (resume_fetch_boilerplate chosen r v3 Hm) as H4.
    cbv zeta in H4.
    set (w4 := exec _ v3) in *. clearbody w4.
    rewrite Hsv, Hrv, Hpv, Hcv, Hnv, Hs3, Hr3, Hc3 in H4.
    exists w4. split; [exact Hstep3|].
    assert (Hr' : resp_matches (ReqBoilerplate "" "") r = true)
      by (destruct r; try discriminate Hr; reflexivity).
    apply H4 in Hr'. apply parts_inv in Hr'.
    destruct Hr' as (Hm4 & Hs4 & Hr4 & Hp4 & Hc4 & Hn4).
    rewrite Hm4, Hs4, Hr4, Hp4, Hc4. cbn. repeat split.
Qed.

Lemma initial_load_resolution_witness :
  exists w,
    run [EvHttp 1%positive (RespLanguages [python; java]);
         EvHttp 2%positive (RespProblem two_sum);
         EvHttp 3%positive (RespAttempt "class A {}" (Some 2%Z))]
        (mount true "two-sum" None (Some "tok") lenient) = Some w /\
    selectedLanguage (st w) = Some java /\ code (st w) = "class A {}".
Proof.
  destruct (initial_load_resolution "two-sum" None (Some "tok") lenient [python; java] two_sum
              python "class A {}" (Some 2%Z) eq_refl) as (w & H1 & H2 & _ & H4).
  exists w. split; [exact H1|]. split; [exact H2|]. apply H4.
Defined.

(** ** One debounce timer at most *)

(** Timer ids stay distinct among the debounce timers. *)
Lemma debounce_ids_distinct (ts : list Timer) :
  NoDup (map t_id ts) -> NoDup (map t_id (filter is_debounce ts)).
Proof.
  induction ts as [|tm ts IH]; cbn [map filter]; intros Hnd; [exact Hnd|].
  apply NoDup_cons_iff in Hnd. destruct Hnd as [Hfresh Hrest].
  destruct (is_debounce tm); cbn [map]; [|exact (IH Hrest)].
  apply NoDup_cons; [|exact (IH Hrest)].
  intros Hin. apply Hfresh. apply in_map_iff in Hin.
  destruct Hin as (other & Hid & Hother). apply filter_In in Hother.
  apply in_map_iff. exists other. split; [exact Hid | apply Hother].
Qed.

(** Extra X16.  At any moment at most one auto-save timer is waiting, and
    [saveTimeoutRef] holds its id: every change of the buffer cancels
    the timer of the change before it. *)
Theorem at_most_one_debounce_timer :
  forall w : World,
    reachable w ->
    pending_debounce w = [] \/
    exists t, pending_debounce w = [t] /\ saveTimeoutRef (refs w) = Some (t_id t).
Proof.
  intros w Hr. destruct (reachable_timers_ok w Hr) as [_ Hnd Href].
  unfold pending_debounce.
  assert (Hin : forall t, In t (filter is_debounce (timers w)) ->
                          saveTimeoutRef (refs w) = Some (t_id t)).
  { intros t Ht. apply filter_In in Ht. now apply Href. }
  pose proof (debounce_ids_distinct (timers w) Hnd) as Hnd'.
  destruct (filter is_debounce (timers w)) as [|a [|b l]]; [now left | right | exfalso].
  - exists a. split; [reflexivity|]. apply Hin. now left.
  - pose proof (Hin a (or_introl eq_refl)) as Ea.
    pose proof (Hin b (or_intror (or_introl eq_refl))) as Eb.
    rewrite Ea in Eb. injection Eb as Eb.
    cbn in Hnd'. inversion Hnd' as [|? ? Hx _]; subst. apply Hx. left. now symmetry.
Qed.

Lemma typing_reachable : reachable typing.
Proof.
  apply (run_reachable [EvCodeChange (Some "def solve(): return 1")] loaded);
    [exact loaded_reachable | vm_compute; reflexivity].
Qed.

Lemma at_most_one_debounce_timer_witness :
  pending_debounce typing = [] \/
  exists t, pending_debounce typing = [t] /\
            saveTimeoutRef (refs typing) = Some (t_id t).
Proof. apply (at_most_one_debounce_timer typing typing_reachable). Defined.

(** ** The response interceptor *)

(** Extra X17.  A call through the [api] instance is fulfilled in two cases
    only: the server answers it at once with a status from 200 to 299;
    or it answers 401, a refresh token is stored, the refresh call is
    fulfilled with data to read the new token from, and the call sent
    again is answered with a status from 200 to 299.  A second 401 is
    not refreshed again. *)
Theorem call_fulfilled_iff :
  forall (rq : HttpRequest) (s : Api.Storage) (replies : list Api.Reply),
    Api.fulfilled (Api.call rq s replies) = true <->
    (exists status d rest,
       replies = Api.RResponse status d :: rest /\
       Api.validateStatus status = true) \/
    (exists d t status access status2 d2 rest,
       replies = Api.RResponse 401 d :: Api.RResponse status (Api.DataAccess access)
                 :: Api.RResponse status2 d2 :: rest /\
       Js.str_or_null (Api.refresh_token s) = Some t /\
       Api.validateStatus status = true /\ Api.validateStatus status2 = true).
Proof.
  intros rq s replies.
  unfold Api.call, Api.call_retried, Api.refresh_failed, Api.next_reply. split.
  - destruct replies as [|[status d|] rest]; cbn; try discriminate.
    destruct (Api.validateStatus status) eqn:Ev; cbn.
    + intros _. left. now exists status, d, rest.
    + destruct (Z.eqb_spec status 401) as [->|]; [|discriminate].
      destruct (Js.str_or_null (Api.refresh_token s)) as [t|]; [|discriminate].
      destruct rest as [|[status' [|access]|] rest]; cbn; try discriminate;
        destruct (Api.validateStatus status') eqn:Ev'; cbn; try discriminate.
      destruct rest as [|[status2 d2|] rest]; cbn; try discriminate.
      intros Ev2. right. exists d, t, status', access, status2, d2, rest.
      repeat split; assumption.
  - intros [(status & d & rest & -> & Hv)
           |(d & t & status & access & status2 & d2 & rest & -> & Ht & Hv & Hv2)]; cbn.
    + now rewrite Hv.
    + now rewrite Ht, Hv.
Qed.

(** Extra X18.  The response interceptor sends the browser to the login page
    exactly when the first answer is a 401, a refresh token is stored,
    and the refresh call is not fulfilled with data to read the new
    token from (it is rejected, it gets no answer, or its data is
    [null]).  Both tokens are then removed from [localStorage], and the
    call is rejected without being sent again.  In every other case the
    refresh token stays as it was; the access token changes only to the
    one a refresh returned, and the call is then sent again under
    [Bearer] and that token. *)
Theorem tokens_cleared_iff_refresh_fails :
  forall (rq : HttpRequest) (s : Api.Storage) (replies : list Api.Reply),
    let o := Api.call rq s replies in
    (Api.redirected_to_login o = true <->
     exists d t rest,
       replies = Api.RResponse 401 d :: rest /\
       Js.str_or_null (Api.refresh_token s) = Some t /\
       forall status access rest',
         rest = Api.RResponse status (Api.DataAccess access) :: rest' ->
         Api.validateStatus status = false) /\
    (Api.redirected_to_login o = true ->
     Api.fulfilled o = false /\
     Api.storage o = {| Api.access_token := None; Api.refresh_token := None |} /\
     Api.times_sent (fun _ => true) (Api.wire o) = 1%nat) /\
    (Api.redirected_to_login o = false ->
     Api.refresh_token (Api.storage o) = Api.refresh_token s /\
     (Api.access_token (Api.storage o) = Api.access_token s \/
      exists d t status access rest,
        replies = Api.RResponse 401 d
                  :: Api.RResponse status (Api.DataAccess access) :: rest /\
        Js.str_or_null (Api.refresh_token s) = Some t /\
        Api.validateStatus status = true /\
        Api.access_token (Api.storage o) = Some access /\
        Api.wire o = [Api.WApi rq false (Api.authorization s); Api.WRefresh t;
                      Api.WApi rq true (Some ("Bearer " ++ access)%string)])).
Proof.
  intros rq s replies o. subst o.
  unfold Api.call, Api.call_retried, Api.refresh_failed, Api.next_reply.
  assert (Hno : forall P : Prop,
            (false = true <-> P) <-> ~ P) by (intros P; split; [intros [_ H] HP; now apply H in HP | intros H; split; [discriminate | contradiction]]).
  destruct replies as [|[status d|] rest]; cbn.
  { split; [apply Hno; intros (? & ? & ? & E & _); discriminate E|].
    split; [discriminate | intros _; split; [reflexivity | now left]]. }
  2:{ split; [apply Hno; intros (? & ? & ? & E & _); discriminate E|].
      split; [discriminate | intros _; split; [reflexivity | now left]]. }
  destruct (Api.validateStatus status) eqn:Ev; cbn.
  { split; [apply Hno; intros (? & ? & ? & E & _); injection E as -> _ _; discriminate Ev|].
    split; [discriminate | intros _; split; [reflexivity | now left]]. }
  destruct (Z.eqb_spec status 401) as [->|Hs]; cbn.
  2:{ split; [apply Hno; intros (? & ? & ? & E & _); injection E as E _ _; contradiction|].
      split; [discriminate | intros _; split; [reflexivity | now left]]. }
  destruct (Js.str_or_null (Api.refresh_token s)) as [t|] eqn:Ht; cbn.
  2:{ split; [apply Hno; intros (? & ? & ? & _ & E & _); discriminate E|].
      split; [discriminate | intros _; split; [reflexivity | now left]]. }
  assert (Hyes : forall rest0 : list Api.Reply,
    (forall status access rest',
       rest0 = Api.RResponse status (Api.DataAccess access) :: rest' ->
       Api.validateStatus status = false) ->
    rest = rest0 ->
    (true = true <->
     exists d0 t0 rest1,
       Api.RResponse 401 d :: rest = Api.RResponse 401 d0 :: rest1 /\
       Some t = Some t0 /\
       forall status access rest',
         rest1 = Api.RResponse status (Api.DataAccess access) :: rest' ->
         Api.validateStatus status = false)).
  { intros rest0 H ->. split; [|reflexivity]. intros _.
    exists d, t, rest0. repeat split. exact H. }
  destruct rest as [|[status' [|access]|] rest']; cbn.
  - split; [apply (Hyes []); [discriminate | reflexivity]|].
    split; [intros _; repeat split | discriminate].
  - destruct (Api.validateStatus status') eqn:Ev'; cbn;
      (split; [apply (Hyes (Api.RResponse status' Api.DataNull :: rest'));
               [discriminate | reflexivity]|]);
      (split; [intros _; repeat split | discriminate]).
  - destruct (Api.validateStatus status') eqn:Ev'; cbn.
    + assert (Hnot : ~ exists d0 t0 rest1,
                Api.RResponse 401 d :: Api.RResponse status' (Api.DataAccess access) :: rest'
                = Api.RResponse 401 d0 :: rest1 /\
                Some t = Some t0 /\
                forall status access0 rest'0,
                  rest1 = Api.RResponse status (Api.DataAccess access0) :: rest'0 ->
                  Api.validateStatus status = false).
      { intros (d0 & t0 & rest1 & E & _ & H). injection E as _ <-.
        specialize (H _ _ _ eq_refl). congruence. }
      destruct rest' as [|[status2 d2|] rest2]; cbn;
        (split; [apply Hno; exact Hnot|]);
        (split; [discriminate|]);
        intros _; (split; [reflexivity|]);
        right; exists d, t, status', access; eexists;
        (split; [reflexivity|]); (split; [reflexivity|]); (split; [exact Ev'|]);
        split; reflexivity.
    + split; [apply (Hyes (Api.RResponse status' (Api.DataAccess access) :: rest'));
              [intros ? ? ? E; injection E as <- _ _; exact Ev' | reflexivity]|].
      split; [intros _; repeat split | discriminate].
  - split; [apply (Hyes (Api.RNetworkError :: rest')); [discriminate | reflexivity]|].
    split; [intros _; repeat split | discriminate].
Qed.

(** ** Language selections that save nothing *)

(** Extra X19.  Selecting a language id that is not in the list, or on a route
    without a slug, changes nothing at all.  Selecting a listed
    language when no save is due (the user is not logged in, no
    language is selected, or the buffer is blank) switches the selection
    at once, without a persistence call: the one call made is the
    attempt of the new language for a logged-in user and its boilerplate
    for a visitor, and the buffer stays until that call settles. *)
Theorem language_change_without_save :
  forall (w : World) (languageId : Z),
    selector_shown w = true ->
    let found := find (fun l => Z.eqb (lang_id l) languageId) (languages (st w)) in
    (found = None \/ slug (st w) = "" ->
     step (EvSelectLanguage languageId) w = Some w) /\
    (forall newLanguage,
       found = Some newLanguage -> slug (st w) <> "" ->
       (isAuthenticated (st w) && is_some (selectedLanguage (st w))
        && nonblank (code (st w)))%bool = false ->
       exists w1,
         step (EvSelectLanguage languageId) w = Some w1 /\
         selectedLanguage (st w1) = Some newLanguage /\
         code (st w1) = code (st w) /\ refs w1 = refs w /\
         saves w1 = saves w /\
         calls w1 = calls w ++
           [if isAuthenticated (st w)
            then ReqAttemptGet (slug (st w)) (lang_id newLanguage)
            else ReqBoilerplate (slug (st w)) (lang_slug newLanguage)]).
Proof.
  intros w languageId Hsel found. subst found.
  assert (Hm : mounted w = true).
  { unfold selector_shown, page_shown in Hsel.
    destruct (mounted w); [reflexivity | discriminate Hsel]. }
  unfold step. rewrite Hsel. unfold handleLanguageChange. split.
  - intros [Hf | Hs].
    + now rewrite Hf.
    + rewrite Hs. destruct (find _ _); reflexivity.
  - intros newLanguage Hf Hs Hno. rewrite Hf, (truthy_nonempty Hs).
    eexists. split; [reflexivity|].
    destruct w as [s ? mtd ? ? ? ? ? ? ? ? ? ? ?]. cbn in Hm. subst mtd.
    cbn [st] in *. unfold saves, calls.
    destruct (isAuthenticated s) eqn:Ha; destruct (selectedLanguage s) as [l|] eqn:Hl;
      cbn [andb is_some negb] in Hno |- *; rewrite ?Hno;
      unfold language_switch; rewrite Ha; cbn; simpl_log;
      repeat split; reflexivity.
Qed.

Lemma language_change_without_save_witness :
  step (EvSelectLanguage 99%Z) loaded = Some loaded.
Proof.
  apply (language_change_without_save loaded 99%Z eq_refl). left. reflexivity.
Defined.
